(** * l-lab-site: the authentication and authorization contract

    A shallow embedding of the two serverless handlers
    ([netlify/functions/auth.ts], [netlify/functions/posts.ts]) and of the
    client helpers of [src/lib/api.ts], together with the JavaScript
    built-ins they lean on ([JSON.parse], [JSON.stringify], property lookup,
    truthiness, the relational comparison [>=]).

    Conventions.
    - JavaScript values are the inductive type [jsval].  Strings are byte
      strings (UTF-8); a [\uXXXX] escape is stored unit by unit.
    - A computation that may throw returns [result]; [try]/[catch] is
      [catch].
    - The external collaborators (jsonwebtoken, bcryptjs, the Prisma schema
      and its id generator, the process environment) are the fields of the
      class [Collaborators]; nothing is assumed about them beyond what a
      theorem states as a hypothesis. *)

From Stdlib Require Import String Ascii ZArith List Bool Lia Permutation.
From stdpp Require Import gmap strings.
Import ListNotations.

Local Open Scope string_scope.
Local Open Scope list_scope.
Local Open Scope Z_scope.
Set Warnings "-register-all".

(** ** Exceptions *)

Inductive exn : Type :=
| SyntaxError      (* JSON.parse on text that is not JSON *)
| TypeError        (* destructuring null, calling what is not a function *)
| JwtError         (* jsonwebtoken: JsonWebTokenError *)
| BcryptError      (* bcryptjs: Illegal arguments *)
| PrismaError      (* validation or constraint failure of the ORM *)
| RequestError.    (* the Error that handleResponse raises on a non-2xx reply *)

Inductive result (A : Type) : Type :=
| Ok (a : A)
| Throw (e : exn).
Arguments Ok {A} a.
Arguments Throw {A} e.

Definition rbind {A B : Type} (m : result A) (k : A -> result B) : result B :=
  match m with
  | Ok a => k a
  | Throw e => Throw e
  end.

Notation "'do' x <-- m ; k" := (rbind m (fun x => k))
  (at level 10, x pattern, m at level 100, k at level 200).

(** [try { m } catch { h }] *)
Definition catch {A : Type} (m : result A) (h : exn -> A) : A :=
  match m with
  | Ok a => a
  | Throw e => h e
  end.

(** ** JavaScript values *)

(** A number is kept as the exact decimal [m * 10^e] of its literal. *)
Inductive jsval : Type :=
| JUndefined
| JNull
| JBool (b : bool)
| JNum (m e : Z)
| JStr (s : string)
| JArr (items : list jsval)
| JObj (props : list (string * jsval)).

Definition JInt (n : Z) : jsval := JNum n 0.

(** The double nearest to [m * 10^e] is zero when [m] is, or when the
    magnitude is at most [2^-1075] (half the least subnormal). *)
Definition num_is_zero (m e : Z) : bool :=
  (m =? 0) || ((e <? 0) && (Z.abs m * 2 ^ 1075 <=? 10 ^ (- e))).

(** ToBoolean *)
Definition truthy (v : jsval) : bool :=
  match v with
  | JUndefined | JNull => false
  | JBool b => b
  | JNum m e => negb (num_is_zero m e)
  | JStr s => negb (String.eqb s "")
  | JArr _ | JObj _ => true
  end.

(** Own properties of an object literal, in insertion order. *)
Fixpoint assoc (k : string) (props : list (string * jsval)) : option jsval :=
  match props with
  | [] => None
  | (k', v) :: rest => if String.eqb k k' then Some v else assoc k rest
  end.

(** [o[k] = v] on own properties: an existing key keeps its place. *)
Fixpoint obj_set (props : list (string * jsval)) (k : string) (v : jsval)
  : list (string * jsval) :=
  match props with
  | [] => [(k, v)]
  | (k', v') :: rest =>
      if String.eqb k k' then (k', v) :: rest else (k', v') :: obj_set rest k v
  end.

(** [v.k] for a key [k] that no built-in prototype defines (every property
    name the handlers read from parsed JSON is of that kind): the own
    property of an object, [undefined] otherwise.  Reading a property of
    [null] or [undefined] throws. *)
Definition js_get (v : jsval) (k : string) : result jsval :=
  match v with
  | JUndefined | JNull => Throw TypeError
  | JObj props => Ok (match assoc k props with Some x => x | None => JUndefined end)
  | _ => Ok JUndefined
  end.

(** An object built by assigning the properties one after the other. *)
Definition obj_of (l : list (string * jsval)) : list (string * jsval) :=
  fold_left (fun o kv => obj_set o (fst kv) (snd kv)) l [].

Definition keys (props : list (string * jsval)) : list string := map fst props.

(** ** JSON.parse *)

Inductive parsed (A : Type) : Type :=
| POk (a : A) (rest : string)
| PErr                         (* not JSON *)
| PFuel.                       (* recursion budget exhausted *)
Arguments POk {A} a rest.
Arguments PErr {A}.
Arguments PFuel {A}.

Definition is_ws (c : ascii) : bool :=
  let n := nat_of_ascii c in
  (n =? 32)%nat || (n =? 9)%nat || (n =? 10)%nat || (n =? 13)%nat.

Fixpoint skip_ws (s : string) : string :=
  match s with
  | String c rest => if is_ws c then skip_ws rest else s
  | EmptyString => s
  end.

Definition digit_val (c : ascii) : option Z :=
  let n := Z.of_nat (nat_of_ascii c) in
  if (48 <=? n) && (n <=? 57) then Some (n - 48) else None.

Definition hex_val (c : ascii) : option Z :=
  let n := Z.of_nat (nat_of_ascii c) in
  if (48 <=? n) && (n <=? 57) then Some (n - 48)
  else if (97 <=? n) && (n <=? 102) then Some (n - 87)
  else if (65 <=? n) && (n <=? 70) then Some (n - 55)
  else None.

Definition byte (n : Z) : ascii := ascii_of_nat (Z.to_nat n).

(** A UTF-16 code unit as UTF-8 bytes. *)
Definition encode_unit (n : Z) : string :=
  if n <? 128 then String (byte n) ""
  else if n <? 2048 then
    String (byte (192 + n / 64)) (String (byte (128 + n mod 64)) "")
  else
    String (byte (224 + n / 4096))
      (String (byte (128 + (n / 64) mod 64)) (String (byte (128 + n mod 64)) "")).

(** The character that a two-character escape stands for. *)
Definition simple_escape (c : ascii) : option ascii :=
  if Ascii.eqb c "034" then Some "034"%char
  else if Ascii.eqb c "\" then Some "\"%char
  else if Ascii.eqb c "/" then Some "/"%char
  else if Ascii.eqb c "b" then Some "008"%char
  else if Ascii.eqb c "f" then Some "012"%char
  else if Ascii.eqb c "n" then Some "010"%char
  else if Ascii.eqb c "r" then Some "013"%char
  else if Ascii.eqb c "t" then Some "009"%char
  else None.

(** The characters of a string literal, after its opening quote. *)
Fixpoint parse_chars (s : string) : parsed string :=
  match s with
  | EmptyString => PErr
  | String c rest =>
      if Ascii.eqb c "034" then POk "" rest
      else if Ascii.eqb c "\" then
        match rest with
        | String e rest' =>
            if Ascii.eqb e "u" then
              match rest' with
              | String h1 (String h2 (String h3 (String h4 rest''))) =>
                  match hex_val h1, hex_val h2, hex_val h3, hex_val h4 with
                  | Some a, Some b, Some c', Some d =>
                      match parse_chars rest'' with
                      | POk t r =>
                          POk (encode_unit (((a * 16 + b) * 16 + c') * 16 + d) +:+ t) r
                      | other => other
                      end
                  | _, _, _, _ => PErr
                  end
              | _ => PErr
              end
            else
              match simple_escape e with
              | Some x =>
                  match parse_chars rest' with
                  | POk t r => POk (String x t) r
                  | other => other
                  end
              | None => PErr
              end
        | EmptyString => PErr
        end
      else if (nat_of_ascii c <? 32)%nat then PErr
      else
        match parse_chars rest with
        | POk t r => POk (String c t) r
        | other => other
        end
  end.

(** A run of decimal digits: accumulated value, how many, the rest. *)
Fixpoint take_digits (s : string) (acc : Z) (cnt : Z) : Z * Z * string :=
  match s with
  | String c rest =>
      match digit_val c with
      | Some d => take_digits rest (acc * 10 + d) (cnt + 1)
      | None => (acc, cnt, s)
      end
  | EmptyString => (acc, cnt, s)
  end.

(** [s] begins with the character [c]: what follows it. *)
Definition starts (c : ascii) (s : string) : option string :=
  match s with
  | String c' r => if Ascii.eqb c c' then Some r else None
  | EmptyString => None
  end.

Definition parse_int_part (s : string) : option (Z * string) :=
  match starts "0" s with
  | Some rest => Some (0, rest)
  | None =>
      match take_digits s 0 0 with
      | (v, cnt, rest) => if cnt =? 0 then None else Some (v, rest)
      end
  end.

Definition parse_frac_part (mant : Z) (s : string) : option (Z * Z * string) :=
  match starts "." s with
  | Some rest =>
      match take_digits rest mant 0 with
      | (v, cnt, rest') => if cnt =? 0 then None else Some (v, cnt, rest')
      end
  | None => Some (mant, 0, s)
  end.

Definition parse_exp_digits (sign : Z) (s : string) : option (Z * string) :=
  match take_digits s 0 0 with
  | (v, cnt, rest) => if cnt =? 0 then None else Some (sign * v, rest)
  end.

Definition parse_exp_sign (s : string) : option (Z * string) :=
  match starts "-" s, starts "+" s with
  | Some r, _ => parse_exp_digits (-1) r
  | None, Some r => parse_exp_digits 1 r
  | None, None => parse_exp_digits 1 s
  end.

Definition parse_exp_part (s : string) : option (Z * string) :=
  match starts "e" s, starts "E" s with
  | Some r, _ => parse_exp_sign r
  | None, Some r => parse_exp_sign r
  | None, None => Some (0, s)
  end.

Definition parse_number (s : string) : parsed jsval :=
  let '(sign, s1) :=
    match starts "-" s with
    | Some r => (-1, r)
    | None => (1, s)
    end in
  match parse_int_part s1 with
  | None => PErr
  | Some (i, s2) =>
      match parse_frac_part i s2 with
      | None => PErr
      | Some (m, fd, s3) =>
          match parse_exp_part s3 with
          | None => PErr
          | Some (x, s4) => POk (JNum (sign * m) (x - fd)) s4
          end
      end
  end.

Fixpoint strip_prefix (p s : string) : option string :=
  match p with
  | EmptyString => Some s
  | String a p' =>
      match s with
      | String b s' => if Ascii.eqb a b then strip_prefix p' s' else None
      | EmptyString => None
      end
  end.

Definition parse_literal (s : string) : parsed jsval :=
  match strip_prefix "true" s with
  | Some r => POk (JBool true) r
  | None =>
      match strip_prefix "false" s with
      | Some r => POk (JBool false) r
      | None =>
          match strip_prefix "null" s with
          | Some r => POk JNull r
          | None => parse_number s
          end
      end
  end.

(** Values, then the tail of an array after [[] and of an object after [{].
    A repeated member name overwrites the earlier value. *)
Fixpoint parse_value (fuel : nat) (s : string) : parsed jsval :=
  match fuel with
  | O => PFuel
  | S fuel' =>
      let s' := skip_ws s in
      match starts "[" s', starts "{" s', starts "034" s' with
      | Some r, _, _ =>
          match starts "]" (skip_ws r) with
          | Some r' => POk (JArr []) r'
          | None =>
              match parse_elements fuel' r with
              | POk l r' => POk (JArr l) r'
              | PErr => PErr
              | PFuel => PFuel
              end
          end
      | None, Some r, _ =>
          match starts "}" (skip_ws r) with
          | Some r' => POk (JObj []) r'
          | None =>
              match parse_members fuel' r [] with
              | POk l r' => POk (JObj l) r'
              | PErr => PErr
              | PFuel => PFuel
              end
          end
      | None, None, Some r =>
          match parse_chars r with
          | POk t r' => POk (JStr t) r'
          | PErr => PErr
          | PFuel => PFuel
          end
      | None, None, None => parse_literal s'
      end
  end
with parse_elements (fuel : nat) (s : string) : parsed (list jsval) :=
  match fuel with
  | O => PFuel
  | S fuel' =>
      match parse_value fuel' s with
      | POk v r =>
          match starts "," (skip_ws r), starts "]" (skip_ws r) with
          | Some r', _ =>
              match parse_elements fuel' r' with
              | POk l r'' => POk (v :: l) r''
              | PErr => PErr
              | PFuel => PFuel
              end
          | None, Some r' => POk [v] r'
          | None, None => PErr
          end
      | PErr => PErr
      | PFuel => PFuel
      end
  end
with parse_members (fuel : nat) (s : string) (acc : list (string * jsval))
  : parsed (list (string * jsval)) :=
  match fuel with
  | O => PFuel
  | S fuel' =>
      match starts "034" (skip_ws s) with
      | Some r =>
          match parse_chars r with
          | POk k r1 =>
              match starts ":" (skip_ws r1) with
              | Some r2 =>
                  match parse_value fuel' r2 with
                  | POk v r3 =>
                      match starts "," (skip_ws r3), starts "}" (skip_ws r3) with
                      | Some r4, _ => parse_members fuel' r4 (obj_set acc k v)
                      | None, Some r4 => POk (obj_set acc k v) r4
                      | None, None => PErr
                      end
                  | PErr => PErr
                  | PFuel => PFuel
                  end
              | None => PErr
              end
          | PErr => PErr
          | PFuel => PFuel
          end
      | None => PErr
      end
  end.

(** [JSON.parse(text)]: a [SyntaxError] unless the whole text is one value. *)
Definition JSON_parse (text : string) : result jsval :=
  match parse_value (2 * String.length text + 2) text with
  | POk v rest =>
      match skip_ws rest with
      | EmptyString => Ok v
      | _ => Throw SyntaxError
      end
  | _ => Throw SyntaxError
  end.


(** ** JSON.stringify *)

Definition hex_digit (n : Z) : ascii :=
  if n <? 10 then byte (48 + n) else byte (87 + n).

(** QuoteJSONString, one character. *)
Definition quote_char (c : ascii) : string :=
  let n := Z.of_nat (nat_of_ascii c) in
  if n =? 8 then "\b"
  else if n =? 9 then "\t"
  else if n =? 10 then "\n"
  else if n =? 12 then "\f"
  else if n =? 13 then "\r"
  else if n =? 34 then String "\" (String "034" "")
  else if n =? 92 then "\\"
  else if n <? 32 then "\u00" +:+ String (hex_digit (n / 16)) (String (hex_digit (n mod 16)) "")
  else String c "".

Fixpoint quote_body (s : string) : string :=
  match s with
  | EmptyString => ""
  | String c rest => quote_char c +:+ quote_body rest
  end.

Definition quote (s : string) : string :=
  String "034" (quote_body s +:+ String "034" "").

Fixpoint digits_of_pos (fuel : nat) (n : Z) (acc : string) : string :=
  match fuel with
  | O => acc
  | S fuel' =>
      let acc' := String (byte (48 + n mod 10)) acc in
      if n <? 10 then acc' else digits_of_pos fuel' (n / 10) acc'
  end.

(** Decimal digits of an integer. *)
Definition Z_to_string (n : Z) : string :=
  let a := Z.abs n in
  let d := digits_of_pos (S (Z.to_nat (Z.log2 a))) a "" in
  if n <? 0 then "-" +:+ d else d.

(** Number::toString.  Exact on integers, which is what the rows hold; a
    decimal with a proper fraction, which no handler serialises, is shown
    as mantissa and exponent. *)
Definition number_toString (m e : Z) : string :=
  if 0 <=? e then Z_to_string (m * 10 ^ e)
  else if m mod 10 ^ (- e) =? 0 then Z_to_string (m / 10 ^ (- e))
  else Z_to_string m +:+ "e" +:+ Z_to_string e.

Fixpoint join (sep : string) (l : list string) : string :=
  match l with
  | [] => ""
  | [x] => x
  | x :: rest => x +:+ sep +:+ join sep rest
  end.

(** SerializeJSONProperty: [None] is the result [undefined].  A property
    whose value is [undefined] is left out of an object and becomes [null]
    in an array. *)
Fixpoint stringify (v : jsval) : option string :=
  match v with
  | JUndefined => None
  | JNull => Some "null"
  | JBool true => Some "true"
  | JBool false => Some "false"
  | JNum m e => Some (number_toString m e)
  | JStr s => Some (quote s)
  | JArr items =>
      let fix elems (l : list jsval) : list string :=
        match l with
        | [] => []
        | x :: rest =>
            (match stringify x with Some t => t | None => "null" end) :: elems rest
        end in
      Some ("[" +:+ join "," (elems items) +:+ "]")
  | JObj props =>
      let fix members (l : list (string * jsval)) : list string :=
        match l with
        | [] => []
        | (k, x) :: rest =>
            match stringify x with
            | Some t => (quote k +:+ ":" +:+ t) :: members rest
            | None => members rest
            end
        end in
      Some ("{" +:+ join "," (members props) +:+ "}")
  end.

(** [JSON.stringify(v)] where a string comes back, which is the case for
    the objects and arrays the handlers and the client pass. *)
Definition JSON_stringify (v : jsval) : string :=
  match stringify v with
  | Some t => t
  | None => ""
  end.


(** ** External collaborators *)

Class Collaborators : Type := {
  (** [jwt.sign(payload, secret)] *)
  jwt_sign : jsval -> string -> string;
  (** [jwt.verify(token, secret)]: the payload, or throws *)
  jwt_verify : string -> string -> result jsval;
  (** [bcrypt.compare(password, hash)] on two strings *)
  bcrypt_compare : string -> string -> bool;
  (** [process.env.JWT_SECRET] *)
  env_JWT_SECRET : option string;
  (** which category strings the Post model accepts *)
  category_ok : string -> bool;
  (** the columns of a new Post row that the create call leaves to the
      schema (excerpt, published, views, likes, timestamps), at the n-th
      insertion *)
  post_defaults : N -> list (string * jsval);
  (** the id the storage layer hands out at the n-th insertion *)
  new_id : N -> string
}.

(** ** Requests and responses of a serverless function *)

Record Event : Type := {
  httpMethod : string;
  authorization : option string;   (* event.headers.authorization *)
  body : option string             (* event.body: string | null *)
}.

Record Response : Type := {
  statusCode : Z;
  resp_body : string
}.

Definition message (text : string) : jsval := JObj [("message", JStr text)].

(** [event.body || dflt] *)
Definition body_or (ev : Event) (dflt : string) : string :=
  match body ev with
  | Some b => if String.eqb b "" then dflt else b
  | None => dflt
  end.

(** ** Storage *)

(** Modelled from the spec: the Prisma schema (prisma/schema.prisma) is not
    among the sources.  Rows follow the data model of section 3: an
    Identity with its stored password hash, a Tag [{id, name}], an Article
    whose create call supplies title, content, category, authorId and
    tags; the remaining columns of an Article are kept as [p_rest]. *)
Record UserRow : Type := {
  u_id : string;
  u_name : string;
  u_email : string;
  u_password : string;
  u_role : string;
  u_avatarUrl : option string
}.

Record TagRow : Type := {
  t_id : string;
  t_name : string
}.

Record PostRow : Type := {
  p_id : string;
  p_title : string;
  p_content : string;
  p_category : string;
  p_rest : list (string * jsval);
  p_authorId : string;
  p_tags : list string             (* ids of the associated tags *)
}.

Record DB : Type := {
  users : list UserRow;
  tags : list TagRow;
  posts : list PostRow;
  inserted : N                     (* rows inserted so far *)
}.

Definition nullable (o : option string) : jsval :=
  match o with
  | Some s => JStr s
  | None => JNull
  end.

(** A full User row, as [findUnique] returns it. *)
Definition user_object (u : UserRow) : list (string * jsval) :=
  [("id", JStr (u_id u)); ("name", JStr (u_name u)); ("email", JStr (u_email u));
   ("password", JStr (u_password u)); ("role", JStr (u_role u));
   ("avatarUrl", nullable (u_avatarUrl u))].

(** [select: { id: true, name: true, email: true, avatarUrl: true }] *)
Definition author_select (u : UserRow) : jsval :=
  JObj [("id", JStr (u_id u)); ("name", JStr (u_name u)); ("email", JStr (u_email u));
        ("avatarUrl", nullable (u_avatarUrl u))].

Definition tag_object (t : TagRow) : jsval :=
  JObj [("id", JStr (t_id t)); ("name", JStr (t_name t))].

Definition find_user_by_email (db : DB) (email : string) : option UserRow :=
  find (fun u => String.eqb (u_email u) email) (users db).

Definition find_user_by_id (db : DB) (id : string) : option UserRow :=
  find (fun u => String.eqb (u_id u) id) (users db).

Definition find_tag_by_name (ts : list TagRow) (name : string) : option TagRow :=
  find (fun t => String.eqb (t_name t) name) ts.

Definition mem_string (x : string) (l : list string) : bool :=
  existsb (String.eqb x) l.

(** Modelled from the spec: [prisma.user.findUnique({ where: { email } })]
    of the Prisma client, which is not among the sources.  The argument
    must be a string; the email column is unique. *)
Definition user_findUnique (db : DB) (email : jsval) : result (option UserRow) :=
  match email with
  | JStr e => Ok (find_user_by_email db e)
  | _ => Throw PrismaError
  end.

(** The tag rows associated with a post. *)
Definition tags_of (db : DB) (p : PostRow) : list TagRow :=
  List.filter (fun t => mem_string (t_id t) (p_tags p)) (tags db).

(** Modelled from the spec: a post as the Prisma client returns it under
    [include: { author: { select: ... }, tags: true }], the scalar columns,
    then the two relations.  A post whose author row is gone makes the
    client throw. *)
Definition post_object (db : DB) (p : PostRow) : result jsval :=
  match find_user_by_id db (p_authorId p) with
  | None => Throw PrismaError
  | Some a =>
      Ok (JObj (obj_of
            ([("id", JStr (p_id p)); ("title", JStr (p_title p));
              ("content", JStr (p_content p)); ("category", JStr (p_category p))]
             ++ p_rest p
             ++ [("authorId", JStr (p_authorId p));
                 ("author", author_select a);
                 ("tags", JArr (map tag_object (tags_of db p)))])))
  end.

Fixpoint post_objects (db : DB) (ps : list PostRow) : result (list jsval) :=
  match ps with
  | [] => Ok []
  | p :: rest =>
      do o <-- post_object db p;
      do os <-- post_objects db rest;
      Ok (o :: os)
  end.

(** [prisma.post.findMany({ include })] *)
Definition post_findMany (db : DB) : result (list jsval) :=
  post_objects db (posts db).

(** One entry of [connectOrCreate]. *)
Record ConnectOrCreate : Type := {
  where_name : jsval;
  create_name : jsval
}.

Definition link (id : string) (linked : list string) : list string :=
  if mem_string id linked then linked else linked ++ [id].

Section Storage.
Context `{Collaborators}.

(** Modelled from the spec: the nested [connectOrCreate] write of the
    Prisma client, which is not among the sources, after the get-or-create
    by name of section 4.2.  The entries are served in order: connect the
    tag found under [where.name], or insert [create.name] and connect that;
    a tag is connected to a post once. *)
Fixpoint connect_or_create (items : list (string * string)) (ts : list TagRow)
    (n : N) (linked : list string) : list TagRow * N * list string :=
  match items with
  | [] => (ts, n, linked)
  | (w, c) :: rest =>
      match find_tag_by_name ts w with
      | Some t => connect_or_create rest ts n (link (t_id t) linked)
      | None =>
          let t := {| t_id := new_id n; t_name := c |} in
          connect_or_create rest (ts ++ [t]) (n + 1)%N (link (t_id t) linked)
      end
  end.

(** Argument validation of the nested write: both names are strings. *)
Fixpoint checked_items (items : list ConnectOrCreate) : option (list (string * string)) :=
  match items with
  | [] => Some []
  | it :: rest =>
      match where_name it, create_name it, checked_items rest with
      | JStr w, JStr c, Some l => Some ((w, c) :: l)
      | _, _, _ => None
      end
  end.

(** Modelled from the spec: [prisma.post.create({ data, include })] of the
    Prisma client, which is not among the sources.  The call is refused,
    and nothing is written, unless title, content and category are strings
    the schema accepts, [authorId] is the id of a stored user and every
    tag name is a string.  The post row is inserted first, its tags after
    it. *)
Definition post_create (db : DB) (title content category authorId : jsval)
    (items : list ConnectOrCreate) : result (jsval * DB) :=
  match title, content, category, authorId, checked_items items with
  | JStr t, JStr c, JStr cat, JStr aid, Some its =>
      if category_ok cat then
        match find_user_by_id db aid with
        | None => Throw PrismaError
        | Some _ =>
            let n := inserted db in
            let '(ts, n', linked) := connect_or_create its (tags db) (n + 1)%N [] in
            let row := {| p_id := new_id n; p_title := t; p_content := c;
                          p_category := cat; p_rest := post_defaults n;
                          p_authorId := aid; p_tags := linked |} in
            let db' := {| users := users db; tags := ts;
                          posts := posts db ++ [row]; inserted := n' |} in
            do o <-- post_object db' row;
            Ok (o, db')
        end
      else Throw PrismaError
  | _, _, _, _, _ => Throw PrismaError
  end.
End Storage.

(** ** netlify/functions/auth.ts *)

Module Auth.
Section Handler.
Context `{Collaborators}.

(** [process.env.JWT_SECRET || 'your-secret-key'] *)
Definition JWT_SECRET : string :=
  match env_JWT_SECRET with
  | Some s => if String.eqb s "" then "your-secret-key" else s
  | None => "your-secret-key"
  end.

(** [bcrypt.compare(password, hash)]: rejects unless both are strings. *)
Definition compare (password : jsval) (hash : string) : result bool :=
  match password with
  | JStr p => Ok (bcrypt_compare p hash)
  | _ => Throw BcryptError
  end.

(** [action === 'login'] *)
Definition is_login (action : jsval) : bool :=
  match action with
  | JStr a => String.eqb a "login"
  | _ => false
  end.

(** The body of the [try] block: status and the value handed to
    [JSON.stringify]. *)
Definition reply (db : DB) (ev : Event) : result (Z * jsval) :=
  do parsed <-- JSON_parse (body_or ev "{}");
  do email <-- js_get parsed "email";
  do password <-- js_get parsed "password";
  do action <-- js_get parsed "action";
  if is_login action then
    do user <-- user_findUnique db email;
    match user with
    | None => Ok (401, message "Invalid credentials")
    | Some u =>
        do same <-- compare password (u_password u);
        if negb same then Ok (401, message "Invalid credentials")
        else
          let token := jwt_sign (JObj [("userId", JStr (u_id u))]) JWT_SECRET in
          Ok (200, JObj [("token", JStr token);
                         ("user", JObj (obj_set (user_object u) "password" JUndefined))])
    end
  else Ok (400, message "Invalid action").

Definition handler (db : DB) (ev : Event) : Response :=
  if negb (String.eqb (httpMethod ev) "POST") then
    {| statusCode := 405; resp_body := JSON_stringify (message "Method not allowed") |}
  else
    catch
      (do (st, v) <-- reply db ev;
       Ok {| statusCode := st; resp_body := JSON_stringify v |})
      (fun _ => {| statusCode := 500;
                   resp_body := JSON_stringify (message "Internal server error") |}).
End Handler.
End Auth.

(** ** netlify/functions/posts.ts *)

(** [s.split(' ')] *)
Fixpoint split_space (s : string) : list string :=
  match s with
  | EmptyString => [""]
  | String c rest =>
      if Ascii.eqb c " " then "" :: split_space rest
      else
        match split_space rest with
        | x :: xs => String c x :: xs
        | [] => [String c ""]
        end
  end.

(** [tags.map(f)]: only an array has a [map] to call. *)
Definition array_map {B : Type} (v : jsval) (f : jsval -> B) : result (list B) :=
  match v with
  | JArr items => Ok (map f items)
  | _ => Throw TypeError
  end.

Module Posts.
Section Handler.
Context `{Collaborators}.

Definition JWT_SECRET : string :=
  match env_JWT_SECRET with
  | Some s => if String.eqb s "" then "your-secret-key" else s
  | None => "your-secret-key"
  end.

Definition verifyToken (token : string) : jsval :=
  catch (jwt_verify token JWT_SECRET) (fun _ => JNull).

(** [event.headers.authorization?.split(' ')[1]] *)
Definition bearer (ev : Event) : option string :=
  match authorization ev with
  | Some h => nth_error (split_space h) 1
  | None => None
  end.

(** [token ? verifyToken(token) : null] *)
Definition decode (ev : Event) : jsval :=
  match bearer ev with
  | Some token => if String.eqb token "" then JNull else verifyToken token
  | None => JNull
  end.

(** The body of the [try] block: status, the value handed to
    [JSON.stringify], and the storage afterwards. *)
Definition reply (db : DB) (ev : Event) : result (Z * jsval * DB) :=
  let decoded := decode ev in
  if String.eqb (httpMethod ev) "GET" then
    do found <-- post_findMany db;
    Ok (200, JArr found, db)
  else if String.eqb (httpMethod ev) "POST" then
    if negb (truthy decoded) then Ok (401, message "Unauthorized", db)
    else
      do parsed <-- JSON_parse (body_or ev "{}");
      do title <-- js_get parsed "title";
      do content <-- js_get parsed "content";
      do category <-- js_get parsed "category";
      do tags <-- js_get parsed "tags";
      do userId <-- js_get decoded "userId";
      do items <-- array_map tags
                     (fun tag => {| where_name := tag; create_name := tag |});
      do (newPost, db') <-- post_create db title content category userId items;
      Ok (201, newPost, db')
  else Ok (405, message "Method not allowed", db).

Definition handler (db : DB) (ev : Event) : Response * DB :=
  catch
    (do (st, v, db') <-- reply db ev;
     Ok ({| statusCode := st; resp_body := JSON_stringify v |}, db'))
    (fun _ => ({| statusCode := 500;
                  resp_body := JSON_stringify (message "Internal server error") |}, db)).
End Handler.
End Posts.

(** ** src/lib/api.ts *)

Module Api.

(** [handleResponse]: a reply outside 200..299 raises, otherwise the body
    is parsed. *)
Definition handleResponse (r : Response) : result jsval :=
  if (200 <=? statusCode r) && (statusCode r <=? 299) then JSON_parse (resp_body r)
  else Throw RequestError.

(** The [Authorization] header of [getAuthHeaders], present when the
    cached token is a non-empty string. *)
Definition getAuthHeaders (localStorage : gmap string string) : option string :=
  match localStorage !! "token" with
  | Some token => if String.eqb token "" then None else Some ("Bearer " +:+ token)
  | None => None
  end.

(** The request [api.login] sends to [/auth]. *)
Definition login_request (email password : string) : Event :=
  {| httpMethod := "POST";
     authorization := None;
     body := Some (JSON_stringify
               (JObj [("email", JStr email); ("password", JStr password)])) |}.

Definition login `{Collaborators} (db : DB) (email password : string) : result jsval :=
  handleResponse (Auth.handler db (login_request email password)).

(** The request [api.createPost] sends to [/posts]. *)
Definition createPost_request (localStorage : gmap string string) (data : jsval) : Event :=
  {| httpMethod := "POST";
     authorization := getAuthHeaders localStorage;
     body := Some (JSON_stringify data) |}.

(** *** utils *)

Definition isAuthenticated (localStorage : gmap string string) : bool :=
  match localStorage !! "token" with
  | Some token => negb (String.eqb token "")
  | None => false
  end.

(** [userStr ? JSON.parse(userStr) : null] *)
Definition getCurrentUser (localStorage : gmap string string) : result jsval :=
  match localStorage !! "user" with
  | Some userStr => if String.eqb userStr "" then Ok JNull else JSON_parse userStr
  | None => Ok JNull
  end.

Definition clearAuth (localStorage : gmap string string) : gmap string string :=
  delete "user" (delete "token" localStorage).

(** What [roles[k]] evaluates to: the number of an own property, a
    property inherited from [Object.prototype] (kept as the string that
    ToPrimitive turns it into), or [undefined]. *)
Inductive slot : Type :=
| Rank (n : Z)
| Builtin (text : string)
| Absent.

Definition roles : list (string * Z) :=
  [("admin", 3); ("teacher", 2); ("student", 1)].

(** The methods an object literal inherits under their own name. *)
Definition Object_prototype_methods : list string :=
  ["hasOwnProperty"; "isPrototypeOf"; "propertyIsEnumerable";
   "toLocaleString"; "toString"; "valueOf";
   "__defineGetter__"; "__defineSetter__"; "__lookupGetter__"; "__lookupSetter__"].

(** [Function.prototype.toString] of a built-in, as V8 prints it. *)
Definition native_source (name : string) : string :=
  "function " +:+ name +:+ "() { [native code] }".

Fixpoint rank_of (k : string) (table : list (string * Z)) : option Z :=
  match table with
  | [] => None
  | (k', n) :: rest => if String.eqb k k' then Some n else rank_of k rest
  end.

(** What an object literal inherits under the name [k], as the string
    ToPrimitive makes of it: [Object.prototype] itself under [__proto__],
    the function [Object] under [constructor], a method under its name. *)
Definition inherited (k : string) : option string :=
  if String.eqb k "__proto__" then Some "[object Object]"
  else if String.eqb k "constructor" then Some (native_source "Object")
  else if mem_string k Object_prototype_methods then Some (native_source k)
  else None.

(** [roles[k]] for a string key. *)
Definition roles_at (k : string) : slot :=
  match rank_of k roles with
  | Some n => Rank n
  | None =>
      match inherited k with
      | Some text => Builtin text
      | None => Absent
      end
  end.

(** ToPropertyKey of the value found under [user.role], a value that
    [JSON.parse] built.  An object is converted by its [toString]: with no
    own member of that name it inherits the one of [Object.prototype] and
    reads [[object Object]]; with an own member of that name, which is
    never a function, neither it nor [valueOf] yields a primitive and the
    conversion throws.  An array is converted by [join]: its elements in
    order, [null] as the empty text, so that the conversion of an element
    may throw.  [None] stands for a key that is the text of a number or
    holds the comma of an array with several elements: such a key names no
    property of [roles] or of [Object.prototype]. *)
Fixpoint to_key (v : jsval) : result (option string) :=
  match v with
  | JStr s => Ok (Some s)
  | JUndefined => Ok (Some "undefined")
  | JNull => Ok (Some "null")
  | JBool true => Ok (Some "true")
  | JBool false => Ok (Some "false")
  | JNum _ _ => Ok None
  | JObj props =>
      match assoc "toString" props with
      | Some _ => Throw TypeError
      | None => Ok (Some "[object Object]")
      end
  | JArr items =>
      let fix elements (l : list jsval) : result unit :=
        match l with
        | [] => Ok tt
        | x :: rest => do _ <-- to_key x; elements rest
        end in
      match items with
      | [] => Ok (Some "")
      | [x] =>
          match x with
          | JUndefined | JNull => Ok (Some "")
          | _ => to_key x
          end
      | _ => do _ <-- elements items; Ok None
      end
  end.

Definition roles_lookup (role : jsval) : result slot :=
  do key <-- to_key role;
  Ok (match key with
      | Some k => roles_at k
      | None => Absent
      end).

(** [a >= b] on two slots.  Two strings compare by code units; a string
    that is the text of a built-in converts to NaN next to a number, and
    [undefined] converts to NaN: a comparison with NaN is false. *)
Definition slot_ge (a b : slot) : bool :=
  match a, b with
  | Rank x, Rank y => y <=? x
  | Builtin s, Builtin t =>
      match String.compare s t with
      | Lt => false
      | _ => true
      end
  | _, _ => false
  end.

(** [hasPermission(requiredRole)] *)
Definition hasPermission (localStorage : gmap string string) (requiredRole : string)
    : result bool :=
  do user <-- getCurrentUser localStorage;
  if negb (truthy user) then Ok false
  else
    do role <-- js_get user "role";
    do have <-- roles_lookup role;
    Ok (slot_ge have (roles_at requiredRole)).

(** *** The remaining calls to the two functions

    With [API_BASE_URL] naming the functions of this site, the function
    named posts receives every request under its path ([/posts],
    [/posts/<id>], [/posts/<id>/like], [/posts/<id>/comments]) and the
    function named auth those under [/auth]; a handler reads the method,
    the authorization header and the body, never the path.  A call is the
    reply of the handler run through [handleResponse], with the storage
    the handler leaves. *)

Definition call `{Collaborators} (db : DB) (ev : Event) : result jsval * DB :=
  (handleResponse (fst (Posts.handler db ev)), snd (Posts.handler db ev)).

Definition getPosts_request (localStorage : gmap string string) : Event :=
  {| httpMethod := "GET"; authorization := getAuthHeaders localStorage; body := None |}.

Definition updatePost_request (localStorage : gmap string string) (data : jsval) : Event :=
  {| httpMethod := "PUT";
     authorization := getAuthHeaders localStorage;
     body := Some (JSON_stringify data) |}.

Definition deletePost_request (localStorage : gmap string string) : Event :=
  {| httpMethod := "DELETE"; authorization := getAuthHeaders localStorage; body := None |}.

Definition likePost_request (localStorage : gmap string string) : Event :=
  {| httpMethod := "POST"; authorization := getAuthHeaders localStorage; body := None |}.

Definition getPosts `{Collaborators} (db : DB) (localStorage : gmap string string) :=
  call db (getPosts_request localStorage).

Definition createPost `{Collaborators} (db : DB) (localStorage : gmap string string)
    (data : jsval) :=
  call db (createPost_request localStorage data).

Definition updatePost `{Collaborators} (db : DB) (localStorage : gmap string string)
    (data : jsval) :=
  call db (updatePost_request localStorage data).

Definition deletePost `{Collaborators} (db : DB) (localStorage : gmap string string) :=
  call db (deletePost_request localStorage).

Definition likePost `{Collaborators} (db : DB) (localStorage : gmap string string) :=
  call db (likePost_request localStorage).

(** The request [api.createComment] sends; the function named posts
    receives it under [/posts/<id>/comments]. *)
Definition createComment_request (localStorage : gmap string string) (content : string)
    : Event :=
  {| httpMethod := "POST";
     authorization := getAuthHeaders localStorage;
     body := Some (JSON_stringify (JObj [("content", JStr content)])) |}.

Definition createComment `{Collaborators} (db : DB) (localStorage : gmap string string)
    (content : string) :=
  call db (createComment_request localStorage content).

(** The request [api.register] sends; the function named auth receives it
    under [/auth/register]. *)
Definition register_request (email password name : string) : Event :=
  {| httpMethod := "POST";
     authorization := None;
     body := Some (JSON_stringify
               (JObj [("email", JStr email); ("password", JStr password);
                      ("name", JStr name)])) |}.

Definition register `{Collaborators} (db : DB) (email password name : string)
    : result jsval :=
  handleResponse (Auth.handler db (register_request email password name)).

(** [process.env.NEXT_PUBLIC_API_URL || '/.netlify/functions'] *)
Definition API_BASE_URL (NEXT_PUBLIC_API_URL : option string) : string :=
  match NEXT_PUBLIC_API_URL with
  | Some s => if String.eqb s "" then "/.netlify/functions" else s
  | None => "/.netlify/functions"
  end.

(** [path.startsWith('http') ? path : `${API_BASE_URL}/uploads/${path}`] *)
Definition getImageUrl (NEXT_PUBLIC_API_URL : option string) (path : string) : string :=
  match strip_prefix "http" path with
  | Some _ => path
  | None => API_BASE_URL NEXT_PUBLIC_API_URL +:+ "/uploads/" +:+ path
  end.

End Api.

(** ** src/components/App.tsx *)

Module App.

(** [s.split(',')] *)
Fixpoint split_comma (s : string) : list string :=
  match s with
  | EmptyString => [""]
  | String c rest =>
      if Ascii.eqb c "," then "" :: split_comma rest
      else
        match split_comma rest with
        | x :: xs => String c x :: xs
        | [] => [String c ""]
        end
  end.

(** [trim] removes white space and line terminators.  Text is kept as
    UTF-8 bytes, as the parser above keeps it, so such a character is one,
    two or three bytes.  Of one byte: tab, line feed, vertical tab, form
    feed, carriage return, space. *)
Definition space1 (c : ascii) : bool :=
  let n := nat_of_ascii c in
  ((9 <=? n) && (n <=? 13))%nat || (n =? 32)%nat.

(** U+00A0. *)
Definition space2 (a b : ascii) : bool :=
  ((nat_of_ascii a =? 194) && (nat_of_ascii b =? 160))%nat.

(** U+1680, U+2000..U+200A, U+2028, U+2029, U+202F, U+205F, U+3000, U+FEFF. *)
Definition space3 (a b c : ascii) : bool :=
  let x := nat_of_ascii a in
  let y := nat_of_ascii b in
  let z := nat_of_ascii c in
  (((x =? 225) && (y =? 154) && (z =? 128))
   || ((x =? 226) && (y =? 128)
       && (((128 <=? z) && (z <=? 138)) || (z =? 168) || (z =? 169) || (z =? 175)))
   || ((x =? 226) && (y =? 129) && (z =? 159))
   || ((x =? 227) && (y =? 128) && (z =? 128))
   || ((x =? 239) && (y =? 187) && (z =? 191)))%nat.

(** [s.trimStart()] *)
Fixpoint trim_start (s : string) : string :=
  match s with
  | EmptyString => s
  | String a r1 =>
      if space1 a then trim_start r1
      else
        match r1 with
        | EmptyString => s
        | String b r2 =>
            if space2 a b then trim_start r2
            else
              match r2 with
              | EmptyString => s
              | String c r3 => if space3 a b c then trim_start r3 else s
              end
        end
  end.

(** [s.trimEnd()]: cut where nothing but white space follows. *)
Fixpoint trim_end (s : string) : string :=
  match s with
  | EmptyString => s
  | String a r =>
      match trim_start s with
      | EmptyString => ""
      | _ => String a (trim_end r)
      end
  end.

(** [s.trim()] *)
Definition trim (s : string) : string := trim_end (trim_start s).

(** [tags.split(',').map(tag => tag.trim()).filter(Boolean)] *)
Definition form_tags (tags : string) : list string :=
  List.filter (fun tag => negb (String.eqb tag "")) (map trim (split_comma tags)).

(** The state of the CreatePost form. *)
Record Form : Type := {
  title : string;
  content : string;
  category : string;
  tags : string;
  isSubmitting : bool;
  error : string
}.

(** The argument of [api.createPost] in [handleSubmit]. *)
Definition submit_data (f : Form) : jsval :=
  JObj [("title", JStr (title f)); ("content", JStr (content f));
        ("category", JStr (category f));
        ("tags", JArr (map JStr (form_tags (tags f))))].

Definition failure_notice : string := "发布失败，请重试".

(** [handleSubmit] of CreatePost: the form afterwards, whether [onSuccess]
    ran, and the storage. *)
Definition handleSubmit `{Collaborators} (db : DB) (localStorage : gmap string string)
    (f : Form) : Form * bool * DB :=
  let '(answer, db') := Api.createPost db localStorage (submit_data f) in
  match answer with
  | Ok _ =>
      ({| title := ""; content := ""; category := category f; tags := "";
          isSubmitting := false; error := "" |}, true, db')
  | Throw _ =>
      ({| title := title f; content := content f; category := category f;
          tags := tags f; isSubmitting := false; error := failure_notice |}, false, db')
  end.

(** [logout] of App, on the cache. *)
Definition logout (localStorage : gmap string string) : gmap string string :=
  delete "user" (delete "token" localStorage).

(** A post as the list page holds it (interface Post): the members the
    filter reads. *)
Record Post : Type := {
  post_title : string;
  post_content : string;
  post_category : string;
  post_tags : list string          (* tag.name of each tag *)
}.

(** [s.includes(q)] *)
Fixpoint includes (s q : string) : bool :=
  match strip_prefix q s with
  | Some _ => true
  | None =>
      match s with
      | EmptyString => false
      | String _ rest => includes rest q
      end
  end.

Section Filter.
(** [String.prototype.toLowerCase] *)
Variable toLowerCase : string -> string.

Definition matchesSearch (searchQuery : string) (post : Post) : bool :=
  includes (toLowerCase (post_title post)) (toLowerCase searchQuery)
  || includes (toLowerCase (post_content post)) (toLowerCase searchQuery)
  || existsb (fun name => includes (toLowerCase name) (toLowerCase searchQuery))
       (post_tags post).

Definition matchesCategory (selectedCategory : string) (post : Post) : bool :=
  String.eqb selectedCategory "all" || String.eqb (post_category post) selectedCategory.

Definition filteredPosts (posts : list Post) (searchQuery selectedCategory : string)
    : list Post :=
  List.filter
    (fun post => matchesSearch searchQuery post && matchesCategory selectedCategory post)
    posts.
End Filter.

End App.

(** ** A concrete set of collaborators

    Tokens are the secret, a dot and the signed user id; the hash of a
    password is the password behind the prefix [bcrypt:]; ids are [id]
    followed by as many strokes as rows were inserted before.  They give
    the theorems below inputs to run on. *)

Definition demo_sign (payload : jsval) (secret : string) : string :=
  match js_get payload "userId" with
  | Ok (JStr uid) => secret +:+ "." +:+ uid
  | _ => secret +:+ "."
  end.

Definition demo_verify (token secret : string) : result jsval :=
  match strip_prefix (secret +:+ ".") token with
  | Some uid => Ok (JObj [("userId", JStr uid); ("iat", JInt 0)])
  | None => Throw JwtError
  end.

Definition demo_category_ok (c : string) : bool :=
  mem_string c ["tutorial"; "tech"; "dataset"; "code"].

Definition demo_defaults (n : N) : list (string * jsval) :=
  [("excerpt", JStr ""); ("published", JBool false); ("views", JInt 0); ("likes", JInt 0)].

Fixpoint strokes (n : nat) : string :=
  match n with
  | O => ""
  | S n' => String "'" (strokes n')
  end.

Definition demo_id (n : N) : string := "id" +:+ strokes (N.to_nat n).

#[local] Instance demo : Collaborators := {|
  jwt_sign := demo_sign;
  jwt_verify := demo_verify;
  bcrypt_compare := fun p h => String.eqb ("bcrypt:" +:+ p) h;
  env_JWT_SECRET := None;
  category_ok := demo_category_ok;
  post_defaults := demo_defaults;
  new_id := demo_id
|}.

(** ** Vocabulary of the statements *)

Definition with_authorization (ev : Event) (h : option string) : Event :=
  {| httpMethod := httpMethod ev; authorization := h; body := body ev |}.

Definition with_body (ev : Event) (b : option string) : Event :=
  {| httpMethod := httpMethod ev; authorization := authorization ev; body := b |}.

Fixpoint no_space (s : string) : bool :=
  match s with
  | EmptyString => true
  | String c rest => negb (Ascii.eqb c " ") && no_space rest
  end.

(** The request text is JSON for [{title, content, category, tags}] with
    string fields and a list of tag names. *)
Definition create_body (text title content category : string) (names : list string) : Prop :=
  exists parsed,
    JSON_parse text = Ok parsed /\
    js_get parsed "title" = Ok (JStr title) /\
    js_get parsed "content" = Ok (JStr content) /\
    js_get parsed "category" = Ok (JStr category) /\
    js_get parsed "tags" = Ok (JArr (map JStr names)).

(** An article object whose [author] has the members id, name, email and
    avatarUrl, in that order, and no other. *)
Definition author_projection (article : jsval) : Prop :=
  exists o a,
    article = JObj o /\
    assoc "author" o = Some (JObj a) /\
    keys a = ["id"; "name"; "email"; "avatarUrl"].

(** The public part of a user: the row with role and password hash
    blanked. *)
Definition public (u : UserRow) : UserRow :=
  {| u_id := u_id u; u_name := u_name u; u_email := u_email u; u_password := "";
     u_role := ""; u_avatarUrl := u_avatarUrl u |}.

(** Two storage states that differ in the roles and password hashes of
    their users at most. *)
Definition same_but_roles (db1 db2 : DB) : Prop :=
  map public (users db1) = map public (users db2) /\
  tags db1 = tags db2 /\
  posts db1 = posts db2 /\
  inserted db1 = inserted db2.

(** The [author] of an article is the object of id, name, email and
    avatarUrl with the values stored for the user [a]. *)
Definition author_is (a : UserRow) (article : jsval) : Prop :=
  exists o,
    article = JObj o /\
    assoc "author" o =
    Some (JObj [("id", JStr (u_id a)); ("name", JStr (u_name a));
                ("email", JStr (u_email a)); ("avatarUrl", nullable (u_avatarUrl a))]).

(** An article made for the post [p]: its author is the stored user that
    [p] names. *)
Definition article_of (db : DB) (p : PostRow) (article : jsval) : Prop :=
  exists a, In a (users db) /\ u_id a = p_authorId p /\ author_is a article.

Section PostsVocabulary.
Context `{Collaborators}.

(** No header, no second word in it, or a token that fails verification. *)
Definition unauthenticated (ev : Event) : Prop :=
  Posts.bearer ev = None \/
  Posts.bearer ev = Some "" \/
  exists token e,
    Posts.bearer ev = Some token /\ jwt_verify token Posts.JWT_SECRET = Throw e.

(** The request carries a token, and it verifies to a payload naming
    user [uid]. *)
Definition verified_as (ev : Event) (uid : string) : Prop :=
  exists token payload,
    Posts.bearer ev = Some token /\ token <> "" /\
    jwt_verify token Posts.JWT_SECRET = Ok payload /\
    js_get payload "userId" = Ok (JStr uid).
End PostsVocabulary.

Section StorageVocabulary.
Context `{Collaborators}.

(** Tag names and tag ids are unique, and no stored tag carries an id the
    generator has yet to hand out. *)
Definition tags_ok (ts : list TagRow) (n : N) : Prop :=
  List.NoDup (map t_name ts) /\
  List.NoDup (map t_id ts) /\
  forall t k, In t ts -> (n <= k)%N -> t_id t <> new_id k.

Definition store_ok (db : DB) : Prop := tags_ok (tags db) (inserted db).

Definition ids_never_repeat : Prop :=
  forall i j : N, new_id i = new_id j -> i = j.
End StorageVocabulary.

(** The member texts of an object, as [stringify] lays them out. *)
Fixpoint stringify_members (l : list (string * jsval)) : list string :=
  match l with
  | [] => []
  | (k, x) :: rest =>
      match stringify x with
      | Some t => (quote k +:+ ":" +:+ t) :: stringify_members rest
      | None => stringify_members rest
      end
  end.

(** A string, a boolean or [null]. *)
Definition scalar (v : jsval) : bool :=
  match v with
  | JStr _ | JBool _ | JNull => true
  | _ => false
  end.

(** An object literal with scalar members. *)
Definition flat (props : list (string * jsval)) : bool :=
  forallb (fun kv => scalar (snd kv)) props.

(** The request text is JSON for [{email, password, action: "login"}]. *)
Definition login_body (text email password : string) : Prop :=
  exists parsed,
    JSON_parse text = Ok parsed /\
    js_get parsed "email" = Ok (JStr email) /\
    js_get parsed "password" = Ok (JStr password) /\
    js_get parsed "action" = Ok (JStr "login").

Definition emails_unique (db : DB) : Prop := List.NoDup (map u_email (users db)).

Section AuthVocabulary.
Context `{Collaborators}.

(** jsonwebtoken: a token signed for [uid] verifies, under the secret it
    was signed with, to a payload that names [uid]. *)
Definition sign_verify_roundtrip (uid : string) : Prop :=
  exists payload,
    jwt_verify (jwt_sign (JObj [("userId", JStr uid)]) Auth.JWT_SECRET) Auth.JWT_SECRET
    = Ok payload /\
    js_get payload "userId" = Ok (JStr uid).
End AuthVocabulary.

Definition invalid_credentials_response : Response :=
  {| statusCode := 401; resp_body := JSON_stringify (message "Invalid credentials") |}.

Definition invalid_action_response : Response :=
  {| statusCode := 400; resp_body := JSON_stringify (message "Invalid action") |}.

(** The identity projection of a login reply. *)
Definition identity_object (u : UserRow) : jsval :=
  JObj [("id", JStr (u_id u)); ("name", JStr (u_name u)); ("email", JStr (u_email u));
        ("role", JStr (u_role u)); ("avatarUrl", nullable (u_avatarUrl u))].

Definition redact (u : UserRow) : UserRow :=
  {| u_id := u_id u; u_name := u_name u; u_email := u_email u; u_password := "";
     u_role := u_role u; u_avatarUrl := u_avatarUrl u |}.

(** Two storage states that differ in stored password hashes at most. *)
Definition same_but_passwords (db1 db2 : DB) : Prop :=
  map redact (users db1) = map redact (users db2) /\
  tags db1 = tags db2 /\
  posts db1 = posts db2 /\
  inserted db1 = inserted db2.

(** The rank of a role name in the table of [hasPermission]. *)
Definition roleRank (role : string) : option Z := Api.rank_of role Api.roles.

(** A property name that every object literal inherits. *)
Definition inherited_name (k : string) : bool :=
  match Api.inherited k with
  | Some _ => true
  | None => false
  end.

Definition unauthorized_response : Response :=
  {| statusCode := 401; resp_body := JSON_stringify (message "Unauthorized") |}.

Definition method_not_allowed_response : Response :=
  {| statusCode := 405; resp_body := JSON_stringify (message "Method not allowed") |}.

Section RunVocabulary.
Context `{Collaborators}.

(** The storage after the posts function has served the requests, one
    after the other. *)
Fixpoint serve (db : DB) (evs : list Event) : DB :=
  match evs with
  | [] => db
  | ev :: rest => serve (snd (Posts.handler db ev)) rest
  end.

(** The status codes it answered with. *)
Fixpoint statuses (db : DB) (evs : list Event) : list Z :=
  match evs with
  | [] => []
  | ev :: rest =>
      statusCode (fst (Posts.handler db ev)) :: statuses (snd (Posts.handler db ev)) rest
  end.

(** Post ids are unique, and no stored post carries an id the generator
    has yet to hand out. *)
Definition posts_ok (db : DB) : Prop :=
  List.NoDup (map p_id (posts db)) /\
  forall p k, In p (posts db) -> (inserted db <= k)%N -> p_id p <> new_id k.
End RunVocabulary.

(** Every post names a stored user as its author. *)
Definition authors_exist (db : DB) : Prop :=
  forall p, In p (posts db) -> find_user_by_id db (p_authorId p) <> None.

(** Every tag id a post carries is the id of a stored tag. *)
Definition tag_links_exist (db : DB) : Prop :=
  forall p id, In p (posts db) -> In id (p_tags p) ->
    exists t, In t (tags db) /\ t_id t = id.

(** The text holds no comma. *)
Fixpoint no_comma (s : string) : bool :=
  match s with
  | EmptyString => true
  | String c rest => negb (Ascii.eqb c ",") && no_comma rest
  end.


(** A tag name as the form should send it: not empty, without a comma,
    and with no white space at either end. *)
Definition clean_tag (x : string) : Prop :=
  x <> "" /\ no_comma x = true /\ App.trim x = x.

Definition internal_error_response : Response :=
  {| statusCode := 500; resp_body := JSON_stringify (message "Internal server error") |}.

(** A value that has no text: an object with an own member [toString],
    or an array that holds such a value.  Converting it to a string, or to
    a property key, throws. *)
Fixpoint no_string_form (v : jsval) : bool :=
  match v with
  | JObj props =>
      match assoc "toString" props with
      | Some _ => true
      | None => false
      end
  | JArr items => existsb no_string_form items
  | _ => false
  end.

(** ** Sample storage, requests and caches *)

Definition alice : UserRow :=
  {| u_id := "u1"; u_name := "Alice"; u_email := "alice@lab.org";
     u_password := "bcrypt:wonderland"; u_role := "teacher"; u_avatarUrl := None |}.

Definition bob : UserRow :=
  {| u_id := "u2"; u_name := "Bob"; u_email := "bob@lab.org";
     u_password := "bcrypt:builder"; u_role := "student";
     u_avatarUrl := Some "/uploads/bob.png" |}.

Definition db0 : DB :=
  {| users := [alice; bob]; tags := []; posts := []; inserted := 0%N |}.

(** [db0] with another hash stored for Bob. *)
Definition db0_rehashed : DB :=
  {| users := [alice;
               {| u_id := "u2"; u_name := "Bob"; u_email := "bob@lab.org";
                  u_password := "bcrypt:wrecker"; u_role := "student";
                  u_avatarUrl := Some "/uploads/bob.png" |}];
     tags := []; posts := []; inserted := 0%N |}.

Definition store_of (l : list (string * string)) : gmap string string :=
  list_to_map l.

(** The cache after Alice logged in. *)
Definition cache_teacher : gmap string string :=
  store_of [("token", "your-secret-key.u1");
            ("user", JSON_stringify (JObj [("id", JStr "u1"); ("role", JStr "teacher")]))].

Definition cache_bob : gmap string string :=
  store_of [("token", "your-secret-key.u2")].

Definition cache_corrupt : gmap string string :=
  store_of [("token", "your-secret-key.u1"); ("user", "{oops")].

Definition cache_inherited : gmap string string :=
  store_of [("user", JSON_stringify (JObj [("id", JStr "u9"); ("role", JStr "toString")]))].

(** The data of a create request, and its JSON text. *)
Definition create_data (tags : list string) (more : list (string * jsval)) : jsval :=
  JObj ([("title", JStr "T"); ("content", JStr "C"); ("category", JStr "tech");
         ("tags", JArr (map JStr tags))] ++ more).

Definition create_text (tags : list string) (more : list (string * jsval)) : string :=
  JSON_stringify (create_data tags more).

Definition ev_delete_anonymous : Event :=
  {| httpMethod := "DELETE"; authorization := None; body := None |}.

(** A DELETE that carries Alice's token. *)
Definition ev_delete_alice : Event :=
  {| httpMethod := "DELETE"; authorization := Some "Bearer your-secret-key.u1";
     body := None |}.

Definition ev_create_anonymous : Event :=
  {| httpMethod := "POST"; authorization := None; body := Some (create_text [] []) |}.

(** What [api.createPost] sends for Alice, whose token is cached. *)
Definition ev_create_alice : Event :=
  Api.createPost_request cache_teacher (create_data ["a"; "a"; "b"] []).

(** The same request with a body that names Bob as the author. *)
Definition ev_create_alice_forged : Event :=
  with_body ev_create_alice
    (Some (create_text ["a"; "a"; "b"]
             [("author", JObj [("id", JStr "u2")]); ("authorId", JStr "u2")])).

(** A later create of Alice that uses the tag a again. *)
Definition ev_create_again : Event :=
  Api.createPost_request cache_teacher (create_data ["a"] []).

Definition ev_create_bob : Event :=
  Api.createPost_request cache_bob (create_data ["b"] []).

(** The JSON text of a login request that names its action. *)
Definition login_text (email password : string) : string :=
  JSON_stringify
    (JObj [("email", JStr email); ("password", JStr password); ("action", JStr "login")]).

Definition ev_login_alice : Event :=
  {| httpMethod := "POST"; authorization := None;
     body := Some (login_text "alice@lab.org" "wonderland") |}.

Definition ev_login_wrong_password : Event :=
  {| httpMethod := "POST"; authorization := None;
     body := Some (login_text "alice@lab.org" "queen") |}.

Definition ev_list : Event :=
  {| httpMethod := "GET"; authorization := None; body := None |}.

(** The requests of a short session: Alice publishes, the list is read,
    Alice publishes again, and somebody tries a DELETE. *)
Definition session : list Event :=
  [ev_create_alice; ev_list; ev_create_again; ev_delete_alice].

(** A cache without entries. *)
Definition cache_empty : gmap string string := store_of [].

(** The form as Alice filled it in. *)
Definition form_alice : App.Form :=
  {| App.title := "Proofs"; App.content := "By induction.";
     App.category := "tech"; App.tags := " rocq , logic ,,";
     App.isSubmitting := false; App.error := "" |}.

(** [toLowerCase] on text in the ASCII range. *)
Definition lower_ascii (c : ascii) : ascii :=
  let n := nat_of_ascii c in
  if ((65 <=? n) && (n <=? 90))%nat then ascii_of_nat (n + 32) else c.

Fixpoint lower (s : string) : string :=
  match s with
  | EmptyString => ""
  | String c rest => String (lower_ascii c) (lower rest)
  end.

Definition page : list App.Post :=
  [{| App.post_title := "Proofs in Rocq"; App.post_content := "By induction.";
      App.post_category := "tech"; App.post_tags := ["rocq"; "logic"] |};
   {| App.post_title := "Lab rules"; App.post_content := "Be kind.";
      App.post_category := "tutorial"; App.post_tags := [] |}].

(** A create of Alice whose body is cut short. *)
Definition ev_create_broken : Event :=
  {| httpMethod := "POST"; authorization := Some "Bearer your-secret-key.u1";
     body := Some "{oops" |}.

(** A cached user whose role is an object with a member toString. *)
Definition cache_shadowed : gmap string string :=
  store_of [("user", JSON_stringify
                       (JObj [("role", JObj [("toString", JInt 1)])]))].

(** [db0] with Alice made an administrator. *)
Definition db0_promoted : DB :=
  {| users := [{| u_id := "u1"; u_name := "Alice"; u_email := "alice@lab.org";
                  u_password := "bcrypt:wonderland"; u_role := "admin";
                  u_avatarUrl := None |};
               bob];
     tags := []; posts := []; inserted := 0%N |}.

(** A GET that carries a header without a valid token, and a body. *)
Definition ev_list_noisy : Event :=
  {| httpMethod := "GET"; authorization := Some "Bearer garbage"; body := Some "{oops" |}.

(** * Properties *)

(** ** The exception monad *)

Lemma rbind_Ok_inv {A B : Type} (m : result A) (k : A -> result B) (b : B) :
  rbind m k = Ok b -> exists a, m = Ok a /\ k a = Ok b.
Proof. destruct m as [a|e]; simpl; intros E; [eauto | discriminate]. Qed.

Lemma js_get_string_truthy (v : jsval) (k s : string) :
  js_get v k = Ok (JStr s) -> truthy v = true.
Proof. destruct v; simpl; intros E; try discriminate; reflexivity. Qed.

(** ** The recursion budget of the parser *)

Lemma skip_ws_length (s : string) :
  (String.length (skip_ws s) <= String.length s)%nat.
Proof.
  induction s as [|c s IH]; simpl; [lia|]. destruct (is_ws c); simpl; lia.
Qed.

Lemma starts_length (c : ascii) (s r : string) :
  starts c s = Some r -> String.length s = S (String.length r).
Proof.
  destruct s as [|c' s]; simpl; [discriminate|].
  destruct (Ascii.eqb c c'); [|discriminate]. intros E. injection E as ->. reflexivity.
Qed.

Lemma starts_skip_length (c : ascii) (s r : string) :
  starts c (skip_ws s) = Some r -> (String.length r < String.length s)%nat.
Proof.
  intros E. apply starts_length in E. pose proof (skip_ws_length s). lia.
Qed.

Lemma strip_prefix_length (p s r : string) :
  strip_prefix p s = Some r ->
  String.length s = (String.length p + String.length r)%nat.
Proof.
  revert s. induction p as [|a p IH]; intros s; simpl.
  - intros E. injection E as ->. reflexivity.
  - destruct s as [|b s]; [discriminate|]. destruct (Ascii.eqb a b); [|discriminate].
    intros E. simpl. rewrite (IH _ E). reflexivity.
Qed.

(** A branch in which the parser has already failed. *)
Ltac failed_parse := split; [discriminate | intros ? ? ?; discriminate].

Lemma parse_chars_bounded (n : nat) :
  forall s, (String.length s <= n)%nat ->
    parse_chars s <> PFuel /\
    forall t r, parse_chars s = POk t r -> (String.length r < String.length s)%nat.
Proof.
  induction n as [|n IH]; intros s L.
  - destruct s; [|simpl in L; lia]. failed_parse.
  - destruct s as [|c rest]; [failed_parse|].
    simpl in L. cbn [parse_chars].
    destruct (Ascii.eqb c "034").
    { split; [discriminate|]. intros t r E. injection E as _ <-. simpl. lia. }
    destruct (Ascii.eqb c "\").
    + destruct rest as [|e rest']; [failed_parse|].
      simpl in L. destruct (Ascii.eqb e "u").
      * destruct rest' as [|h1 [|h2 [|h3 [|h4 rest'']]]];
          try failed_parse.
        simpl in L.
        destruct (hex_val h1), (hex_val h2), (hex_val h3), (hex_val h4);
          try failed_parse.
        destruct (IH rest'' ltac:(lia)) as [NF Sh].
        destruct (parse_chars rest'') as [t0 r0| |]; [| |contradiction].
        -- split; [discriminate|]. intros t r E. injection E as _ <-.
           specialize (Sh _ _ eq_refl). simpl. lia.
        -- failed_parse.
      * destruct (simple_escape e); [|failed_parse].
        destruct (IH rest' ltac:(lia)) as [NF Sh].
        destruct (parse_chars rest') as [t0 r0| |]; [| |contradiction].
        -- split; [discriminate|]. intros t r E. injection E as _ <-.
           specialize (Sh _ _ eq_refl). simpl. lia.
        -- failed_parse.
    + destruct (nat_of_ascii c <? 32)%nat;
        [failed_parse|].
      destruct (IH rest ltac:(lia)) as [NF Sh].
      destruct (parse_chars rest) as [t0 r0| |]; [| |contradiction].
      * split; [discriminate|]. intros t r E. injection E as _ <-.
        specialize (Sh _ _ eq_refl). simpl. lia.
      * failed_parse.
Qed.

Lemma parse_chars_no_fuel (s : string) : parse_chars s <> PFuel.
Proof. apply (parse_chars_bounded (String.length s) s). lia. Qed.

Lemma parse_chars_shorter (s t r : string) :
  parse_chars s = POk t r -> (String.length r < String.length s)%nat.
Proof. apply (parse_chars_bounded (String.length s) s). lia. Qed.

Lemma take_digits_length (s : string) :
  forall acc cnt v c r,
    take_digits s acc cnt = (v, c, r) ->
    (String.length r <= String.length s)%nat /\
    cnt <= c /\
    (cnt < c -> (String.length r < String.length s)%nat).
Proof.
  induction s as [|a s IH]; intros acc cnt v c r; simpl.
  - intros E. injection E as _ <- <-. simpl. lia.
  - destruct (digit_val a).
    + intros E. apply IH in E as (L & C & _). simpl. lia.
    + intros E. injection E as _ <- <-. simpl. lia.
Qed.

Lemma parse_number_shorter (s : string) (v : jsval) (r : string) :
  parse_number s = POk v r -> (String.length r < String.length s)%nat.
Proof.
  unfold parse_number.
  assert (forall s1 i s2, parse_int_part s1 = Some (i, s2) ->
            (String.length s2 < String.length s1)%nat) as Int.
  { intros s1 i s2. unfold parse_int_part.
    destruct (starts "0" s1) as [r0|] eqn:Z0.
    - intros E. injection E as _ <-. apply starts_length in Z0. lia.
    - destruct (take_digits s1 0 0) as [[v0 c0] r0] eqn:T.
      destruct (Z.eqb_spec c0 0); [discriminate|]. intros E. injection E as _ <-.
      apply take_digits_length in T as (_ & C & Lt). apply Lt. lia. }
  assert (forall m s2 m' fd s3, parse_frac_part m s2 = Some (m', fd, s3) ->
            (String.length s3 <= String.length s2)%nat) as Frac.
  { intros m s2 m' fd s3. unfold parse_frac_part.
    destruct (starts "." s2) as [r0|] eqn:D.
    - destruct (take_digits r0 m 0) as [[v0 c0] r1] eqn:T.
      destruct (c0 =? 0); [discriminate|]. intros E. injection E as _ _ <-.
      apply take_digits_length in T as (L & _). apply starts_length in D. lia.
    - intros E. injection E as _ _ <-. lia. }
  assert (forall sg s3 x s4, parse_exp_digits sg s3 = Some (x, s4) ->
            (String.length s4 <= String.length s3)%nat) as Dig.
  { intros sg s3 x s4. unfold parse_exp_digits.
    destruct (take_digits s3 0 0) as [[v0 c0] r1] eqn:T.
    destruct (c0 =? 0); [discriminate|]. intros E. injection E as _ <-.
    apply take_digits_length in T as (L & _). exact L. }
  assert (forall s3 x s4, parse_exp_sign s3 = Some (x, s4) ->
            (String.length s4 <= String.length s3)%nat) as Sign.
  { intros s3 x s4. unfold parse_exp_sign.
    destruct (starts "-" s3) as [r0|] eqn:M; [|destruct (starts "+" s3) as [r0|] eqn:P].
    - intros E. apply Dig in E. apply starts_length in M. lia.
    - intros E. apply Dig in E. apply starts_length in P. lia.
    - apply Dig. }
  assert (forall s3 x s4, parse_exp_part s3 = Some (x, s4) ->
            (String.length s4 <= String.length s3)%nat) as Exp.
  { intros s3 x s4. unfold parse_exp_part.
    destruct (starts "e" s3) as [r0|] eqn:M; [|destruct (starts "E" s3) as [r0|] eqn:P].
    - intros E. apply Sign in E. apply starts_length in M. lia.
    - intros E. apply Sign in E. apply starts_length in P. lia.
    - intros E. injection E as _ <-. lia. }
  destruct (starts "-" s) as [s1|] eqn:M.
  - destruct (parse_int_part s1) as [[i s2]|] eqn:Ei; [|discriminate].
    destruct (parse_frac_part i s2) as [[[m fd] s3]|] eqn:Ef; [|discriminate].
    destruct (parse_exp_part s3) as [[x s4]|] eqn:Ee; [|discriminate].
    intros E. injection E as _ <-.
    apply Int in Ei. apply Frac in Ef. apply Exp in Ee. apply starts_length in M. lia.
  - destruct (parse_int_part s) as [[i s2]|] eqn:Ei; [|discriminate].
    destruct (parse_frac_part i s2) as [[[m fd] s3]|] eqn:Ef; [|discriminate].
    destruct (parse_exp_part s3) as [[x s4]|] eqn:Ee; [|discriminate].
    intros E. injection E as _ <-.
    apply Int in Ei. apply Frac in Ef. apply Exp in Ee. lia.
Qed.

Lemma parse_number_no_fuel (s : string) : parse_number s <> PFuel.
Proof.
  unfold parse_number. destruct (starts "-" s) as [s1|];
    (destruct (parse_int_part _) as [[i s2]|]; [|discriminate];
     destruct (parse_frac_part i s2) as [[[m fd] s3]|]; [|discriminate];
     destruct (parse_exp_part s3) as [[x s4]|]; discriminate).
Qed.

Lemma parse_literal_shorter (s : string) (v : jsval) (r : string) :
  parse_literal s = POk v r -> (String.length r < String.length s)%nat.
Proof.
  unfold parse_literal.
  destruct (strip_prefix "true" s) as [r0|] eqn:T.
  { intros E. injection E as _ <-. apply strip_prefix_length in T. simpl in T. lia. }
  destruct (strip_prefix "false" s) as [r0|] eqn:F.
  { intros E. injection E as _ <-. apply strip_prefix_length in F. simpl in F. lia. }
  destruct (strip_prefix "null" s) as [r0|] eqn:N.
  { intros E. injection E as _ <-. apply strip_prefix_length in N. simpl in N. lia. }
  apply parse_number_shorter.
Qed.

Lemma parse_literal_no_fuel (s : string) : parse_literal s <> PFuel.
Proof.
  unfold parse_literal.
  destruct (strip_prefix "true" s); [discriminate|].
  destruct (strip_prefix "false" s); [discriminate|].
  destruct (strip_prefix "null" s); [discriminate|].
  apply parse_number_no_fuel.
Qed.

(** A successful parse consumes at least one character. *)
Lemma parse_shorter (fuel : nat) :
  (forall s v r, parse_value fuel s = POk v r ->
     (String.length r < String.length s)%nat) /\
  (forall s l r, parse_elements fuel s = POk l r ->
     (String.length r < String.length s)%nat) /\
  (forall s acc l r, parse_members fuel s acc = POk l r ->
     (String.length r < String.length s)%nat).
Proof.
  induction fuel as [|f (IHv & IHe & IHm)].
  { repeat split; intros; discriminate. }
  split; [|split].
  - intros s v r. cbn [parse_value].
    destruct (starts "[" (skip_ws s)) as [r0|] eqn:A.
    { apply starts_skip_length in A.
      destruct (starts "]" (skip_ws r0)) as [r1|] eqn:B.
      - intros E. injection E as _ <-. apply starts_skip_length in B. lia.
      - destruct (parse_elements f r0) as [l r1| |] eqn:E0; try discriminate.
        intros E. injection E as _ <-. apply IHe in E0. lia. }
    destruct (starts "{" (skip_ws s)) as [r0|] eqn:O.
    { apply starts_skip_length in O.
      destruct (starts "}" (skip_ws r0)) as [r1|] eqn:B.
      - intros E. injection E as _ <-. apply starts_skip_length in B. lia.
      - destruct (parse_members f r0 []) as [l r1| |] eqn:E0; try discriminate.
        intros E. injection E as _ <-. apply IHm in E0. lia. }
    destruct (starts "034" (skip_ws s)) as [r0|] eqn:Q.
    { apply starts_skip_length in Q.
      destruct (parse_chars r0) as [t r1| |] eqn:E0; try discriminate.
      intros E. injection E as _ <-. apply parse_chars_shorter in E0. lia. }
    intros E. apply parse_literal_shorter in E. pose proof (skip_ws_length s). lia.
  - intros s l r. cbn [parse_elements].
    destruct (parse_value f s) as [v r0| |] eqn:E0; try discriminate.
    apply IHv in E0.
    destruct (starts "," (skip_ws r0)) as [r1|] eqn:C.
    { apply starts_skip_length in C.
      destruct (parse_elements f r1) as [l1 r2| |] eqn:E1; try discriminate.
      intros E. injection E as _ <-. apply IHe in E1. lia. }
    destruct (starts "]" (skip_ws r0)) as [r1|] eqn:B; [|discriminate].
    intros E. injection E as _ <-. apply starts_skip_length in B. lia.
  - intros s acc l r. cbn [parse_members].
    destruct (starts "034" (skip_ws s)) as [r0|] eqn:Q; [|discriminate].
    apply starts_skip_length in Q.
    destruct (parse_chars r0) as [k r1| |] eqn:E0; try discriminate.
    apply parse_chars_shorter in E0.
    destruct (starts ":" (skip_ws r1)) as [r2|] eqn:C; [|discriminate].
    apply starts_skip_length in C.
    destruct (parse_value f r2) as [v r3| |] eqn:E1; try discriminate.
    apply IHv in E1.
    destruct (starts "," (skip_ws r3)) as [r4|] eqn:D.
    { apply starts_skip_length in D. intros E. apply IHm in E. lia. }
    destruct (starts "}" (skip_ws r3)) as [r4|] eqn:B; [|discriminate].
    intros E. injection E as _ <-. apply starts_skip_length in B. lia.
Qed.

(** Twice the length of the text, and two more, is budget enough. *)
Lemma parse_no_fuel (fuel : nat) :
  (forall s, (2 * String.length s + 1 <= fuel)%nat -> parse_value fuel s <> PFuel) /\
  (forall s, (2 * String.length s + 2 <= fuel)%nat -> parse_elements fuel s <> PFuel) /\
  (forall s acc, (2 * String.length s + 2 <= fuel)%nat ->
     parse_members fuel s acc <> PFuel).
Proof.
  induction fuel as [|f (IHv & IHe & IHm)].
  { repeat split; intros; lia. }
  destruct (parse_shorter f) as (Sv & Se & Sm).
  split; [|split].
  - intros s L. cbn [parse_value].
    destruct (starts "[" (skip_ws s)) as [r0|] eqn:A.
    { apply starts_skip_length in A.
      destruct (starts "]" (skip_ws r0)) as [r1|]; [discriminate|].
      pose proof (IHe r0 ltac:(lia)).
      destruct (parse_elements f r0); [discriminate | discriminate | contradiction]. }
    destruct (starts "{" (skip_ws s)) as [r0|] eqn:O.
    { apply starts_skip_length in O.
      destruct (starts "}" (skip_ws r0)) as [r1|]; [discriminate|].
      pose proof (IHm r0 [] ltac:(lia)).
      destruct (parse_members f r0 []); [discriminate | discriminate | contradiction]. }
    destruct (starts "034" (skip_ws s)) as [r0|].
    { pose proof (parse_chars_no_fuel r0).
      destruct (parse_chars r0); [discriminate | discriminate | contradiction]. }
    apply parse_literal_no_fuel.
  - intros s L. cbn [parse_elements].
    pose proof (IHv s ltac:(lia)) as NF.
    destruct (parse_value f s) as [v r0| |] eqn:E0; [|discriminate|contradiction].
    apply Sv in E0.
    destruct (starts "," (skip_ws r0)) as [r1|] eqn:C.
    { apply starts_skip_length in C. pose proof (IHe r1 ltac:(lia)).
      destruct (parse_elements f r1); [discriminate | discriminate | contradiction]. }
    destruct (starts "]" (skip_ws r0)); discriminate.
  - intros s acc L. cbn [parse_members].
    destruct (starts "034" (skip_ws s)) as [r0|] eqn:Q; [|discriminate].
    apply starts_skip_length in Q.
    pose proof (parse_chars_no_fuel r0) as NC.
    destruct (parse_chars r0) as [k r1| |] eqn:E0; [|discriminate|contradiction].
    apply parse_chars_shorter in E0.
    destruct (starts ":" (skip_ws r1)) as [r2|] eqn:C; [|discriminate].
    apply starts_skip_length in C.
    pose proof (IHv r2 ltac:(lia)) as NF.
    destruct (parse_value f r2) as [v r3| |] eqn:E1; [|discriminate|contradiction].
    apply Sv in E1.
    destruct (starts "," (skip_ws r3)) as [r4|] eqn:D.
    { apply starts_skip_length in D. apply IHm. lia. }
    destruct (starts "}" (skip_ws r3)); discriminate.
Qed.

(** [JSON_parse] never gives up for lack of budget: the value it returns,
    or the [SyntaxError] it raises, is the verdict of the grammar. *)
Lemma JSON_parse_budget (text : string) :
  parse_value (2 * String.length text + 2) text <> PFuel.
Proof. apply parse_no_fuel. lia. Qed.

(** ** JSON text of strings *)

Lemma append_String (c : ascii) (s t : string) :
  String c s +:+ t = String c (s +:+ t).
Proof. reflexivity. Qed.

Lemma append_assoc (s t u : string) : (s +:+ t) +:+ u = s +:+ (t +:+ u).
Proof. induction s as [|c s IH]; cbv [String.append]; [reflexivity|]. fold String.append. rewrite IH. reflexivity. Qed.

Lemma parse_chars_quote_char (c : ascii) (tail : string) :
  parse_chars (quote_char c +:+ tail) =
  match parse_chars tail with
  | POk t r => POk (String c t) r
  | other => other
  end.
Proof. destruct c as [[] [] [] [] [] [] [] []]; reflexivity. Qed.

(** Reading back a quoted string gives the string. *)
Lemma parse_chars_quote_body (s rest : string) :
  parse_chars (quote_body s +:+ String "034" rest) = POk s rest.
Proof.
  induction s as [|c s IH].
  - reflexivity.
  - cbn [quote_body]. rewrite append_assoc, parse_chars_quote_char, IH. reflexivity.
Qed.

(** ** JSON text of flat objects *)

Lemma stringify_JObj (props : list (string * jsval)) :
  stringify (JObj props) = Some ("{" +:+ join "," (stringify_members props) +:+ "}").
Proof. reflexivity. Qed.

Lemma quote_append (s tail : string) :
  quote s +:+ tail = String "034" (quote_body s +:+ String "034" tail).
Proof. unfold quote. rewrite append_String, append_assoc. reflexivity. Qed.

Lemma parse_value_string (f : nat) (text : string) :
  parse_value (S f) (String "034" text) =
  match parse_chars text with
  | POk t r => POk (JStr t) r
  | PErr => PErr
  | PFuel => PFuel
  end.
Proof. reflexivity. Qed.

Lemma parse_value_scalar (f : nat) (v : jsval) (t tail : string) :
  scalar v = true -> stringify v = Some t ->
  parse_value (S f) (t +:+ tail) = POk v tail.
Proof.
  destruct v as [| |[|]| |s| |]; try discriminate; intros _ E; injection E as <-.
  - reflexivity.
  - reflexivity.
  - reflexivity.
  - rewrite quote_append, parse_value_string, parse_chars_quote_body. reflexivity.
Qed.

Lemma parse_members_quoted (f : nat) (text : string) (acc : list (string * jsval)) :
  parse_members (S f) (String "034" text) acc =
  match parse_chars text with
  | POk k r1 =>
      match starts ":" (skip_ws r1) with
      | Some r2 =>
          match parse_value f r2 with
          | POk v r3 =>
              match starts "," (skip_ws r3), starts "}" (skip_ws r3) with
              | Some r4, _ => parse_members f r4 (obj_set acc k v)
              | None, Some r4 => POk (obj_set acc k v) r4
              | None, None => PErr
              end
          | PErr => PErr
          | PFuel => PFuel
          end
      | None => PErr
      end
  | PErr => PErr
  | PFuel => PFuel
  end.
Proof. reflexivity. Qed.

Lemma parse_members_member (f : nat) (k : string) (v : jsval) (t tail : string)
    (acc : list (string * jsval)) :
  scalar v = true -> stringify v = Some t ->
  parse_members (S (S f)) ((quote k +:+ ":" +:+ t) +:+ tail) acc =
  match starts "," (skip_ws tail), starts "}" (skip_ws tail) with
  | Some r, _ => parse_members (S f) r (obj_set acc k v)
  | None, Some r => POk (obj_set acc k v) r
  | None, None => PErr
  end.
Proof.
  intros Sc St. rewrite !append_assoc, quote_append.
  rewrite parse_members_quoted, parse_chars_quote_body.
  change (":" +:+ ?x) with (String ":" x).
  change (starts ":" (skip_ws (String ":" ?x))) with (Some x). cbv iota beta.
  rewrite (parse_value_scalar f v t tail Sc St). reflexivity.
Qed.

Lemma join_cons (sep x : string) (l : list string) :
  l <> [] -> join sep (x :: l) = x +:+ sep +:+ join sep l.
Proof. destruct l; [contradiction | reflexivity]. Qed.

Lemma stringify_members_flat (props : list (string * jsval)) :
  flat props = true ->
  length (stringify_members props) = length props /\
  Forall (fun m => exists x, m = String "034" x) (stringify_members props).
Proof.
  induction props as [|[k v] props IH]; simpl; intros F; [split; [reflexivity | constructor]|].
  apply andb_prop in F as [Sv F]. destruct (IH F) as [L Q].
  destruct v as [| |[|]| |s| |]; try discriminate; simpl; rewrite L;
    (split; [reflexivity|]); constructor; auto;
    rewrite quote_append; eauto.
Qed.

(** The members of a flat object, read back one after the other. *)
Lemma parse_members_flat (props : list (string * jsval)) :
  forall (f : nat) (acc : list (string * jsval)) (rest : string),
    flat props = true -> props <> [] -> (length props <= f)%nat ->
    parse_members (S f) (join "," (stringify_members props) +:+ String "}" rest) acc
    = POk (fold_left (fun o kv => obj_set o (fst kv) (snd kv)) props acc) rest.
Proof.
  induction props as [|[k v] props IH]; intros f acc rest F N L; [contradiction|].
  simpl in F. apply andb_prop in F as [Sv F].
  assert (exists t, stringify v = Some t) as [t St].
  { destruct v as [| |[|]| |s| |]; try discriminate; simpl; eauto. }
  destruct f as [|f]; [simpl in L; lia|].
  cbn [stringify_members]. rewrite St.
  destruct props as [|p props].
  - cbn [stringify_members join].
    rewrite (parse_members_member f k v t (String "}" rest) acc Sv St). reflexivity.
  - destruct (stringify_members_flat (p :: props) F) as [Len Q].
    rewrite join_cons by (intros E; rewrite E in Len; discriminate).
    rewrite (append_assoc _ _ (String "}" rest)).
    rewrite (parse_members_member f k v t _ acc Sv St).
    rewrite append_assoc.
    change ("," +:+ ?x) with (String "," x).
    change (starts "," (skip_ws (String "," ?x))) with (Some x). cbv iota beta.
    rewrite IH; [reflexivity | exact F | discriminate | simpl in *; lia].
Qed.

Lemma length_append (s t : string) :
  String.length (s +:+ t) = (String.length s + String.length t)%nat.
Proof.
  induction s as [|c s IH]; [reflexivity|].
  rewrite append_String. cbn [String.length]. rewrite IH. reflexivity.
Qed.

Lemma length_join (sep : string) (ms : list string) :
  Forall (fun m => exists x, m = String "034" x) ms ->
  (length ms <= String.length (join sep ms))%nat.
Proof.
  induction 1 as [|m ms [x ->] _ IH]; [simpl; lia|].
  destruct ms as [|m' ms].
  - simpl. lia.
  - rewrite join_cons by discriminate. rewrite !length_append.
    cbn [String.length length] in *. lia.
Qed.

Lemma parse_value_object (f : nat) (text : string) :
  parse_value (S f) (String "{" (String "034" text)) =
  match parse_members f (String "034" text) [] with
  | POk l r => POk (JObj l) r
  | PErr => PErr
  | PFuel => PFuel
  end.
Proof. reflexivity. Qed.

(** [JSON.parse(JSON.stringify(o))] gives [o] back for an object literal
    with scalar members. *)
Lemma parse_stringify_flat (props : list (string * jsval)) :
  flat props = true -> props <> [] ->
  JSON_parse (JSON_stringify (JObj props)) = Ok (JObj (obj_of props)).
Proof.
  intros F N. unfold JSON_stringify. rewrite stringify_JObj.
  destruct (stringify_members_flat props F) as [Len Q].
  pose proof (length_join "," _ Q) as LJ.
  pose proof (parse_members_flat props) as PM.
  destruct (stringify_members props) as [|m ms] eqn:Ms.
  { destruct props; [contradiction | discriminate]. }
  inversion Q as [|? ? [x ->] _]; subst.
  unfold JSON_parse.
  set (text := "{" +:+ join "," (String "034" x :: ms) +:+ "}") in *.
  assert (exists y, text = String "{" (String "034" y) /\
                    String "034" y = join "," (String "034" x :: ms) +:+ String "}" "")
    as (y & Et & Ey).
  { destruct ms; eexists; split; reflexivity. }
  assert (exists f, (2 * String.length text + 2 = S (S f))%nat /\ (length props <= f)%nat)
    as (f & Ef & Lf).
  { exists (2 * String.length text)%nat. split; [lia|].
    subst text. change ("{" +:+ ?z) with (String "{" z). cbn [String.length].
    rewrite length_append. lia. }
  rewrite Ef, Et, parse_value_object, Ey, (PM f [] "" F N Lf). reflexivity.
Qed.


(** ** Objects *)

Lemma assoc_obj_set (o : list (string * jsval)) (k k' : string) (v : jsval) :
  assoc k (obj_set o k' v) = if String.eqb k k' then Some v else assoc k o.
Proof.
  induction o as [|[k0 v0] o IH]; simpl.
  - reflexivity.
  - destruct (String.eqb_spec k' k0) as [->|N]; simpl.
    + destruct (String.eqb k k0); reflexivity.
    + rewrite IH. destruct (String.eqb_spec k k0) as [->|N'].
      * destruct (String.eqb_spec k0 k'); [congruence | reflexivity].
      * reflexivity.
Qed.

Lemma obj_of_app (l l' : list (string * jsval)) :
  obj_of (l ++ l') = fold_left (fun o kv => obj_set o (fst kv) (snd kv)) l' (obj_of l).
Proof. unfold obj_of. apply fold_left_app. Qed.

Lemma post_object_eq (db : DB) (p : PostRow) (a : UserRow) :
  find_user_by_id db (p_authorId p) = Some a ->
  post_object db p =
  Ok (JObj (obj_set (obj_set (obj_set
       (obj_of ([("id", JStr (p_id p)); ("title", JStr (p_title p));
                 ("content", JStr (p_content p)); ("category", JStr (p_category p))]
                ++ p_rest p))
       "authorId" (JStr (p_authorId p)))
       "author" (author_select a))
       "tags" (JArr (map tag_object (tags_of db p))))).
Proof.
  intros F. unfold post_object. rewrite F. do 2 f_equal.
  rewrite app_assoc. apply obj_of_app.
Qed.

(** The three properties that close a post object. *)
Lemma post_object_shape (db : DB) (p : PostRow) (v : jsval) :
  post_object db p = Ok v ->
  exists a o,
    find_user_by_id db (p_authorId p) = Some a /\
    v = JObj o /\
    assoc "authorId" o = Some (JStr (p_authorId p)) /\
    assoc "author" o = Some (author_select a) /\
    assoc "tags" o = Some (JArr (map tag_object (tags_of db p))).
Proof.
  destruct (find_user_by_id db (p_authorId p)) as [a|] eqn:F.
  - rewrite (post_object_eq db p a F). intros E. injection E as <-.
    exists a. eexists. split; [reflexivity|]. split; [reflexivity|].
    rewrite !assoc_obj_set. simpl. repeat split; reflexivity.
  - unfold post_object. rewrite F. discriminate.
Qed.

(** ** Get-or-create of tags *)

Lemma mem_string_In (x : string) (l : list string) :
  mem_string x l = true <-> In x l.
Proof.
  unfold mem_string. rewrite existsb_exists. split.
  - intros (y & I & E). apply String.eqb_eq in E. subst. exact I.
  - intros I. exists x. split; [exact I | apply String.eqb_refl].
Qed.

Lemma link_In (id x : string) (l : list string) :
  In id (link x l) <-> id = x \/ In id l.
Proof.
  unfold link. destruct (mem_string x l) eqn:M.
  - apply mem_string_In in M. split; [auto | intros [->|]; auto].
  - rewrite in_app_iff. simpl. split; intros [I|I]; auto.
    + destruct I as [<-|[]]. auto.
Qed.

Lemma find_tag_Some (ts : list TagRow) (name : string) (t : TagRow) :
  find_tag_by_name ts name = Some t -> In t ts /\ t_name t = name.
Proof.
  intros F. apply find_some in F as [I E]. split; [exact I | apply String.eqb_eq, E].
Qed.

Lemma find_tag_None (ts : list TagRow) (name : string) :
  find_tag_by_name ts name = None -> ~ In name (map t_name ts).
Proof.
  intros F I. apply in_map_iff in I as (t & E & I).
  pose proof (find_none _ _ F t I) as N. simpl in N.
  rewrite E, String.eqb_refl in N. discriminate.
Qed.

Lemma NoDup_map_eq {A B : Type} (f : A -> B) (l : list A) (a b : A) :
  List.NoDup (map f l) -> In a l -> In b l -> f a = f b -> a = b.
Proof.
  induction l as [|x l IH]; simpl; intros N Ia Ib E; [contradiction|].
  inversion N as [|? ? Nx Nl]; subst.
  destruct Ia as [->|Ia], Ib as [->|Ib]; auto.
  - exfalso. apply Nx. rewrite E. apply in_map, Ib.
  - exfalso. apply Nx. rewrite <- E. apply in_map, Ia.
Qed.

Lemma NoDup_map_filter {A B : Type} (f : A -> B) (p : A -> bool) (l : list A) :
  List.NoDup (map f l) -> List.NoDup (map f (List.filter p l)).
Proof.
  induction l as [|x l IH]; simpl; intros N; [constructor|].
  inversion N as [|? ? Nx Nl]; subst.
  destruct (p x); simpl; auto.
  constructor; auto.
  intros I. apply Nx. apply in_map_iff in I as (y & E & I).
  apply filter_In in I as [I _]. rewrite <- E. apply in_map, I.
Qed.

Section GetOrCreate.
Context `{Collaborators}.

Lemma tags_ok_snoc (ts : list TagRow) (n : N) (name : string) :
  ids_never_repeat -> tags_ok ts n -> ~ In name (map t_name ts) ->
  tags_ok (ts ++ [{| t_id := new_id n; t_name := name |}]) (n + 1)%N.
Proof.
  intros Inj (Nn & Ni & Fr) Nin. unfold tags_ok. rewrite !map_app. simpl.
  split; [|split].
  - apply List.NoDup_app; [exact Nn | repeat constructor; simpl; tauto |].
    intros x I [<-|[]]. contradiction.
  - apply List.NoDup_app; [exact Ni | repeat constructor; simpl; tauto |].
    intros x I [<-|[]]. apply in_map_iff in I as (t & E & I).
    apply (Fr t n I); [lia | exact E].
  - intros t k I L. apply in_app_iff in I as [I|[<-|[]]].
    + apply Fr; [exact I | lia].
    + simpl. intros E. apply Inj in E. lia.
Qed.

(** One pass over the names of a request. *)
Lemma connect_or_create_spec (names : list string) :
  forall (ts : list TagRow) (n : N) (linked : list string),
    ids_never_repeat -> tags_ok ts n ->
    exists fresh n' linked',
      connect_or_create (map (fun x => (x, x)) names) ts n linked
      = (ts ++ fresh, n', linked') /\
      (forall t, In t fresh -> In (t_name t) names) /\
      tags_ok (ts ++ fresh) n' /\
      (forall x, In x names -> exists t, In t (ts ++ fresh) /\ t_name t = x) /\
      (forall id, In id linked' <->
         In id linked \/
         exists t, In t (ts ++ fresh) /\ In (t_name t) names /\ t_id t = id).
Proof.
  induction names as [|x names IH]; intros ts n linked Inj Ok0; simpl.
  - exists [], n, linked. rewrite app_nil_r.
    split; [reflexivity|]. split; [intros t []|]. split; [exact Ok0|].
    split; [intros y []|].
    intros id. split; [auto | intros [I|(t & _ & [] & _)]; exact I].
  - destruct (find_tag_by_name ts x) as [t0|] eqn:F.
    + apply find_tag_Some in F as [I0 E0].
      destruct (IH ts n (link (t_id t0) linked) Inj Ok0)
        as (fresh & n' & linked' & E & Fn & Ok' & All & L).
      exists fresh, n', linked'. split; [exact E|].
      split; [intros t I; right; apply Fn, I|]. split; [exact Ok'|].
      split.
      * intros y [<-|Iy]; [|apply All, Iy].
        exists t0. split; [apply in_app_iff; auto | exact E0].
      * intros id. rewrite L, link_In. split.
        -- intros [[->|I]|(t & It & Nt & Et)]; [| left; exact I |].
           ++ right. exists t0.
              split; [apply in_app_iff; auto | split; [left; auto | reflexivity]].
           ++ right. exists t. split; [exact It | split; [right; exact Nt | exact Et]].
        -- intros [I|(t & It & [Nt|Nt] & Et)]; [left; right; exact I | |].
           ++ left. left. rewrite <- Et. f_equal.
              destruct Ok' as (Nn & _ & _).
              apply (NoDup_map_eq t_name (ts ++ fresh)); auto.
              ** apply in_app_iff; auto.
              ** congruence.
           ++ right. exists t. auto.
    + apply find_tag_None in F.
      pose proof (tags_ok_snoc ts n x Inj Ok0 F) as Ok1.
      set (t0 := {| t_id := new_id n; t_name := x |}) in *.
      destruct (IH (ts ++ [t0]) (n + 1)%N (link (t_id t0) linked) Inj Ok1)
        as (fresh & n' & linked' & E & Fn & Ok' & All & L).
      rewrite <- app_assoc in E, Ok', All, L.
      exists ([t0] ++ fresh), n', linked'. split; [exact E|].
      split.
      { intros t [<-|I]; [left; reflexivity | right; apply Fn, I]. }
      split; [exact Ok'|].
      assert (In t0 (ts ++ [t0] ++ fresh)) as I0.
      { apply in_app_iff. right. left. reflexivity. }
      split.
      * intros y [<-|Iy]; [|apply All, Iy]. exists t0. split; [exact I0 | reflexivity].
      * intros id. rewrite L, link_In. split.
        -- intros [[->|I]|(t & It & Nt & Et)]; [| left; exact I |].
           ++ right. exists t0.
              split; [exact I0 | split; [left; reflexivity | reflexivity]].
           ++ right. exists t. split; [exact It | split; [right; exact Nt | exact Et]].
        -- intros [I|(t & It & [Nt|Nt] & Et)]; [left; right; exact I | |].
           ++ left. left. rewrite <- Et. f_equal.
              destruct Ok' as (Nn & _ & _).
              apply (NoDup_map_eq t_name (ts ++ [t0] ++ fresh)); auto.
           ++ right. exists t. auto.
Qed.
End GetOrCreate.

(** ** Bearer tokens *)

Lemma split_space_no_space (t : string) :
  no_space t = true -> split_space t = [t].
Proof.
  induction t as [|c t IH]; simpl; [reflexivity|].
  intros E. apply andb_prop in E as [Ec Et].
  destruct (Ascii.eqb c " "); [discriminate|].
  rewrite (IH Et). reflexivity.
Qed.

Section PostsProperties.
Context `{Collaborators}.

Lemma bearer_of_header (ev : Event) (token : string) :
  no_space token = true ->
  Posts.bearer (with_authorization ev (Some ("Bearer " +:+ token))) = Some token.
Proof.
  intros E. unfold Posts.bearer. cbv [String.append]. simpl.
  rewrite (split_space_no_space _ E). reflexivity.
Qed.

Lemma unauthenticated_decode (ev : Event) :
  unauthenticated ev -> Posts.decode ev = JNull.
Proof.
  unfold Posts.decode, Posts.verifyToken.
  intros [E | [E | (token & e & E & V)]]; rewrite E; simpl; try reflexivity.
  rewrite V. simpl. destruct (String.eqb token ""); reflexivity.
Qed.

Lemma verified_decode (ev : Event) (token : string) (payload : jsval) :
  Posts.bearer ev = Some token -> token <> "" ->
  jwt_verify token Posts.JWT_SECRET = Ok payload ->
  Posts.decode ev = payload.
Proof.
  intros B N V. unfold Posts.decode, Posts.verifyToken. rewrite B.
  destruct (String.eqb_spec token ""); [contradiction|].
  rewrite V. reflexivity.
Qed.

Lemma verified_userId (ev : Event) (uid : string) :
  verified_as ev uid -> js_get (Posts.decode ev) "userId" = Ok (JStr uid).
Proof.
  intros (token & payload & B & N & V & G).
  rewrite (verified_decode ev token payload B N V). exact G.
Qed.

(** The handler sees the request through its method, its body and the
    decoded token only. *)
Lemma handler_decode_ext (db : DB) (ev ev' : Event) :
  httpMethod ev = httpMethod ev' -> body ev = body ev' ->
  Posts.decode ev = Posts.decode ev' ->
  Posts.handler db ev = Posts.handler db ev'.
Proof.
  intros M B D. unfold Posts.handler, Posts.reply, body_or.
  rewrite M, B, D. reflexivity.
Qed.

(** C4.  Token processing is a total function of the request: whatever the
    header holds, [decode] is either [null] or the payload that verification
    returned for the second word of the header.  A header [Bearer <token>]
    yields [<token>]; a request without header and a request whose token
    makes jwt.verify throw end in the same state, [null], and receive the
    same response: the exception does not leave [verifyToken]. *)
Theorem bearer_processing_total (ev : Event) (token : string) :
  no_space token = true ->
  (Posts.decode ev = JNull \/
   exists t, Posts.bearer ev = Some t /\
             jwt_verify t Posts.JWT_SECRET = Ok (Posts.decode ev)) /\
  Posts.bearer (with_authorization ev (Some ("Bearer " +:+ token))) = Some token /\
  Posts.decode (with_authorization ev None) = JNull /\
  (forall e, jwt_verify token Posts.JWT_SECRET = Throw e ->
     Posts.decode (with_authorization ev (Some ("Bearer " +:+ token)))
     = Posts.decode (with_authorization ev None)) /\
  (forall payload, token <> "" -> jwt_verify token Posts.JWT_SECRET = Ok payload ->
     Posts.decode (with_authorization ev (Some ("Bearer " +:+ token))) = payload) /\
  (forall e db, jwt_verify token Posts.JWT_SECRET = Throw e ->
     Posts.handler db (with_authorization ev (Some ("Bearer " +:+ token)))
     = Posts.handler db (with_authorization ev None)).
Proof.
  assert (forall e, no_space token = true ->
            jwt_verify token Posts.JWT_SECRET = Throw e ->
            Posts.decode (with_authorization ev (Some ("Bearer " +:+ token))) = JNull)
    as Failing.
  { intros e NS V. apply unauthenticated_decode.
    right; right. exists token, e. split; [apply bearer_of_header, NS | exact V]. }
  intros NS. split; [|split; [|split; [|split; [|split]]]].
  - unfold Posts.decode, Posts.verifyToken.
    destruct (Posts.bearer ev) as [t|]; [|left; reflexivity].
    destruct (String.eqb t ""); [left; reflexivity|].
    destruct (jwt_verify t Posts.JWT_SECRET) as [p|e] eqn:V; simpl.
    + right. exists t. split; [reflexivity | exact V].
    + left. reflexivity.
  - apply bearer_of_header, NS.
  - reflexivity.
  - intros e V. apply (Failing e NS V).
  - intros payload N V. apply (verified_decode _ token); auto using bearer_of_header.
  - intros e db V. apply handler_decode_ext; try reflexivity.
    apply (Failing e NS V).
Qed.

(** *** The gate in front of a create *)

Lemma handler_unauthenticated_post (db : DB) (ev : Event) :
  httpMethod ev = "POST" -> truthy (Posts.decode ev) = false ->
  Posts.handler db ev = (unauthorized_response, db).
Proof.
  intros M T. unfold Posts.handler, Posts.reply. rewrite M, T. reflexivity.
Qed.

Lemma handler_other_method (db : DB) (ev : Event) :
  httpMethod ev <> "GET" -> httpMethod ev <> "POST" ->
  Posts.handler db ev = (method_not_allowed_response, db).
Proof.
  intros G P. unfold Posts.handler, Posts.reply.
  destruct (String.eqb_spec (httpMethod ev) "GET"); [contradiction|].
  destruct (String.eqb_spec (httpMethod ev) "POST"); [contradiction|].
  reflexivity.
Qed.

Lemma checked_items_names (names : list string) :
  checked_items
    (map (fun tag => {| where_name := tag; create_name := tag |}) (map JStr names))
  = Some (map (fun n => (n, n)) names).
Proof.
  induction names as [|n names IH]; simpl; [reflexivity|]. rewrite IH. reflexivity.
Qed.

Lemma post_object_same_users (db db' : DB) (p : PostRow) :
  users db' = users db ->
  find_user_by_id db (p_authorId p) <> None ->
  exists o, post_object db' p = Ok o.
Proof.
  intros U F. unfold post_object, find_user_by_id in *. rewrite U.
  destruct (find _ (users db)); [eauto | contradiction].
Qed.

Lemma reply_create_succeeds (db : DB) (ev : Event)
    (uid title content category : string) (names : list string) :
  httpMethod ev = "POST" ->
  js_get (Posts.decode ev) "userId" = Ok (JStr uid) ->
  find_user_by_id db uid <> None ->
  create_body (body_or ev "{}") title content category names ->
  category_ok category = true ->
  exists v db', Posts.reply db ev = Ok (201, v, db').
Proof.
  intros M U F (parsed & P & Gt & Gc & Gk & Gg) C.
  unfold Posts.reply. rewrite M. simpl.
  rewrite (js_get_string_truthy _ _ _ U). simpl.
  rewrite P. simpl. rewrite Gt. simpl. rewrite Gc. simpl. rewrite Gk. simpl.
  rewrite Gg. simpl. rewrite U. simpl.
  unfold post_create. rewrite checked_items_names, C.
  destruct (find_user_by_id db uid) as [a|] eqn:Fa; [|contradiction].
  destruct (connect_or_create _ _ _ _) as [[ts n'] linked].
  match goal with
  | |- context [post_object ?d ?r] =>
      destruct (post_object_same_users db d r eq_refl) as [o Ho];
      [simpl; rewrite Fa; discriminate | rewrite Ho]
  end.
  simpl. eauto.
Qed.

(** C3, as the handler implements it.  A POST (the only write it serves)
    from an unauthenticated caller is answered 401 and the storage is
    handed back as it was, whatever it holds; any method other than GET
    and POST is answered 405, with or without a token; a POST with a
    token that verifies to a stored user and a body the storage layer
    accepts is answered 201. *)
Theorem create_gate (db : DB) (ev : Event) :
  (httpMethod ev = "POST" -> unauthenticated ev ->
   Posts.handler db ev = (unauthorized_response, db)) /\
  (httpMethod ev <> "GET" -> httpMethod ev <> "POST" ->
   Posts.handler db ev = (method_not_allowed_response, db)) /\
  (forall uid title content category names,
     httpMethod ev = "POST" ->
     verified_as ev uid -> find_user_by_id db uid <> None ->
     create_body (body_or ev "{}") title content category names ->
     category_ok category = true ->
     exists r db', Posts.handler db ev = (r, db') /\ statusCode r = 201).
Proof.
  split; [|split].
  - intros M U. apply handler_unauthenticated_post; [exact M|].
    rewrite (unauthenticated_decode _ U). reflexivity.
  - apply handler_other_method.
  - intros uid title content category names M V F CB C.
    destruct (reply_create_succeeds db ev uid title content category names)
      as (v & db' & R); auto using verified_userId.
    unfold Posts.handler. rewrite R. simpl. eauto.
Qed.

(** *** What a 201 reply says about the storage *)

Lemma post_create_inv (db db' : DB) (title content category authorId v : jsval)
    (items : list ConnectOrCreate) :
  post_create db title content category authorId items = Ok (v, db') ->
  exists t c cat aid its,
    title = JStr t /\ content = JStr c /\ category = JStr cat /\
    authorId = JStr aid /\ checked_items items = Some its /\
    category_ok cat = true /\ find_user_by_id db aid <> None /\
    let n := inserted db in
    let out := connect_or_create its (tags db) (n + 1)%N [] in
    let row := {| p_id := new_id n; p_title := t; p_content := c;
                  p_category := cat; p_rest := post_defaults n;
                  p_authorId := aid; p_tags := snd out |} in
    db' = {| users := users db; tags := fst (fst out);
             posts := posts db ++ [row]; inserted := snd (fst out) |} /\
    post_object db' row = Ok v.
Proof.
  unfold post_create. intros E.
  destruct title as [| | | |t| |]; try discriminate.
  destruct content as [| | | |c| |]; try discriminate.
  destruct category as [| | | |cat| |]; try discriminate.
  destruct authorId as [| | | |aid| |]; try discriminate.
  destruct (checked_items items) as [its|]; try discriminate.
  destruct (category_ok cat) eqn:C; try discriminate.
  destruct (find_user_by_id db aid) as [a|] eqn:F; try discriminate.
  exists t, c, cat, aid, its.
  destruct (connect_or_create its (tags db) (inserted db + 1)%N []) as [[ts n'] linked].
  simpl in *.
  apply rbind_Ok_inv in E as (o & O & E). injection E as <- <-.
  repeat (split; [first [reflexivity | congruence]|]). exact O.
Qed.

Lemma reply_201_inv (db db' : DB) (ev : Event) (v : jsval) :
  Posts.reply db ev = Ok (201, v, db') ->
  exists parsed title content category tags userId items,
    httpMethod ev = "POST" /\
    truthy (Posts.decode ev) = true /\
    JSON_parse (body_or ev "{}") = Ok parsed /\
    js_get parsed "title" = Ok title /\
    js_get parsed "content" = Ok content /\
    js_get parsed "category" = Ok category /\
    js_get parsed "tags" = Ok tags /\
    js_get (Posts.decode ev) "userId" = Ok userId /\
    array_map tags (fun tag => {| where_name := tag; create_name := tag |}) = Ok items /\
    post_create db title content category userId items = Ok (v, db').
Proof.
  unfold Posts.reply. intros E.
  destruct (String.eqb (httpMethod ev) "GET").
  { apply rbind_Ok_inv in E as (l & _ & E). discriminate. }
  destruct (String.eqb_spec (httpMethod ev) "POST") as [M|_]; [|discriminate].
  destruct (truthy (Posts.decode ev)) eqn:T; simpl in E; [|discriminate].
  apply rbind_Ok_inv in E as (parsed & P & E).
  apply rbind_Ok_inv in E as (title & Gt & E).
  apply rbind_Ok_inv in E as (content & Gc & E).
  apply rbind_Ok_inv in E as (category & Gk & E).
  apply rbind_Ok_inv in E as (tags & Gg & E).
  apply rbind_Ok_inv in E as (userId & Gu & E).
  apply rbind_Ok_inv in E as (items & I & E).
  apply rbind_Ok_inv in E as ([newPost db''] & C & E).
  injection E as <- <-.
  exists parsed, title, content, category, tags, userId, items. auto 12.
Qed.

Lemma handler_inv (db db' : DB) (ev : Event) (r : Response) :
  Posts.handler db ev = (r, db') -> statusCode r <> 500 ->
  exists v, Posts.reply db ev = Ok (statusCode r, v, db') /\
            resp_body r = JSON_stringify v.
Proof.
  unfold Posts.handler. intros E N.
  destruct (Posts.reply db ev) as [[[st v] d]|e]; simpl in E; injection E as <- <-.
  - exists v. split; reflexivity.
  - simpl in N. contradiction.
Qed.

(** C1.  When a create is accepted for a token that verifies to user [A],
    the storage gains one article, its author is [A], and two requests
    that agree on method, header and the four fields the handler reads
    (title, content, category, tags) get the same response and leave the
    same storage: no other member of the body, an author or authorId
    among them, has any influence. *)
Theorem create_author_from_token (db db' : DB) (ev : Event) (A : string) (r : Response) :
  verified_as ev A ->
  Posts.handler db ev = (r, db') -> statusCode r = 201 ->
  (exists row, posts db' = posts db ++ [row] /\ p_authorId row = A /\
               exists o, post_object db' row = Ok (JObj o) /\
                         resp_body r = JSON_stringify (JObj o) /\
                         assoc "authorId" o = Some (JStr A)) /\
  (forall ev' p p',
     httpMethod ev' = httpMethod ev -> authorization ev' = authorization ev ->
     JSON_parse (body_or ev "{}") = Ok p -> JSON_parse (body_or ev' "{}") = Ok p' ->
     (forall k, In k ["title"; "content"; "category"; "tags"] -> js_get p' k = js_get p k) ->
     Posts.handler db ev' = (r, db')).
Proof.
  intros V E S. split.
  - destruct (handler_inv _ _ _ _ E) as (v & R & B); [lia|]. rewrite S in R.
    apply reply_201_inv in R
      as (parsed & title & content & category & tagv & userId & items
          & M & T & P & Gt & Gc & Gk & Gg & Gu & I & C).
    rewrite (verified_userId _ _ V) in Gu. injection Gu as <-.
    apply post_create_inv in C
      as (t & c & cat & aid & its & _ & _ & _ & Ea & _ & _ & _ & Edb & O).
    injection Ea as <-. cbv zeta in Edb, O.
    destruct (post_object_shape _ _ _ O) as (a & o & _ & -> & Ao & _ & _).
    eexists. split; [rewrite Edb; reflexivity|]. split; [reflexivity|].
    exists o. auto.
  - intros ev' p p' M Au P P' K. rewrite <- E.
    unfold Posts.handler, Posts.reply, Posts.decode, Posts.bearer.
    rewrite M, Au, P, P'. simpl.
    rewrite !K by (simpl; auto). reflexivity.
Qed.

(** *** The author of a returned article *)

Lemma post_object_author (db : DB) (p : PostRow) (v : jsval) :
  post_object db p = Ok v -> author_projection v.
Proof.
  intros E. destruct (post_object_shape _ _ _ E) as (a & o & _ & -> & _ & Au & _).
  exists o. eexists. split; [reflexivity|]. split; [exact Au | reflexivity].
Qed.

Lemma post_objects_author (db : DB) (ps : list PostRow) (l : list jsval) :
  post_objects db ps = Ok l ->
  Forall author_projection l /\ length l = length ps.
Proof.
  revert l. induction ps as [|p ps IH]; simpl; intros l E.
  - injection E as <-. split; [constructor | reflexivity].
  - apply rbind_Ok_inv in E as (o & O & E).
    apply rbind_Ok_inv in E as (os & Os & E). injection E as <-.
    destruct (IH _ Os) as [F L]. split.
    + constructor; [apply (post_object_author _ _ _ O) | exact F].
    + simpl. rewrite L. reflexivity.
Qed.

Lemma reply_200_inv (db db' : DB) (ev : Event) (v : jsval) :
  Posts.reply db ev = Ok (200, v, db') ->
  httpMethod ev = "GET" /\ db' = db /\
  exists l, post_findMany db = Ok l /\ v = JArr l.
Proof.
  unfold Posts.reply. intros E.
  destruct (String.eqb_spec (httpMethod ev) "GET") as [M|_].
  - apply rbind_Ok_inv in E as (l & F & E). injection E as <- <-. eauto.
  - destruct (String.eqb (httpMethod ev) "POST"); [|discriminate].
    destruct (truthy (Posts.decode ev)); simpl in E; [|discriminate].
    do 7 (apply rbind_Ok_inv in E as (? & _ & E)).
    apply rbind_Ok_inv in E as ([newPost d] & _ & E). discriminate.
Qed.

Lemma post_object_article (db : DB) (p : PostRow) (v : jsval) :
  post_object db p = Ok v -> article_of db p v.
Proof.
  intros E. destruct (post_object_shape _ _ _ E) as (a & o & F & -> & _ & Au & _).
  apply find_some in F as [I Id]. apply String.eqb_eq in Id.
  exists a. split; [exact I|]. split; [exact Id|]. exists o. split; [reflexivity | exact Au].
Qed.

Lemma post_objects_articles (db : DB) (ps : list PostRow) (l : list jsval) :
  post_objects db ps = Ok l -> Forall2 (article_of db) ps l.
Proof.
  revert l. induction ps as [|p ps IH]; simpl; intros l E.
  - injection E as <-. constructor.
  - apply rbind_Ok_inv in E as (o & O & E).
    apply rbind_Ok_inv in E as (os & Os & E). injection E as <-.
    constructor; [apply (post_object_article _ _ _ O) | apply IH, Os].
Qed.

(** What the posts function makes of two storage states that agree once
    a part of every user row is hidden, when the hidden part holds
    neither the id nor any of the fields selected for an author. *)
Section Hidden.
Variable hide : UserRow -> UserRow.
Hypothesis hide_id : forall u, u_id (hide u) = u_id u.
Hypothesis hide_author : forall u, author_select (hide u) = author_select u.

Lemma find_by_id_hidden (id : string) (l1 l2 : list UserRow) :
  map hide l1 = map hide l2 ->
  option_map hide (find (fun u => String.eqb (u_id u) id) l1)
  = option_map hide (find (fun u => String.eqb (u_id u) id) l2).
Proof.
  revert l2. induction l1 as [|x l1 IH]; intros [|y l2] E; try discriminate.
  - reflexivity.
  - simpl in E. injection E as Exy E. simpl.
    rewrite <- (hide_id x), <- (hide_id y), Exy.
    destruct (String.eqb (u_id (hide y)) id); simpl; [congruence | apply IH, E].
Qed.

Lemma post_object_hidden (db1 db2 : DB) (p : PostRow) :
  map hide (users db1) = map hide (users db2) -> tags db1 = tags db2 ->
  post_object db1 p = post_object db2 p.
Proof.
  intros U T. unfold post_object, tags_of, find_user_by_id. rewrite T.
  pose proof (find_by_id_hidden (p_authorId p) _ _ U) as F.
  destruct (find _ (users db1)) as [a1|], (find _ (users db2)) as [a2|];
    try discriminate; [|reflexivity].
  simpl in F. injection F as F.
  rewrite <- (hide_author a1), F, hide_author. reflexivity.
Qed.

Lemma post_objects_hidden (db1 db2 : DB) (ps : list PostRow) :
  map hide (users db1) = map hide (users db2) -> tags db1 = tags db2 ->
  post_objects db1 ps = post_objects db2 ps.
Proof.
  intros U T. induction ps as [|p ps IH]; simpl; [reflexivity|].
  rewrite (post_object_hidden _ _ p U T), IH. reflexivity.
Qed.

Lemma post_create_hidden (db1 db2 : DB) (t c cat a : jsval) (items : list ConnectOrCreate) :
  map hide (users db1) = map hide (users db2) ->
  tags db1 = tags db2 -> posts db1 = posts db2 -> inserted db1 = inserted db2 ->
  match post_create db1 t c cat a items, post_create db2 t c cat a items with
  | Ok (v1, d1), Ok (v2, d2) =>
      v1 = v2 /\ map hide (users d1) = map hide (users d2) /\
      tags d1 = tags d2 /\ posts d1 = posts d2 /\ inserted d1 = inserted d2
  | Throw e1, Throw e2 => e1 = e2
  | _, _ => False
  end.
Proof.
  intros U T P I. unfold post_create.
  destruct t as [| | | |title| |]; try reflexivity.
  destruct c as [| | | |content| |]; try reflexivity.
  destruct cat as [| | | |category| |]; try reflexivity.
  destruct a as [| | | |aid| |]; try reflexivity.
  destruct (checked_items items) as [its|]; try reflexivity.
  destruct (category_ok _); try reflexivity.
  pose proof (find_by_id_hidden aid _ _ U) as F.
  unfold find_user_by_id.
  destruct (find _ (users db1)) as [a1|], (find _ (users db2)) as [a2|];
    try discriminate; [|reflexivity].
  rewrite T, I, P.
  destruct (connect_or_create its (tags db2) (inserted db2 + 1)%N []) as [[ts n'] linked].
  set (row := {| p_id := new_id (inserted db2); p_title := title; p_content := content;
                 p_category := category; p_rest := post_defaults (inserted db2);
                 p_authorId := aid; p_tags := linked |}).
  set (d1 := {| users := users db1; tags := ts; posts := posts db2 ++ [row];
                inserted := n' |}).
  set (d2 := {| users := users db2; tags := ts; posts := posts db2 ++ [row];
                inserted := n' |}).
  rewrite (post_object_hidden d1 d2 row U eq_refl).
  destruct (post_object d2 row); simpl; auto.
Qed.

Lemma posts_handler_hidden (db1 db2 : DB) (ev : Event) :
  map hide (users db1) = map hide (users db2) ->
  tags db1 = tags db2 -> posts db1 = posts db2 -> inserted db1 = inserted db2 ->
  fst (Posts.handler db1 ev) = fst (Posts.handler db2 ev) /\
  map hide (users (snd (Posts.handler db1 ev)))
  = map hide (users (snd (Posts.handler db2 ev))) /\
  tags (snd (Posts.handler db1 ev)) = tags (snd (Posts.handler db2 ev)) /\
  posts (snd (Posts.handler db1 ev)) = posts (snd (Posts.handler db2 ev)) /\
  inserted (snd (Posts.handler db1 ev)) = inserted (snd (Posts.handler db2 ev)).
Proof.
  intros U T P I. unfold Posts.handler, Posts.reply.
  destruct (String.eqb (httpMethod ev) "GET").
  { unfold post_findMany. rewrite P, (post_objects_hidden _ _ _ U T).
    destruct (post_objects db2 (posts db2)); simpl; auto. }
  destruct (String.eqb (httpMethod ev) "POST"); [|simpl; auto].
  destruct (negb _); [simpl; auto|].
  destruct (JSON_parse _) as [parsed|]; [simpl|simpl; auto].
  destruct (js_get parsed "title") as [title|]; [simpl|simpl; auto].
  destruct (js_get parsed "content") as [content|]; [simpl|simpl; auto].
  destruct (js_get parsed "category") as [category|]; [simpl|simpl; auto].
  destruct (js_get parsed "tags") as [tagv|]; [simpl|simpl; auto].
  destruct (js_get (Posts.decode ev) "userId") as [userId|]; [simpl|simpl; auto].
  destruct (array_map tagv _) as [items|]; [simpl|simpl; auto].
  pose proof (post_create_hidden db1 db2 title content category userId items U T P I) as C.
  destruct (post_create db1 _ _ _ _ _) as [[v1 d1]|e1],
           (post_create db2 _ _ _ _ _) as [[v2 d2]|e2]; try contradiction; simpl.
  - destruct C as [-> S']. auto.
  - auto.
Qed.
End Hidden.

(** C10.  In a 200 reply (GET) every article of the array, one per stored
    post, and in a 201 reply (POST) the created article, carries an
    [author] object whose members are exactly id, name, email and
    avatarUrl, with the values stored for the user that the post names as
    its author: no role, and no password.  And the role cannot be derived
    from a reply: two storage states that differ in roles and password
    hashes only get the same reply to every request, and stay so. *)
Theorem author_fields (db db' : DB) (ev : Event) (r : Response) :
  Posts.handler db ev = (r, db') ->
  (statusCode r = 200 ->
   exists l, resp_body r = JSON_stringify (JArr l) /\
             length l = length (posts db) /\ Forall author_projection l /\
             Forall2 (article_of db) (posts db) l) /\
  (statusCode r = 201 ->
   exists v, resp_body r = JSON_stringify v /\ author_projection v /\
             exists row, posts db' = posts db ++ [row] /\ article_of db' row v) /\
  (forall other, same_but_roles db other ->
     fst (Posts.handler other ev) = r /\
     same_but_roles db' (snd (Posts.handler other ev))).
Proof.
  intros E. split; [|split].
  - intros S. destruct (handler_inv _ _ _ _ E) as (v & R & B); [lia|]. rewrite S in R.
    apply reply_200_inv in R as (_ & _ & l & F & ->).
    destruct (post_objects_author _ _ _ F) as [Fa L].
    exists l. split; [exact B|]. split; [exact L|]. split; [exact Fa|].
    apply post_objects_articles, F.
  - intros S. destruct (handler_inv _ _ _ _ E) as (v & R & B); [lia|]. rewrite S in R.
    apply reply_201_inv in R
      as (parsed & title & content & category & tagv & userId & items
          & _ & _ & _ & _ & _ & _ & _ & _ & _ & C).
    apply post_create_inv in C
      as (t & c & cat & aid & its & _ & _ & _ & _ & _ & _ & _ & Edb & O).
    cbv zeta in Edb, O.
    exists v. split; [exact B|]. split; [exact (post_object_author _ _ _ O)|].
    eexists. split; [rewrite Edb; reflexivity|]. apply post_object_article, O.
  - intros other (U & T & P & I).
    destruct (posts_handler_hidden public (fun u => eq_refl) (fun u => eq_refl)
                db other ev U T P I) as (Er & U' & T' & P' & I').
    rewrite E in Er, U', T', P', I'. simpl in *.
    split; [symmetry; exact Er|]. split; [exact U'|]. split; [exact T'|].
    split; [exact P' | exact I'].
Qed.

(** *** Tags of a created article *)

Lemma tags_ok_later (ts : list TagRow) (n m : N) :
  (n <= m)%N -> tags_ok ts n -> tags_ok ts m.
Proof.
  intros L (Nn & Ni & Fr). split; [exact Nn|]. split; [exact Ni|].
  intros t k I K. apply Fr; [exact I | lia].
Qed.

(** C9.  For an accepted create whose body lists the tag names [names]:
    the tag table keeps its rows and gains rows only for requested names,
    names stay unique in it (no duplicate record); the article is
    associated with exactly the rows whose name was requested, so that a
    requested name already stored is served by the stored row, and a
    repeated name counts once. *)
Theorem tags_get_or_create (db db' : DB) (ev : Event) (r : Response)
    (title content category : string) (names : list string) :
  ids_never_repeat -> store_ok db ->
  create_body (body_or ev "{}") title content category names ->
  Posts.handler db ev = (r, db') -> statusCode r = 201 ->
  exists row fresh,
    posts db' = posts db ++ [row] /\
    tags db' = tags db ++ fresh /\
    store_ok db' /\
    (forall t, In t fresh -> In (t_name t) names) /\
    (forall t, In t (tags_of db' row) <-> In t (tags db') /\ In (t_name t) names) /\
    (forall x, In x names -> exists t, In t (tags_of db' row) /\ t_name t = x) /\
    length (tags_of db' row) = length (nodup string_dec names) /\
    exists o, resp_body r = JSON_stringify (JObj o) /\
              assoc "tags" o = Some (JArr (map tag_object (tags_of db' row))).
Proof.
  intros Inj Ok0 (parsed0 & P0 & _ & _ & _ & G0) E S.
  destruct (handler_inv _ _ _ _ E) as (v & R & B); [lia|]. rewrite S in R.
  apply reply_201_inv in R
    as (parsed & title' & content' & category' & tagv & userId & items
        & _ & _ & P & _ & _ & _ & Gg & _ & I & C).
  rewrite P0 in P. injection P as <-. rewrite G0 in Gg. injection Gg as <-.
  simpl in I. injection I as <-.
  apply post_create_inv in C
    as (t & c & cat & aid & its & _ & _ & _ & _ & Ci & _ & _ & Edb & O).
  rewrite checked_items_names in Ci. injection Ci as <-. cbv zeta in Edb, O.
  destruct (connect_or_create_spec names (tags db) (inserted db + 1)%N [] Inj)
    as (fresh & n' & linked' & Ec & Fn & Ok' & All & L).
  { apply (tags_ok_later _ (inserted db)); [lia | exact Ok0]. }
  rewrite Ec in Edb, O. simpl in Edb, O.
  set (row := {| p_id := new_id (inserted db); p_title := t; p_content := c;
                 p_category := cat; p_rest := post_defaults (inserted db);
                 p_authorId := aid; p_tags := linked' |}) in *.
  assert (forall t0, In t0 (tags_of db' row) <->
                     In t0 (tags db') /\ In (t_name t0) names) as Assoc.
  { intros t0. unfold tags_of. rewrite filter_In, mem_string_In. subst db'. simpl.
    rewrite L. split.
    - intros (I0 & [[]|(t1 & I1 & N1 & E1)]). split; [exact I0|].
      destruct Ok' as (_ & Ni & _).
      rewrite (NoDup_map_eq t_id _ t0 t1 Ni I0 I1); auto.
    - intros (I0 & N0). split; [exact I0|]. right. exists t0. auto. }
  assert (forall x, In x names -> exists t0, In t0 (tags_of db' row) /\ t_name t0 = x)
    as Served.
  { intros x Ix. destruct (All x Ix) as (t0 & I0 & E0). exists t0.
    split; [|exact E0]. apply Assoc. subst db'. simpl. rewrite E0. auto. }
  exists row, fresh.
  split; [subst db'; reflexivity|]. split; [subst db'; reflexivity|].
  split; [subst db'; exact Ok'|]. split; [exact Fn|]. split; [exact Assoc|].
  split; [exact Served|]. split.
  - rewrite <- (length_map t_name). apply Permutation_length.
    apply Permutation.NoDup_Permutation.
    + unfold tags_of. apply NoDup_map_filter. subst db'. simpl. apply Ok'.
    + apply NoDup_nodup.
    + intros x. rewrite nodup_In, in_map_iff. split.
      * intros (t0 & <- & I0). apply Assoc, I0.
      * intros Ix. destruct (Served x Ix) as (t0 & I0 & E0). eauto.
  - destruct (post_object_shape _ _ _ O) as (a & o & _ & -> & _ & _ & Tg).
    exists o. split; [exact B | exact Tg].
Qed.
End PostsProperties.

(** ** The login handler *)

Lemma find_user_by_email_In (db : DB) (email : string) (u : UserRow) :
  find_user_by_email db email = Some u -> In u (users db) /\ u_email u = email.
Proof.
  intros F. apply find_some in F as [I E]. split; [exact I | apply String.eqb_eq, E].
Qed.

Lemma find_user_by_email_unique (db : DB) (u : UserRow) :
  emails_unique db -> In u (users db) -> find_user_by_email db (u_email u) = Some u.
Proof.
  unfold emails_unique, find_user_by_email.
  induction (users db) as [|x l IH]; simpl; intros N I; [contradiction|].
  inversion N as [|? ? Nx Nl]; subst.
  destruct I as [->|I]; [rewrite String.eqb_refl; reflexivity|].
  destruct (String.eqb_spec (u_email x) (u_email u)) as [E|_]; [|auto].
  exfalso. apply Nx. rewrite E. apply in_map, I.
Qed.

Section AuthProperties.
Context `{Collaborators}.

(** The two handlers read their secret the same way. *)
Lemma same_secret : Posts.JWT_SECRET = Auth.JWT_SECRET.
Proof. reflexivity. Qed.

Lemma reply_login (db : DB) (ev : Event) (email password : string) :
  login_body (body_or ev "{}") email password ->
  Auth.reply db ev =
  match find_user_by_email db email with
  | None => Ok (401, message "Invalid credentials")
  | Some u =>
      if bcrypt_compare password (u_password u) then
        Ok (200, JObj [("token", JStr (jwt_sign (JObj [("userId", JStr (u_id u))])
                                         Auth.JWT_SECRET));
                       ("user", JObj (obj_set (user_object u) "password" JUndefined))])
      else Ok (401, message "Invalid credentials")
  end.
Proof.
  intros (parsed & P & Ge & Gp & Ga). unfold Auth.reply.
  rewrite P. simpl. rewrite Ge. simpl. rewrite Gp. simpl. rewrite Ga. simpl.
  destruct (find_user_by_email db email) as [u|]; [|reflexivity].
  simpl. destruct (bcrypt_compare password (u_password u)); reflexivity.
Qed.

(** C2.  A login request for (email, password): when a stored identity
    has that email and its hash matches the password, the reply is 200
    and carries a token which [verifyToken] of the posts handler decodes
    to that identity's id; when no stored identity matches, the reply is
    401 [Invalid credentials], a body without token. *)
Theorem issue_then_verify (db : DB) (ev : Event) (email password : string) :
  httpMethod ev = "POST" ->
  login_body (body_or ev "{}") email password ->
  (forall u,
     emails_unique db -> In u (users db) -> u_email u = email ->
     bcrypt_compare password (u_password u) = true ->
     sign_verify_roundtrip (u_id u) ->
     exists token,
       Auth.handler db ev =
         {| statusCode := 200;
            resp_body := JSON_stringify
              (JObj [("token", JStr token); ("user", identity_object u)]) |} /\
       js_get (Posts.verifyToken token) "userId" = Ok (JStr (u_id u))) /\
  ((forall u, In u (users db) -> u_email u = email ->
              bcrypt_compare password (u_password u) = false) ->
   Auth.handler db ev = invalid_credentials_response).
Proof.
  intros M B. split.
  - intros u U I E C (payload & V & G).
    exists (jwt_sign (JObj [("userId", JStr (u_id u))]) Auth.JWT_SECRET). split.
    + unfold Auth.handler. rewrite M. simpl. rewrite (reply_login _ _ _ _ B).
      rewrite <- E, (find_user_by_email_unique _ _ U I), C. reflexivity.
    + unfold Posts.verifyToken. rewrite same_secret, V. exact G.
  - intros N. unfold Auth.handler. rewrite M. simpl. rewrite (reply_login _ _ _ _ B).
    destruct (find_user_by_email db email) as [u|] eqn:F; [|reflexivity].
    apply find_user_by_email_In in F as [I E]. rewrite (N u I E). reflexivity.
Qed.

(** *** Stored passwords and response bodies *)

Lemma redact_cons_inv (x y : UserRow) (l1 l2 : list UserRow) :
  map redact (x :: l1) = map redact (y :: l2) ->
  redact x = redact y /\ map redact l1 = map redact l2.
Proof.
  simpl. generalize (redact x), (redact y), (map redact l1), (map redact l2).
  intros a b k1 k2 E. injection E as -> ->. auto.
Qed.

Lemma redact_Some_inv (x y : UserRow) :
  Some (redact x) = Some (redact y) -> redact x = redact y.
Proof. generalize (redact x), (redact y). intros a b E. injection E as ->. reflexivity. Qed.

Lemma find_redact (p : UserRow -> bool) (l1 l2 : list UserRow) :
  (forall u, p (redact u) = p u) ->
  map redact l1 = map redact l2 ->
  option_map redact (find p l1) = option_map redact (find p l2).
Proof.
  intros Hp. revert l2. induction l1 as [|x l1 IH]; intros [|y l2] E; try discriminate.
  - reflexivity.
  - apply redact_cons_inv in E as [Exy E]. simpl.
    rewrite <- (Hp x), <- (Hp y), Exy.
    destruct (p (redact y)); simpl; [congruence | apply IH, E].
Qed.

Lemma post_object_redact (db1 db2 : DB) (p : PostRow) :
  same_but_passwords db1 db2 -> post_object db1 p = post_object db2 p.
Proof.
  intros (U & T & _ & _). unfold post_object, tags_of, find_user_by_id. rewrite T.
  pose proof (find_redact (fun u => String.eqb (u_id u) (p_authorId p))
                _ _ (fun u => eq_refl) U) as F.
  destruct (find _ (users db1)) as [a1|], (find _ (users db2)) as [a2|];
    try discriminate; [|reflexivity].
  apply redact_Some_inv in F.
  replace (author_select a1) with (author_select (redact a1)) by reflexivity.
  rewrite F. reflexivity.
Qed.

Lemma post_objects_redact (db1 db2 : DB) (ps : list PostRow) :
  same_but_passwords db1 db2 -> post_objects db1 ps = post_objects db2 ps.
Proof.
  intros S. induction ps as [|p ps IH]; simpl; [reflexivity|].
  rewrite (post_object_redact _ _ p S), IH. reflexivity.
Qed.

Lemma post_create_redact (db1 db2 : DB) (t c cat a : jsval) (items : list ConnectOrCreate) :
  same_but_passwords db1 db2 ->
  match post_create db1 t c cat a items, post_create db2 t c cat a items with
  | Ok (v1, d1), Ok (v2, d2) => v1 = v2 /\ same_but_passwords d1 d2
  | Throw e1, Throw e2 => e1 = e2
  | _, _ => False
  end.
Proof.
  intros S. pose proof S as (U & T & P & I). unfold post_create.
  destruct t as [| | | |title| |]; try reflexivity.
  destruct c as [| | | |content| |]; try reflexivity.
  destruct cat as [| | | |category| |]; try reflexivity.
  destruct a as [| | | |aid| |]; try reflexivity.
  destruct (checked_items items) as [its|]; try reflexivity.
  destruct (category_ok _); try reflexivity.
  pose proof (find_redact (fun u => String.eqb (u_id u) aid)
                _ _ (fun u => eq_refl) U) as F.
  unfold find_user_by_id.
  destruct (find _ (users db1)) as [a1|], (find _ (users db2)) as [a2|];
    try discriminate; [|reflexivity].
  rewrite T, I, P.
  destruct (connect_or_create its (tags db2) (inserted db2 + 1)%N []) as [[ts n'] linked].
  set (row := {| p_id := new_id (inserted db2); p_title := title; p_content := content;
                 p_category := category; p_rest := post_defaults (inserted db2);
                 p_authorId := aid; p_tags := linked |}).
  set (d1 := {| users := users db1; tags := ts; posts := posts db2 ++ [row];
                inserted := n' |}).
  set (d2 := {| users := users db2; tags := ts; posts := posts db2 ++ [row];
                inserted := n' |}).
  assert (same_but_passwords d1 d2) as S'.
  { split; [exact U|]. split; [reflexivity|]. split; reflexivity. }
  rewrite (post_object_redact d1 d2 row S').
  destruct (post_object d2 row); simpl; auto.
Qed.

(** C7.  Let two storage states differ in password hashes only.  A login
    request that has the same outcome on both (the same status) gets the
    same response; every request to the posts handler gets the same
    response and leaves states that again differ in hashes only; and the
    body of a successful login is the serialisation of the token and of
    the identity projection, which has no password member. *)
Theorem password_never_leaves (db1 db2 : DB) (ev : Event) :
  same_but_passwords db1 db2 ->
  (statusCode (Auth.handler db1 ev) = statusCode (Auth.handler db2 ev) ->
   Auth.handler db1 ev = Auth.handler db2 ev) /\
  (fst (Posts.handler db1 ev) = fst (Posts.handler db2 ev) /\
   same_but_passwords (snd (Posts.handler db1 ev)) (snd (Posts.handler db2 ev))) /\
  (statusCode (Auth.handler db1 ev) = 200 ->
   exists token u,
     In u (users db1) /\
     resp_body (Auth.handler db1 ev) =
     JSON_stringify (JObj [("token", JStr token); ("user", identity_object u)])).
Proof.
  intros S. pose proof S as (U & T & P & I). split; [|split].
  - unfold Auth.handler. destruct (negb _); [reflexivity|].
    unfold Auth.reply.
    destruct (JSON_parse _) as [parsed|]; [simpl|reflexivity].
    destruct (js_get parsed "email") as [email|]; [simpl|reflexivity].
    destruct (js_get parsed "password") as [password|]; [simpl|reflexivity].
    destruct (js_get parsed "action") as [action|]; [simpl|reflexivity].
    destruct (Auth.is_login action); [|reflexivity].
    destruct email as [| | | |email| |]; try reflexivity. simpl.
    pose proof (find_redact (fun u => String.eqb (u_email u) email)
                  _ _ (fun u => eq_refl) U) as F.
    unfold find_user_by_email.
    destruct (find _ (users db1)) as [u1|], (find _ (users db2)) as [u2|];
      try discriminate; [|reflexivity].
    apply redact_Some_inv in F. simpl.
    destruct password as [| | | |password| |]; try reflexivity. simpl.
    destruct (bcrypt_compare password (u_password u1)),
             (bcrypt_compare password (u_password u2));
      simpl; try reflexivity; try discriminate.
    intros _. destruct u1, u2. unfold redact in F. simpl in F.
    injection F as -> -> -> -> ->. reflexivity.
  - unfold Posts.handler, Posts.reply.
    destruct (String.eqb (httpMethod ev) "GET").
    { unfold post_findMany. rewrite P, (post_objects_redact _ _ _ S).
      destruct (post_objects db2 (posts db2)); simpl; auto. }
    destruct (String.eqb (httpMethod ev) "POST"); [|simpl; auto].
    destruct (negb _); [simpl; auto|].
    destruct (JSON_parse _) as [parsed|]; [simpl|simpl; auto].
    destruct (js_get parsed "title") as [title|]; [simpl|simpl; auto].
    destruct (js_get parsed "content") as [content|]; [simpl|simpl; auto].
    destruct (js_get parsed "category") as [category|]; [simpl|simpl; auto].
    destruct (js_get parsed "tags") as [tagv|]; [simpl|simpl; auto].
    destruct (js_get (Posts.decode ev) "userId") as [userId|]; [simpl|simpl; auto].
    destruct (array_map tagv _) as [items|]; [simpl|simpl; auto].
    pose proof (post_create_redact db1 db2 title content category userId items S) as C.
    destruct (post_create db1 _ _ _ _ _) as [[v1 d1]|e1],
             (post_create db2 _ _ _ _ _) as [[v2 d2]|e2]; try contradiction; simpl.
    + destruct C as [-> S']. auto.
    + auto.
  - unfold Auth.handler. destruct (negb _); [simpl; discriminate|].
    unfold Auth.reply.
    destruct (JSON_parse _) as [parsed|]; [simpl|simpl; discriminate].
    destruct (js_get parsed "email") as [email|]; [simpl|simpl; discriminate].
    destruct (js_get parsed "password") as [password|]; [simpl|simpl; discriminate].
    destruct (js_get parsed "action") as [action|]; [simpl|simpl; discriminate].
    destruct (Auth.is_login action); [|simpl; discriminate].
    destruct (user_findUnique db1 email) as [[u|]|] eqn:F; simpl; try discriminate.
    destruct (Auth.compare password (u_password u)) as [[|]|]; simpl; try discriminate.
    intros _. eexists. exists u. split; [|reflexivity].
    destruct email; try discriminate. simpl in F. injection F as F.
    apply find_user_by_email_In in F. tauto.
Qed.
End AuthProperties.

(** ** The client's login request *)

Lemma login_request_body (email password : string) :
  body_or (Api.login_request email password) "{}" =
  JSON_stringify (JObj [("email", JStr email); ("password", JStr password)]).
Proof. reflexivity. Qed.

Lemma login_body_with_action (email password : string) :
  login_body (login_text email password) email password.
Proof.
  eexists. split; [apply parse_stringify_flat; [reflexivity | discriminate]|].
  repeat split; reflexivity.
Qed.

Section LoginRequest.
Context `{Collaborators}.

(** C8 fails on the code.  Whatever the storage holds and whatever email
    and password it is called with, [api.login] sends a body without
    [action]; the login handler answers 400 [Invalid action], and the
    helper raises instead of returning [{token, user}]. *)
Theorem api_login_is_refused (db : DB) (email password : string) :
  Auth.handler db (Api.login_request email password) = invalid_action_response /\
  Api.login db email password = Throw RequestError.
Proof.
  assert (Auth.handler db (Api.login_request email password) = invalid_action_response)
    as E.
  { unfold Auth.handler. cbn [httpMethod Api.login_request String.eqb Ascii.eqb Bool.eqb negb].
    unfold Auth.reply. rewrite login_request_body.
    rewrite parse_stringify_flat by (reflexivity || discriminate). reflexivity. }
  split; [exact E|]. unfold Api.login. rewrite E. reflexivity.
Qed.
End LoginRequest.

(** ** The client helpers *)

(** C5, as the helper behaves.  Without a cached entry, or with an empty
    one, there is no user; an entry that is JSON text yields its value; an
    entry that is not JSON makes [JSON.parse] throw, and the exception
    leaves [getCurrentUser]. *)
Theorem getCurrentUser_cases (localStorage : gmap string string) :
  (localStorage !! "user" = None -> Api.getCurrentUser localStorage = Ok JNull) /\
  (localStorage !! "user" = Some "" -> Api.getCurrentUser localStorage = Ok JNull) /\
  (forall text v,
     localStorage !! "user" = Some text -> JSON_parse text = Ok v ->
     Api.getCurrentUser localStorage = Ok v) /\
  (forall u,
     localStorage !! "user" = Some (JSON_stringify (identity_object u)) ->
     Api.getCurrentUser localStorage = Ok (identity_object u)) /\
  (forall text e,
     localStorage !! "user" = Some text -> text <> "" -> JSON_parse text = Throw e ->
     Api.getCurrentUser localStorage = Throw e).
Proof.
  unfold Api.getCurrentUser. split; [|split; [|split; [|split]]].
  - intros ->. reflexivity.
  - intros ->. reflexivity.
  - intros text v -> P. destruct (String.eqb_spec text "") as [->|_]; [discriminate|exact P].
  - intros u ->.
    unfold identity_object. rewrite parse_stringify_flat.
    + reflexivity.
    + destruct (u_avatarUrl u); reflexivity.
    + discriminate.
  - intros text e -> N P. destruct (String.eqb_spec text ""); [contradiction | exact P].
Qed.

Lemma roles_at_cases (k : string) :
  match roleRank k with
  | Some n => Api.roles_at k = Api.Rank n
  | None =>
      if inherited_name k then exists text, Api.roles_at k = Api.Builtin text
      else Api.roles_at k = Api.Absent
  end.
Proof.
  unfold roleRank, Api.roles_at, inherited_name.
  destruct (Api.rank_of k Api.roles); [reflexivity|].
  destruct (Api.inherited k); [eexists|]; reflexivity.
Qed.

Lemma roleRank_unknown (role : string) :
  role <> "admin" -> role <> "teacher" -> role <> "student" -> roleRank role = None.
Proof.
  intros A T S. unfold roleRank, Api.roles. cbn [Api.rank_of].
  destruct (String.eqb_spec role "admin"); [contradiction|].
  destruct (String.eqb_spec role "teacher"); [contradiction|].
  destruct (String.eqb_spec role "student"); [contradiction|].
  reflexivity.
Qed.

(** C6, as the helper behaves.  Without a cached user the answer is false
    for every required role.  With a cached user whose role is the string
    [role], and unless both [role] and the required role name a property
    that every object inherits, the answer is the comparison of the ranks
    admin 3, teacher 2, student 1, and false as soon as one of the two
    names has no rank; no such call raises.  In particular a teacher is
    granted student and teacher, and refused admin. *)
Theorem hasPermission_ranks (localStorage : gmap string string) (requiredRole : string) :
  (localStorage !! "user" = None ->
   Api.hasPermission localStorage requiredRole = Ok false) /\
  (forall user role,
     Api.getCurrentUser localStorage = Ok user -> truthy user = true ->
     js_get user "role" = Ok (JStr role) ->
     inherited_name role && inherited_name requiredRole = false ->
     Api.hasPermission localStorage requiredRole =
     Ok (match roleRank role, roleRank requiredRole with
         | Some have, Some need => need <=? have
         | _, _ => false
         end)) /\
  (forall user,
     Api.getCurrentUser localStorage = Ok user ->
     js_get user "role" = Ok (JStr "teacher") ->
     Api.hasPermission localStorage "student" = Ok true /\
     Api.hasPermission localStorage "teacher" = Ok true /\
     Api.hasPermission localStorage "admin" = Ok false) /\
  (roleRank "admin" = Some 3 /\ roleRank "teacher" = Some 2 /\ roleRank "student" = Some 1 /\
   forall role, role <> "admin" -> role <> "teacher" -> role <> "student" ->
                roleRank role = None).
Proof.
  split; [|split; [|split]].
  - intros E. unfold Api.hasPermission, Api.getCurrentUser. rewrite E. reflexivity.
  - intros user role U T R I. unfold Api.hasPermission. rewrite U. simpl. rewrite T. simpl.
    rewrite R. simpl. unfold Api.roles_lookup. cbn [Api.to_key].
    pose proof (roles_at_cases role) as Cr. pose proof (roles_at_cases requiredRole) as Cq.
    destruct (roleRank role) as [a|], (roleRank requiredRole) as [b|].
    + rewrite Cr, Cq. reflexivity.
    + rewrite Cr. destruct (inherited_name requiredRole).
      * destruct Cq as [t ->]. reflexivity.
      * rewrite Cq. reflexivity.
    + rewrite Cq. destruct (inherited_name role).
      * destruct Cr as [t ->]. reflexivity.
      * rewrite Cr. reflexivity.
    + destruct (inherited_name role), (inherited_name requiredRole); try discriminate.
      * destruct Cr as [t ->]. rewrite Cq. reflexivity.
      * rewrite Cr. destruct Cq as [t ->]. reflexivity.
      * rewrite Cr, Cq. reflexivity.
  - intros user U R. unfold Api.hasPermission. rewrite U. simpl.
    rewrite (js_get_string_truthy _ _ _ R). simpl. rewrite R. auto.
  - repeat split; try reflexivity. apply roleRank_unknown.
Qed.

(** * Further properties of the handlers and the client *)

(** ** The posts function, request by request *)

Section PostsRequests.
Context `{Collaborators}.

Lemma reply_cases (db db' : DB) (ev : Event) (st : Z) (v : jsval) :
  Posts.reply db ev = Ok (st, v, db') ->
  (st = 200 /\ httpMethod ev = "GET" /\ db' = db) \/
  (st = 401 /\ httpMethod ev = "POST" /\ db' = db /\ v = message "Unauthorized") \/
  (st = 405 /\ httpMethod ev <> "GET" /\ httpMethod ev <> "POST" /\ db' = db) \/
  (st = 201 /\ httpMethod ev = "POST").
Proof.
  unfold Posts.reply. intros E.
  destruct (String.eqb_spec (httpMethod ev) "GET") as [G|G].
  { apply rbind_Ok_inv in E as (l & _ & E). inversion E. auto. }
  destruct (String.eqb_spec (httpMethod ev) "POST") as [M|M].
  - destruct (truthy (Posts.decode ev)); simpl in E.
    + do 7 (apply rbind_Ok_inv in E as (? & _ & E)).
      apply rbind_Ok_inv in E as ([newPost d] & _ & E). inversion E. auto.
    + inversion E. right. left. auto.
  - inversion E. right. right. left. auto.
Qed.

Lemma handler_500 (db db' : DB) (ev : Event) (r : Response) :
  Posts.handler db ev = (r, db') -> statusCode r = 500 -> db' = db.
Proof.
  unfold Posts.handler. intros E S.
  destruct (Posts.reply db ev) as [[[st v] d]|e] eqn:R; simpl in E; injection E as <- <-.
  - simpl in S. subst st.
    destruct (reply_cases _ _ _ _ _ R) as [(?&_)|[(?&_)|[(?&_)|(?&_)]]]; discriminate.
  - reflexivity.
Qed.

(** X1.  The posts function answers with one of five status codes; 200 is
    given to GET alone, 201 and 401 to POST alone, 405 to exactly the other
    methods; and whatever it answers except 201, a 500 included, it hands
    the storage back untouched. *)
Theorem posts_status_discipline (db db' : DB) (ev : Event) (r : Response) :
  Posts.handler db ev = (r, db') ->
  In (statusCode r) [200; 201; 401; 405; 500] /\
  (statusCode r <> 201 -> db' = db) /\
  (statusCode r = 200 -> httpMethod ev = "GET") /\
  (statusCode r = 201 \/ statusCode r = 401 -> httpMethod ev = "POST") /\
  (statusCode r = 405 <-> httpMethod ev <> "GET" /\ httpMethod ev <> "POST").
Proof.
  intros E.
  destruct (Z.eq_dec (statusCode r) 500) as [S5|S5].
  { pose proof (handler_500 _ _ _ _ E S5) as ->. rewrite S5.
    split; [simpl; auto 6|]. split; [reflexivity|]. split; [discriminate|].
    split; [intros [?|?]; discriminate|]. split; [discriminate|].
    intros [G P]. rewrite (handler_other_method _ _ G P) in E.
    injection E as <-. discriminate S5. }
  destruct (handler_inv _ _ _ _ E S5) as (v & R & _).
  destruct (reply_cases _ _ _ _ _ R)
    as [(S & M & D)|[(S & M & D & _)|[(S & G & P & D)|(S & M)]]]; rewrite S.
  - split; [simpl; auto|]. split; [auto|]. split; [auto|].
    split; [intros [?|?]; discriminate|]. split; [discriminate|].
    intros [G _]. contradiction.
  - split; [simpl; auto|]. split; [auto|]. split; [discriminate|].
    split; [auto|]. split; [discriminate|]. intros [_ P]. contradiction.
  - split; [simpl; auto 6|]. split; [auto|]. split; [discriminate|].
    split; [intros [?|?]; discriminate|]. split; auto.
  - split; [simpl; auto|]. split; [intros N; contradiction|]. split; [discriminate|].
    split; [auto|]. split; [discriminate|]. intros [_ P]. contradiction.
Qed.

Lemma handler_keeps_unless_201 (db db' : DB) (ev : Event) (r : Response) :
  Posts.handler db ev = (r, db') -> statusCode r <> 201 -> db' = db.
Proof.
  intros E N.
  destruct (Z.eq_dec (statusCode r) 500) as [S5|S5]; [exact (handler_500 _ _ _ _ E S5)|].
  destruct (handler_inv _ _ _ _ E S5) as (v & R & _).
  destruct (reply_cases _ _ _ _ _ R)
    as [(_ & _ & D)|[(_ & _ & D & _)|[(_ & _ & _ & D)|(S & _)]]]; auto.
  contradiction.
Qed.

Lemma checked_items_inv (l : list jsval) :
  forall its,
    checked_items (map (fun tag => {| where_name := tag; create_name := tag |}) l)
    = Some its ->
    exists names, l = map JStr names /\ its = map (fun n => (n, n)) names.
Proof.
  induction l as [|x l IH]; intros its; cbn [map checked_items where_name create_name].
  - intros E. injection E as <-. exists []. split; reflexivity.
  - destruct x as [| | | |s| |]; try discriminate.
    destruct (checked_items _) as [rest|] eqn:C; [|discriminate].
    intros E. injection E as <-.
    destruct (IH _ eq_refl) as (names & -> & ->).
    exists (s :: names). split; reflexivity.
Qed.

Lemma decode_truthy (ev : Event) :
  truthy (Posts.decode ev) = true ->
  exists token,
    Posts.bearer ev = Some token /\ token <> "" /\
    jwt_verify token Posts.JWT_SECRET = Ok (Posts.decode ev).
Proof.
  unfold Posts.decode, Posts.verifyToken.
  destruct (Posts.bearer ev) as [token|]; [|discriminate].
  destruct (String.eqb_spec token "") as [->|N]; [discriminate|].
  destruct (jwt_verify token Posts.JWT_SECRET) as [payload|e] eqn:V; simpl; [|discriminate].
  intros _. exists token. split; [reflexivity|]. split; [exact N | exact V].
Qed.

(** Everything a 201 reply presupposes and leaves behind. *)
Lemma handler_201_inv (db db' : DB) (ev : Event) (r : Response) :
  Posts.handler db ev = (r, db') -> statusCode r = 201 ->
  exists parsed t c cat aid names v,
    httpMethod ev = "POST" /\
    truthy (Posts.decode ev) = true /\
    JSON_parse (body_or ev "{}") = Ok parsed /\
    js_get parsed "title" = Ok (JStr t) /\
    js_get parsed "content" = Ok (JStr c) /\
    js_get parsed "category" = Ok (JStr cat) /\
    js_get parsed "tags" = Ok (JArr (map JStr names)) /\
    js_get (Posts.decode ev) "userId" = Ok (JStr aid) /\
    category_ok cat = true /\ find_user_by_id db aid <> None /\
    let n := inserted db in
    let out := connect_or_create (map (fun x => (x, x)) names) (tags db) (n + 1)%N [] in
    let row := {| p_id := new_id n; p_title := t; p_content := c;
                  p_category := cat; p_rest := post_defaults n;
                  p_authorId := aid; p_tags := snd out |} in
    db' = {| users := users db; tags := fst (fst out);
             posts := posts db ++ [row]; inserted := snd (fst out) |} /\
    post_object db' row = Ok v /\
    resp_body r = JSON_stringify v.
Proof.
  intros E S.
  destruct (handler_inv _ _ _ _ E) as (v & R & B); [lia|]. rewrite S in R.
  apply reply_201_inv in R
    as (parsed & title & content & category & tagv & userId & items
        & M & T & P & Gt & Gc & Gk & Gg & Gu & I & C).
  apply post_create_inv in C
    as (t & c & cat & aid & its & -> & -> & -> & -> & Ci & Cat & F & Edb & O).
  destruct tagv as [| | | | |arr|]; try discriminate.
  simpl in I. injection I as <-.
  apply checked_items_inv in Ci as (names & -> & ->).
  exists parsed, t, c, cat, aid, names, v. auto 15.
Qed.

Lemma connect_or_create_grows (items : list (string * string)) :
  forall (ts : list TagRow) (n : N) (linked : list string),
  exists fresh,
    fst (fst (connect_or_create items ts n linked)) = ts ++ fresh /\
    snd (fst (connect_or_create items ts n linked)) = (n + N.of_nat (length fresh))%N /\
    ((forall id, In id linked -> exists t, In t ts /\ t_id t = id) ->
     forall id, In id (snd (connect_or_create items ts n linked)) ->
       exists t, In t (ts ++ fresh) /\ t_id t = id).
Proof.
  induction items as [|[w c] items IH]; intros ts n linked; cbn [connect_or_create].
  - exists []. rewrite app_nil_r. simpl. split; [reflexivity|]. split; [lia|]. auto.
  - destruct (find_tag_by_name ts w) as [t|] eqn:F.
    + destruct (IH ts n (link (t_id t) linked)) as (fresh & E1 & E2 & L).
      exists fresh. split; [exact E1|]. split; [exact E2|].
      intros Hl id I. apply L; [|exact I].
      intros id' I'. apply link_In in I' as [->|I']; [|auto].
      exists t. split; [apply (find_tag_Some _ _ _ F) | reflexivity].
    + set (new := {| t_id := new_id n; t_name := c |}).
      destruct (IH (ts ++ [new]) (n + 1)%N (link (t_id new) linked))
        as (fresh & E1 & E2 & L).
      exists (new :: fresh).
      rewrite <- app_assoc in E1, L. simpl in E1, L.
      split; [exact E1|]. split; [rewrite E2; simpl length; lia|].
      intros Hl id I. apply L; [|exact I].
      intros id' I'. apply link_In in I' as [->|I'].
      * exists new. split; [apply in_or_app; right; left; reflexivity | reflexivity].
      * destruct (Hl _ I') as (t & It & Et). exists t.
        split; [apply in_or_app; left; exact It | exact Et].
Qed.

(** X2.  The posts function only ever adds to the storage: users are never
    touched, stored posts and tags keep their place, a request adds one post
    when it is answered 201 and none otherwise, tags are added by a 201
    alone, and the insertion counter advances by exactly the number of rows
    added. *)
Theorem posts_storage_grows (db db' : DB) (ev : Event) (r : Response) :
  Posts.handler db ev = (r, db') ->
  users db' = users db /\
  exists new fresh,
    posts db' = posts db ++ new /\
    tags db' = tags db ++ fresh /\
    length new = (if (statusCode r =? 201)%Z then 1%nat else 0%nat) /\
    (statusCode r <> 201 -> fresh = []) /\
    inserted db' = (inserted db + N.of_nat (length new + length fresh))%N.
Proof.
  intros E.
  destruct (Z.eqb_spec (statusCode r) 201) as [S|S].
  - destruct (handler_201_inv _ _ _ _ E S)
      as (parsed & t & c & cat & aid & names & v & _ & _ & _ & _ & _ & _ & _ & _ & _ & _
          & Edb & _ & _).
    cbv zeta in Edb.
    destruct (connect_or_create_grows (map (fun x => (x, x)) names) (tags db)
                (inserted db + 1)%N []) as (fresh & E1 & E2 & _).
    rewrite E1, E2 in Edb. subst db'. simpl.
    split; [reflexivity|]. eexists. exists fresh.
    split; [reflexivity|]. split; [reflexivity|]. split; [reflexivity|].
    split; [intros N; contradiction|]. simpl length. lia.
  - rewrite (handler_keeps_unless_201 _ _ _ _ E S).
    split; [reflexivity|]. exists [], [].
    rewrite !app_nil_r. simpl.
    split; [reflexivity|]. split; [reflexivity|]. split; [reflexivity|].
    split; [reflexivity|]. lia.
Qed.

(** X3.  A 201 is given only to a request that carries a token which
    verifies to a payload naming a stored user, with a body that is JSON for
    string fields title, content, category and a list of tag names, and a
    category the storage layer accepts. *)
Theorem created_only_if (db db' : DB) (ev : Event) (r : Response) :
  Posts.handler db ev = (r, db') -> statusCode r = 201 ->
  exists uid title content category names,
    httpMethod ev = "POST" /\
    verified_as ev uid /\
    find_user_by_id db uid <> None /\
    create_body (body_or ev "{}") title content category names /\
    category_ok category = true.
Proof.
  intros E S.
  destruct (handler_201_inv _ _ _ _ E S)
    as (parsed & t & c & cat & aid & names & v & M & T & P & Gt & Gc & Gk & Gg & Gu
        & Cat & F & _).
  destruct (decode_truthy _ T) as (token & B & N & V).
  exists aid, t, c, cat, names.
  split; [exact M|]. split; [exists token, (Posts.decode ev); auto|].
  split; [exact F|]. split; [exists parsed; auto|]. exact Cat.
Qed.

(** X4.  The row an accepted create stores is made of the title, content and
    category of the body, the id the generator hands out for the current
    count of insertions, and the defaults of the schema; the reply is that
    row as the storage layer shows it. *)
Theorem created_row (db db' : DB) (ev : Event) (r : Response)
    (title content category : string) (names : list string) :
  create_body (body_or ev "{}") title content category names ->
  Posts.handler db ev = (r, db') -> statusCode r = 201 ->
  exists row v,
    posts db' = posts db ++ [row] /\
    p_id row = new_id (inserted db) /\
    p_title row = title /\ p_content row = content /\ p_category row = category /\
    p_rest row = post_defaults (inserted db) /\
    post_object db' row = Ok v /\
    resp_body r = JSON_stringify v.
Proof.
  intros (parsed0 & P0 & Gt0 & Gc0 & Gk0 & _) E S.
  destruct (handler_201_inv _ _ _ _ E S)
    as (parsed & t & c & cat & aid & names' & v & _ & _ & P & Gt & Gc & Gk & _ & _
        & _ & _ & Edb & O & B).
  rewrite P0 in P. injection P as <-.
  rewrite Gt0 in Gt. injection Gt as <-.
  rewrite Gc0 in Gc. injection Gc as <-.
  rewrite Gk0 in Gk. injection Gk as <-.
  cbv zeta in Edb, O.
  eexists. exists v. split; [rewrite Edb; reflexivity|]. simpl. auto 10.
Qed.

(** X5.  A create from a caller whose token decodes, but which the handler
    cannot carry out (a body that is not JSON or lacks a string field or the
    list of tags, an author who is not stored, a category the storage layer
    refuses), is answered 500, not 400 or 401, and nothing is stored. *)
Theorem rejected_create_is_500 (db : DB) (ev : Event) :
  httpMethod ev = "POST" -> truthy (Posts.decode ev) = true ->
  ~ (exists uid title content category names,
       verified_as ev uid /\ find_user_by_id db uid <> None /\
       create_body (body_or ev "{}") title content category names /\
       category_ok category = true) ->
  Posts.handler db ev = (internal_error_response, db).
Proof.
  intros M T No.
  destruct (Posts.handler db ev) as [r db'] eqn:E.
  destruct (Z.eq_dec (statusCode r) 201) as [S|S].
  - contradiction No.
    destruct (handler_201_inv _ _ _ _ E S)
      as (parsed & t & c & cat & aid & names & v & _ & _ & P & Gt & Gc & Gk & Gg & Gu
          & Cat & F & _).
    destruct (decode_truthy _ T) as (token & B & N & V).
    exists aid, t, c, cat, names.
    split; [exists token, (Posts.decode ev); auto|].
    split; [exact F|]. split; [exists parsed; auto | exact Cat].
  - unfold Posts.handler in E.
    destruct (Posts.reply db ev) as [[[st v] d]|e] eqn:R; simpl in E.
    + injection E as <- <-. simpl in S.
      unfold Posts.reply in R. rewrite M, T in R. simpl in R.
      do 7 (apply rbind_Ok_inv in R as (? & _ & R)).
      apply rbind_Ok_inv in R as ([newPost d'] & _ & R). inversion R. congruence.
    + injection E as <- <-. reflexivity.
Qed.

Lemma handler_keeps_ok (db db' : DB) (ev : Event) (r : Response) :
  ids_never_repeat -> store_ok db -> posts_ok db ->
  Posts.handler db ev = (r, db') -> store_ok db' /\ posts_ok db'.
Proof.
  intros Inj St (Np & Fp) E.
  destruct (Z.eq_dec (statusCode r) 201) as [S|S];
    [|rewrite (handler_keeps_unless_201 _ _ _ _ E S); split; [exact St | split; assumption]].
  destruct (handler_201_inv _ _ _ _ E S)
    as (parsed & t & c & cat & aid & names & v & _ & _ & _ & _ & _ & _ & _ & _ & _ & _
        & Edb & _ & _).
  cbv zeta in Edb.
  destruct (connect_or_create_spec names (tags db) (inserted db + 1)%N [] Inj)
    as (fresh & n' & linked' & Ec & _ & Ok' & _ & _).
  { apply (tags_ok_later _ (inserted db)); [lia | exact St]. }
  destruct (connect_or_create_grows (map (fun x => (x, x)) names) (tags db)
              (inserted db + 1)%N []) as (fresh' & _ & E2 & _).
  rewrite Ec in Edb, E2. simpl in Edb, E2. subst db'.
  split; [exact Ok'|]. unfold posts_ok. simpl. rewrite map_app. simpl. split.
  - apply List.NoDup_app; [exact Np | repeat constructor; simpl; tauto |].
    intros x I [<-|[]]. apply in_map_iff in I as (p & Ep & I).
    apply (Fp p (inserted db) I); [lia | exact Ep].
  - intros p k I L. apply in_app_iff in I as [I|[<-|[]]].
    + apply Fp; [exact I | lia].
    + simpl. intros Eid. apply Inj in Eid. lia.
Qed.

(** X6.  However many requests the posts function serves, and whatever they
    are, tag names, tag ids and post ids stay unique and no stored row
    carries an id the generator has yet to hand out. *)
Theorem serve_keeps_ids_unique (evs : list Event) (db : DB) :
  ids_never_repeat -> store_ok db -> posts_ok db ->
  store_ok (serve db evs) /\ posts_ok (serve db evs).
Proof.
  intros Inj. revert db. induction evs as [|ev evs IH]; intros db St Po; simpl.
  - split; assumption.
  - destruct (Posts.handler db ev) as [r db'] eqn:E. simpl.
    destruct (handler_keeps_ok _ _ _ _ Inj St Po E) as [St' Po']. apply IH; assumption.
Qed.

Lemma handler_keeps_references (db db' : DB) (ev : Event) (r : Response) :
  authors_exist db -> tag_links_exist db ->
  Posts.handler db ev = (r, db') -> authors_exist db' /\ tag_links_exist db'.
Proof.
  intros Au Tl E.
  destruct (Z.eq_dec (statusCode r) 201) as [S|S];
    [|rewrite (handler_keeps_unless_201 _ _ _ _ E S); split; assumption].
  destruct (handler_201_inv _ _ _ _ E S)
    as (parsed & t & c & cat & aid & names & v & _ & _ & _ & _ & _ & _ & _ & _ & _ & F
        & Edb & _ & _).
  cbv zeta in Edb.
  destruct (connect_or_create_grows (map (fun x => (x, x)) names) (tags db)
              (inserted db + 1)%N []) as (fresh & E1 & _ & L).
  rewrite E1 in Edb. subst db'. split.
  - intros p I. simpl in I. apply in_app_iff in I as [I|[<-|[]]].
    + apply (Au p I).
    + exact F.
  - intros p id I Iid. simpl in I. simpl tags. apply in_app_iff in I as [I|[<-|[]]].
    + destruct (Tl p id I Iid) as (tg & It & Et). exists tg.
      split; [apply in_or_app; left; exact It | exact Et].
    + simpl in Iid. apply L; [intros ? []|exact Iid].
Qed.

(** X7.  No request leaves a dangling reference behind: after any run of
    requests every post still names a stored user as its author, and every
    tag id a post carries is the id of a stored tag. *)
Theorem serve_keeps_references (evs : list Event) (db : DB) :
  authors_exist db -> tag_links_exist db ->
  authors_exist (serve db evs) /\ tag_links_exist (serve db evs).
Proof.
  revert db. induction evs as [|ev evs IH]; intros db Au Tl; simpl.
  - split; assumption.
  - destruct (Posts.handler db ev) as [r db'] eqn:E. simpl.
    destruct (handler_keeps_references _ _ _ _ Au Tl E) as [Au' Tl']. apply IH; assumption.
Qed.

Lemma post_objects_succeed (db : DB) (ps : list PostRow) :
  (forall p, In p ps -> find_user_by_id db (p_authorId p) <> None) ->
  exists l, post_objects db ps = Ok l.
Proof.
  induction ps as [|p ps IH]; simpl; intros A; [eauto|].
  destruct (post_object_same_users db db p eq_refl (A p (or_introl eq_refl))) as [o Ho].
  rewrite Ho. simpl.
  destruct (IH (fun q I => A q (or_intror I))) as [l Hl]. rewrite Hl. simpl. eauto.
Qed.

Lemma serve_keeps_authors (evs : list Event) (db : DB) :
  authors_exist db -> authors_exist (serve db evs).
Proof.
  revert db. induction evs as [|ev evs IH]; intros db Au; simpl; [exact Au|].
  apply IH. destruct (Posts.handler db ev) as [r db'] eqn:E. simpl.
  destruct (Z.eq_dec (statusCode r) 201) as [S|S];
    [|rewrite (handler_keeps_unless_201 _ _ _ _ E S); exact Au].
  destruct (handler_201_inv _ _ _ _ E S)
    as (parsed & t & c & cat & aid & names & v & _ & _ & _ & _ & _ & _ & _ & _ & _ & F
        & Edb & _ & _).
  cbv zeta in Edb. subst db'. intros p I. simpl in I.
  apply in_app_iff in I as [I|[<-|[]]]; [apply (Au p I) | exact F].
Qed.

(** X8.  The list is open to anybody and reading it changes nothing: the
    reply to a GET is that to a GET without header and body, and the
    storage is handed back as it was.  In a storage whose posts name
    stored authors, and in every storage that a run of requests makes of
    it, the reply is a 200 with one article for each stored post, in the
    order of the posts, each with the public fields of the user its post
    names as author. *)
Theorem listing_is_open (db : DB) (ev : Event) :
  httpMethod ev = "GET" ->
  snd (Posts.handler db ev) = db /\
  Posts.handler db ev = Posts.handler db ev_list /\
  (authors_exist db ->
   forall evs, exists l,
     fst (Posts.handler (serve db evs) ev)
     = {| statusCode := 200; resp_body := JSON_stringify (JArr l) |} /\
     Forall2 (article_of (serve db evs)) (posts (serve db evs)) l).
Proof.
  intros M.
  assert (forall d, Posts.handler d ev =
          match post_findMany d with
          | Ok l => ({| statusCode := 200; resp_body := JSON_stringify (JArr l) |}, d)
          | Throw _ => (internal_error_response, d)
          end) as E.
  { intros d. unfold Posts.handler, Posts.reply. rewrite M. simpl.
    destruct (post_findMany d); reflexivity. }
  split; [|split].
  - rewrite E. destruct (post_findMany db); reflexivity.
  - rewrite E. unfold Posts.handler, Posts.reply. simpl.
    destruct (post_findMany db); reflexivity.
  - intros Au evs. pose proof (serve_keeps_authors evs db Au) as Au'.
    destruct (post_objects_succeed _ _ Au') as [l F].
    exists l. rewrite E. unfold post_findMany. rewrite F. simpl.
    split; [reflexivity | apply post_objects_articles, F].
Qed.

Lemma handler_post_count (db : DB) (ev : Event) :
  length (posts (snd (Posts.handler db ev))) =
  (length (posts db)
   + if (statusCode (fst (Posts.handler db ev)) =? 201)%Z then 1 else 0)%nat.
Proof.
  destruct (Posts.handler db ev) as [r db'] eqn:E. simpl.
  destruct (Z.eqb_spec (statusCode r) 201) as [S|S].
  - destruct (handler_201_inv _ _ _ _ E S)
      as (parsed & t & c & cat & aid & names & v & _ & _ & _ & _ & _ & _ & _ & _ & _ & _
          & Edb & _ & _).
    cbv zeta in Edb. subst db'. simpl. rewrite length_app. reflexivity.
  - rewrite (handler_keeps_unless_201 _ _ _ _ E S). lia.
Qed.

(** X9.  After any run of requests the storage holds as many posts as it
    held before and as 201 replies were given during the run. *)
Theorem serve_counts_created (evs : list Event) (db : DB) :
  length (posts (serve db evs)) =
  (length (posts db) + count_occ Z.eq_dec (statuses db evs) 201%Z)%nat.
Proof.
  revert db. induction evs as [|ev evs IH]; intros db; simpl.
  - lia.
  - rewrite IH, handler_post_count.
    destruct (Z.eq_dec (statusCode (fst (Posts.handler db ev))) 201) as [S|S].
    + rewrite S. simpl. lia.
    + destruct (Z.eqb_spec (statusCode (fst (Posts.handler db ev))) 201);
        [contradiction | lia].
Qed.

End PostsRequests.

(** ** The login function, request by request *)

Section AuthRequests.
Context `{Collaborators}.

Lemma is_login_inv (action : jsval) :
  Auth.is_login action = true -> action = JStr "login".
Proof.
  destruct action as [| | | |a| |]; try discriminate. simpl.
  destruct (String.eqb_spec a "login") as [->|]; [reflexivity | discriminate].
Qed.

Lemma auth_reply_cases (db : DB) (ev : Event) (st : Z) (v : jsval) :
  Auth.reply db ev = Ok (st, v) ->
  (st = 400 /\ v = message "Invalid action") \/
  (st = 401 /\ v = message "Invalid credentials") \/
  (st = 200 /\
   exists u password,
     login_body (body_or ev "{}") (u_email u) password /\
     In u (users db) /\
     bcrypt_compare password (u_password u) = true /\
     v = JObj [("token", JStr (jwt_sign (JObj [("userId", JStr (u_id u))]) Auth.JWT_SECRET));
               ("user", JObj (obj_set (user_object u) "password" JUndefined))]).
Proof.
  unfold Auth.reply. intros E.
  apply rbind_Ok_inv in E as (parsed & P & E).
  apply rbind_Ok_inv in E as (email & Ge & E).
  apply rbind_Ok_inv in E as (password & Gp & E).
  apply rbind_Ok_inv in E as (action & Ga & E).
  destruct (Auth.is_login action) eqn:L; [|inversion E; auto].
  apply is_login_inv in L. subst action.
  apply rbind_Ok_inv in E as (user & F & E).
  destruct email as [| | | |e| |]; try discriminate. simpl in F. injection F as <-.
  destruct (find_user_by_email db e) as [u|] eqn:Fu; [|inversion E; auto].
  apply rbind_Ok_inv in E as (same & C & E).
  destruct password as [| | | |p| |]; try discriminate. simpl in C. injection C as <-.
  destruct (bcrypt_compare p (u_password u)) eqn:B; simpl in E; [|inversion E; auto].
  inversion E. right. right. split; [reflexivity|].
  apply find_user_by_email_In in Fu as [I Eu]. subst e.
  exists u, p. split; [exists parsed; auto|]. auto.
Qed.

(** X10.  The login function answers with one of five status codes; 405 goes
    to exactly the requests that are not a POST; and except for a 200 the
    status fixes the whole reply, so that a refusal tells nothing about the
    storage beyond its status. *)
Theorem login_status_discipline (db : DB) (ev : Event) :
  In (statusCode (Auth.handler db ev)) [200; 400; 401; 405; 500] /\
  (statusCode (Auth.handler db ev) = 405 <-> httpMethod ev <> "POST") /\
  (statusCode (Auth.handler db ev) = 400 -> Auth.handler db ev = invalid_action_response) /\
  (statusCode (Auth.handler db ev) = 401 ->
   Auth.handler db ev = invalid_credentials_response) /\
  (statusCode (Auth.handler db ev) = 405 ->
   Auth.handler db ev = method_not_allowed_response) /\
  (statusCode (Auth.handler db ev) = 500 ->
   resp_body (Auth.handler db ev) = JSON_stringify (message "Internal server error")).
Proof.
  unfold Auth.handler.
  destruct (String.eqb_spec (httpMethod ev) "POST") as [M|M]; simpl.
  - destruct (Auth.reply db ev) as [[st v]|e] eqn:R; simpl.
    + destruct (auth_reply_cases _ _ _ _ R) as [(-> & ->)|[(-> & ->)|(-> & _)]].
      * split; [auto|]. split; [split; [discriminate | contradiction]|].
        split; [reflexivity|]. repeat (split; [discriminate|]). discriminate.
      * split; [auto|]. split; [split; [discriminate | contradiction]|].
        split; [discriminate|]. split; [reflexivity|]. split; discriminate.
      * split; [auto|]. split; [split; [discriminate | contradiction]|].
        repeat (split; [discriminate|]). discriminate.
    + split; [auto 6|]. split; [split; [discriminate | contradiction]|].
      repeat (split; [discriminate|]). reflexivity.
  - split; [auto 6|]. split; [split; auto|].
    split; [discriminate|]. split; [discriminate|]. split; [reflexivity | discriminate].
Qed.

(** X11.  A 200 of the login function is sound: the request was a POST whose
    body is JSON with the action login, the email of a stored user and a
    password that bcrypt accepts against the hash stored for that user; the
    reply carries a token signed for that user's id and the user without the
    password. *)
Theorem login_sound (db : DB) (ev : Event) :
  statusCode (Auth.handler db ev) = 200 ->
  httpMethod ev = "POST" /\
  exists u password,
    login_body (body_or ev "{}") (u_email u) password /\
    In u (users db) /\
    bcrypt_compare password (u_password u) = true /\
    resp_body (Auth.handler db ev) =
    JSON_stringify
      (JObj [("token", JStr (jwt_sign (JObj [("userId", JStr (u_id u))]) Auth.JWT_SECRET));
             ("user", identity_object u)]).
Proof.
  unfold Auth.handler.
  destruct (String.eqb_spec (httpMethod ev) "POST") as [M|M]; simpl; [|discriminate].
  destruct (Auth.reply db ev) as [[st v]|e] eqn:R; simpl; [|discriminate].
  intros ->. split; [exact M|].
  destruct (auth_reply_cases _ _ _ _ R) as [(S & _)|[(S & _)|(_ & u & p & B & I & C & ->)]];
    try discriminate.
  exists u, p. split; [exact B|]. split; [exact I|]. split; [exact C | reflexivity].
Qed.

(** X12.  From login to publication: the token that a successful login hands
    out, once cached by the client, makes [api.createPost] a request that
    the posts function accepts and files under the user who logged in. *)
Theorem login_then_create (db : DB) (login : Event) (u : UserRow) (password : string)
    (localStorage : gmap string string) (data : jsval)
    (title content category : string) (names : list string) :
  let token := jwt_sign (JObj [("userId", JStr (u_id u))]) Auth.JWT_SECRET in
  httpMethod login = "POST" ->
  login_body (body_or login "{}") (u_email u) password ->
  emails_unique db -> In u (users db) ->
  bcrypt_compare password (u_password u) = true ->
  sign_verify_roundtrip (u_id u) ->
  no_space token = true -> token <> "" ->
  localStorage !! "token" = Some token ->
  create_body (JSON_stringify data) title content category names ->
  category_ok category = true ->
  Auth.handler db login =
    {| statusCode := 200;
       resp_body := JSON_stringify
         (JObj [("token", JStr token); ("user", identity_object u)]) |} /\
  exists r db' row,
    Posts.handler db (Api.createPost_request localStorage data) = (r, db') /\
    statusCode r = 201 /\
    posts db' = posts db ++ [row] /\
    p_authorId row = u_id u /\ p_title row = title.
Proof.
  intros token M B U I C (payload & V & G) Ns Ne L CB Cat. split.
  - unfold Auth.handler. rewrite M. simpl. rewrite (reply_login _ _ _ _ B).
    rewrite (find_user_by_email_unique _ _ U I), C. reflexivity.
  - set (ev := Api.createPost_request localStorage data).
    assert (Posts.bearer ev = Some token) as Bt.
    { unfold ev, Api.createPost_request, Posts.bearer, Api.getAuthHeaders. simpl.
      rewrite L. destruct (String.eqb_spec token ""); [contradiction|].
      apply (bearer_of_header ev token Ns). }
    assert (Posts.decode ev = payload) as D.
    { apply (verified_decode ev token); [exact Bt | exact Ne |].
      rewrite same_secret. exact V. }
    assert (find_user_by_id db (u_id u) <> None) as F.
    { unfold find_user_by_id. intros N.
      apply (find_none _ _ N u) in I. rewrite String.eqb_refl in I. discriminate. }
    assert (body_or ev "{}" = JSON_stringify data) as Bo.
    { unfold body_or, ev. simpl.
      destruct (String.eqb_spec (JSON_stringify data) "") as [Em|]; [|reflexivity].
      destruct CB as (parsed0 & P0 & _). rewrite Em in P0. discriminate. }
    destruct (reply_create_succeeds db ev (u_id u) title content category names)
      as (v & db' & R); auto.
    { rewrite D. exact G. }
    { rewrite Bo. exact CB. }
    pose proof R as R'.
    apply reply_201_inv in R'
      as (parsed & title' & content' & category' & tagv & userId & items
          & _ & _ & P & Gt & _ & _ & _ & Gu & _ & Cr).
    rewrite D, G in Gu. injection Gu as <-.
    destruct CB as (parsed0 & P0 & Gt0 & _). rewrite Bo, P0 in P. injection P as <-.
    rewrite Gt0 in Gt. injection Gt as <-.
    apply post_create_inv in Cr
      as (t & c & cat & aid & its & Et & _ & _ & Ea & _ & _ & _ & Edb & _).
    injection Et as <-. injection Ea as <-. cbv zeta in Edb.
    eexists. exists db'. eexists.
    split; [unfold Posts.handler; rewrite R; reflexivity|].
    split; [reflexivity|]. split; [rewrite Edb; reflexivity|]. split; reflexivity.
Qed.

End AuthRequests.

(** ** The client's calls against the two functions *)

Lemma split_space_head (t : string) : exists x rest, split_space t = x :: rest.
Proof.
  induction t as [|c t (x & rest & IH)]; simpl; [eauto|].
  destruct (Ascii.eqb c " "); [eauto|]. rewrite IH. eauto.
Qed.

Lemma body_or_empty_object (ev : Event) :
  body ev = None -> JSON_parse (body_or ev "{}") = Ok (JObj []).
Proof. unfold body_or. intros ->. reflexivity. Qed.

Section ClientCalls.
Context `{Collaborators}.

Lemma bearer_of_cache (localStorage : gmap string string) (ev : Event) :
  authorization ev = Api.getAuthHeaders localStorage ->
  Posts.bearer ev =
  match localStorage !! "token" with
  | Some token => if String.eqb token "" then None else nth_error (split_space token) 0
  | None => None
  end.
Proof.
  unfold Posts.bearer, Api.getAuthHeaders. intros ->.
  destruct (localStorage !! "token") as [token|]; [|reflexivity].
  destruct (String.eqb token ""); reflexivity.
Qed.

Lemma anonymous_decode (localStorage : gmap string string) (ev : Event) :
  authorization ev = Api.getAuthHeaders localStorage ->
  Api.isAuthenticated localStorage = false ->
  Posts.decode ev = JNull.
Proof.
  intros A N. unfold Posts.decode, Posts.bearer. rewrite A.
  unfold Api.getAuthHeaders. unfold Api.isAuthenticated in N.
  destruct (localStorage !! "token") as [t|]; [|reflexivity].
  destruct (String.eqb t ""); [reflexivity | discriminate].
Qed.

(** X13.  What the server makes of the header the client builds: there is a
    header exactly when [isAuthenticated] holds; without one the request is
    anonymous; with one the server takes the cached token up to its first
    space, which is the whole token when it has no space. *)
Theorem header_round_trip (localStorage : gmap string string) (ev : Event) :
  authorization ev = Api.getAuthHeaders localStorage ->
  (authorization ev = None <-> Api.isAuthenticated localStorage = false) /\
  (Api.isAuthenticated localStorage = false ->
   Posts.bearer ev = None /\ Posts.decode ev = JNull) /\
  (forall token,
     localStorage !! "token" = Some token -> token <> "" ->
     authorization ev = Some ("Bearer " +:+ token) /\
     Posts.bearer ev = nth_error (split_space token) 0 /\
     Posts.bearer ev <> None /\
     (no_space token = true ->
      Posts.bearer ev = Some token /\ Posts.decode ev = Posts.verifyToken token)).
Proof.
  intros A. pose proof (bearer_of_cache _ _ A) as B.
  unfold Posts.decode. rewrite B, A. clear B A.
  unfold Api.getAuthHeaders, Api.isAuthenticated.
  destruct (localStorage !! "token") as [t|].
  - destruct (String.eqb_spec t "") as [->|N]; simpl.
    + split; [split; reflexivity|]. split; [split; reflexivity|].
      intros token E. injection E as <-. intros C. contradiction.
    + split; [split; discriminate|]. split; [discriminate|].
      intros token E. injection E as <-. intros _.
      split; [reflexivity|]. split; [reflexivity|].
      destruct (split_space_head t) as (x & rest & S). rewrite S. simpl.
      split; [discriminate|]. intros Ns.
      rewrite (split_space_no_space _ Ns) in S. injection S as <- _.
      destruct (String.eqb_spec t ""); [contradiction|]. split; reflexivity.
  - split; [split; reflexivity|]. split; [split; reflexivity|]. discriminate.
Qed.

Lemma call_refused (db : DB) (ev : Event) (r : Response) :
  Posts.handler db ev = (r, db) ->
  (200 <=? statusCode r) && (statusCode r <=? 299) = false ->
  Api.call db ev = (Throw RequestError, db).
Proof.
  intros E S. unfold Api.call, Api.handleResponse. rewrite E. simpl. rewrite S. reflexivity.
Qed.

(** X14.  [api.updatePost] and [api.deletePost] can never succeed against
    this server: the posts function answers PUT and DELETE with 405, whoever
    asks, so both calls raise and the storage stays as it was. *)
Theorem update_and_delete_unsupported (db : DB) (localStorage : gmap string string)
    (data : jsval) :
  Posts.handler db (Api.updatePost_request localStorage data)
  = (method_not_allowed_response, db) /\
  Posts.handler db (Api.deletePost_request localStorage)
  = (method_not_allowed_response, db) /\
  Api.updatePost db localStorage data = (Throw RequestError, db) /\
  Api.deletePost db localStorage = (Throw RequestError, db).
Proof.
  assert (forall ev, httpMethod ev = "PUT" \/ httpMethod ev = "DELETE" ->
            Posts.handler db ev = (method_not_allowed_response, db)) as E.
  { intros ev [M|M]; apply handler_other_method; rewrite M; discriminate. }
  split; [apply E; left; reflexivity|]. split; [apply E; right; reflexivity|].
  split; (apply (call_refused _ _ method_not_allowed_response); [apply E; auto | reflexivity]).
Qed.

Lemma post_without_tags (db : DB) (ev : Event) (props : list (string * jsval)) :
  httpMethod ev = "POST" ->
  JSON_parse (body_or ev "{}") = Ok (JObj props) -> assoc "tags" props = None ->
  exists r, Posts.handler db ev = (r, db) /\ (statusCode r = 401 \/ statusCode r = 500).
Proof.
  intros M P T. unfold Posts.handler, Posts.reply. rewrite M. simpl.
  destruct (truthy (Posts.decode ev)) eqn:D; simpl; [|eauto].
  rewrite P. simpl. rewrite T.
  destruct (Posts.decode ev); try discriminate; simpl; eauto.
Qed.

Lemma post_without_body (db : DB) (ev : Event) :
  httpMethod ev = "POST" -> body ev = None ->
  exists r, Posts.handler db ev = (r, db) /\ (statusCode r = 401 \/ statusCode r = 500).
Proof.
  intros M B. apply (post_without_tags db ev []); [exact M | | reflexivity].
  apply body_or_empty_object, B.
Qed.

(** X15.  [api.likePost] can never succeed against this server: it sends a
    POST without a body, which the posts function takes for a create; an
    anonymous caller is answered 401, and for any other the missing tags
    make the handler fail with 500.  No like is recorded and no post is
    created. *)
Theorem likePost_never_succeeds (db : DB) (localStorage : gmap string string) :
  Api.likePost db localStorage = (Throw RequestError, db) /\
  (Api.isAuthenticated localStorage = false ->
   Posts.handler db (Api.likePost_request localStorage) = (unauthorized_response, db)) /\
  (truthy (Posts.decode (Api.likePost_request localStorage)) = true ->
   statusCode (fst (Posts.handler db (Api.likePost_request localStorage))) = 500).
Proof.
  split; [|split].
  - destruct (post_without_body db (Api.likePost_request localStorage) eq_refl eq_refl)
      as (r & E & S).
    apply (call_refused _ _ r E). destruct S as [-> | ->]; reflexivity.
  - intros A. apply handler_unauthenticated_post; [reflexivity|].
    rewrite (anonymous_decode localStorage); auto.
  - intros T. unfold Posts.handler, Posts.reply.
    cbn [httpMethod Api.likePost_request String.eqb Ascii.eqb Bool.eqb]. rewrite T. simpl.
    destruct (Posts.decode _); try discriminate; reflexivity.
Qed.

(** X16.  [api.createComment] can never succeed against this server either:
    its POST reaches the posts function, which takes it for a create without
    tags; the reply is 401 or 500, the call raises, and neither a comment
    nor a post is stored. *)
Theorem createComment_never_succeeds (db : DB) (localStorage : gmap string string)
    (content : string) :
  Api.createComment db localStorage content = (Throw RequestError, db) /\
  exists r,
    Posts.handler db (Api.createComment_request localStorage content) = (r, db) /\
    (statusCode r = 401 \/ statusCode r = 500) /\
    (Api.isAuthenticated localStorage = false -> r = unauthorized_response).
Proof.
  set (ev := Api.createComment_request localStorage content).
  assert (JSON_parse (body_or ev "{}") = Ok (JObj [("content", JStr content)])) as P.
  { change (body_or ev "{}") with (JSON_stringify (JObj [("content", JStr content)])).
    rewrite parse_stringify_flat by (reflexivity || discriminate). reflexivity. }
  destruct (post_without_tags db ev _ eq_refl P eq_refl) as (r & E & S).
  split.
  - apply (call_refused _ _ r E). destruct S as [-> | ->]; reflexivity.
  - exists r. split; [exact E|]. split; [exact S|].
    intros A. rewrite (handler_unauthenticated_post db ev eq_refl) in E.
    + injection E as <-. reflexivity.
    + rewrite (anonymous_decode localStorage); auto.
Qed.

(** X17.  Without a cached token [api.createPost] is refused whatever it
    sends: the posts function answers 401, the call raises, nothing is
    stored. *)
Theorem anonymous_create_refused (db : DB) (localStorage : gmap string string)
    (data : jsval) :
  Api.isAuthenticated localStorage = false ->
  Posts.handler db (Api.createPost_request localStorage data) = (unauthorized_response, db) /\
  Api.createPost db localStorage data = (Throw RequestError, db).
Proof.
  intros A.
  assert (Posts.handler db (Api.createPost_request localStorage data)
          = (unauthorized_response, db)) as E.
  { apply handler_unauthenticated_post; [reflexivity|].
    rewrite (anonymous_decode localStorage); auto. }
  split; [exact E|]. apply (call_refused _ _ _ E). reflexivity.
Qed.

(** A POST that is answered with a success status, or that changes the
    storage, was answered 201. *)
Lemma post_call_201 (db db' : DB) (ev : Event) (r : Response) :
  Posts.handler db ev = (r, db') -> httpMethod ev = "POST" ->
  (exists v, Api.handleResponse r = Ok v) \/ db' <> db ->
  statusCode r = 201.
Proof.
  intros E M Hyp.
  destruct (Z.eq_dec (statusCode r) 201) as [S|S]; [exact S|].
  pose proof (handler_keeps_unless_201 _ _ _ _ E S) as ->.
  destruct Hyp as [[v Hv]|N]; [|contradiction].
  unfold Api.handleResponse in Hv.
  destruct (Z.eq_dec (statusCode r) 500) as [S5|S5]; [rewrite S5 in Hv; discriminate|].
  destruct (handler_inv _ _ _ _ E S5) as (w & R & _).
  destruct (reply_cases _ _ _ _ _ R)
    as [(S' & G & _)|[(S' & _)|[(S' & _)|(S' & _)]]];
    try (rewrite S' in Hv; discriminate Hv); try contradiction.
  rewrite M in G. discriminate G.
Qed.

(** X18.  When [api.createPost] returns a value, or leaves the storage other
    than it found it, the caller had a token cached and the storage gained
    exactly one post and nothing else changed hands: no user was added. *)
Theorem createPost_returns_only_if_stored (db db' : DB)
    (localStorage : gmap string string) (data : jsval) (answer : result jsval) :
  Api.createPost db localStorage data = (answer, db') ->
  (exists v, answer = Ok v) \/ db' <> db ->
  Api.isAuthenticated localStorage = true /\
  exists row, posts db' = posts db ++ [row] /\ users db' = users db.
Proof.
  unfold Api.createPost, Api.call.
  destruct (Posts.handler db (Api.createPost_request localStorage data)) as [r d] eqn:E.
  simpl. intros Eq. injection Eq as <- <-. intros Hyp.
  pose proof (post_call_201 _ _ _ _ E eq_refl Hyp) as S.
  split.
  - destruct (Api.isAuthenticated localStorage) eqn:A; [reflexivity|].
    rewrite (handler_unauthenticated_post db
               (Api.createPost_request localStorage data) eq_refl) in E.
    + injection E as <- <-. discriminate S.
    + rewrite (anonymous_decode localStorage); auto.
  - destruct (handler_201_inv _ _ _ _ E S)
      as (parsed & t & c & cat & aid & names & v & _ & _ & _ & _ & _ & _ & _ & _ & _ & _
          & Edb & _ & _).
    cbv zeta in Edb. eexists. rewrite Edb. split; reflexivity.
Qed.

(** X19.  [api.register] is refused like [api.login]: its body names no
    action, so the login function answers 400 [Invalid action], the call
    raises, and no user is ever added (the function has no write at all). *)
Theorem api_register_is_refused (db : DB) (email password name : string) :
  Auth.handler db (Api.register_request email password name) = invalid_action_response /\
  Api.register db email password name = Throw RequestError.
Proof.
  assert (Auth.handler db (Api.register_request email password name)
          = invalid_action_response) as E.
  { unfold Auth.handler.
    cbn [httpMethod Api.register_request String.eqb Ascii.eqb Bool.eqb negb].
    unfold Auth.reply.
    assert (body_or (Api.register_request email password name) "{}" =
            JSON_stringify (JObj [("email", JStr email); ("password", JStr password);
                                  ("name", JStr name)])) as ->.
    { reflexivity. }
    rewrite parse_stringify_flat by (reflexivity || discriminate). reflexivity. }
  split; [exact E|]. unfold Api.register. rewrite E. reflexivity.
Qed.

End ClientCalls.

(** ** The helpers of the client, continued *)

Lemma clearAuth_lookup (localStorage : gmap string string) (k : string) :
  Api.clearAuth localStorage !! k =
  if decide (k = "user") then None
  else if decide (k = "token") then None
  else localStorage !! k.
Proof.
  unfold Api.clearAuth.
  destruct (decide (k = "user")) as [->|Nu]; [apply lookup_delete_eq|].
  rewrite lookup_delete_ne by congruence.
  destruct (decide (k = "token")) as [->|Nt]; [apply lookup_delete_eq|].
  apply lookup_delete_ne. congruence.
Qed.

Section SignOut.
Context `{Collaborators}.

(** X20.  [clearAuth] signs the client out for good: afterwards there is no
    token, no header, no current user and no permission, a create is refused
    by the server, every other entry of the cache is as it was, and clearing
    again changes nothing.  [logout] of the App component does the same to
    the cache. *)
Theorem clearAuth_signs_out (localStorage : gmap string string) :
  Api.isAuthenticated (Api.clearAuth localStorage) = false /\
  Api.getAuthHeaders (Api.clearAuth localStorage) = None /\
  Api.getCurrentUser (Api.clearAuth localStorage) = Ok JNull /\
  (forall role, Api.hasPermission (Api.clearAuth localStorage) role = Ok false) /\
  (forall db data,
     Api.createPost db (Api.clearAuth localStorage) data = (Throw RequestError, db)) /\
  (forall k, k <> "token" -> k <> "user" ->
     Api.clearAuth localStorage !! k = localStorage !! k) /\
  Api.clearAuth (Api.clearAuth localStorage) = Api.clearAuth localStorage /\
  App.logout localStorage = Api.clearAuth localStorage.
Proof.
  assert (Api.clearAuth localStorage !! "token" = None) as T.
  { rewrite clearAuth_lookup. reflexivity. }
  assert (Api.clearAuth localStorage !! "user" = None) as U.
  { rewrite clearAuth_lookup. reflexivity. }
  assert (Api.getAuthHeaders (Api.clearAuth localStorage) = None) as Hd.
  { unfold Api.getAuthHeaders. rewrite T. reflexivity. }
  split; [unfold Api.isAuthenticated; rewrite T; reflexivity|].
  split; [exact Hd|].
  split; [unfold Api.getCurrentUser; rewrite U; reflexivity|].
  split; [intros role; unfold Api.hasPermission, Api.getCurrentUser; rewrite U; reflexivity|].
  split.
  { intros db data. unfold Api.createPost, Api.call.
    rewrite (handler_unauthenticated_post db
               (Api.createPost_request (Api.clearAuth localStorage) data) eq_refl).
    - reflexivity.
    - unfold Posts.decode, Posts.bearer, Api.createPost_request. simpl. rewrite Hd.
      reflexivity. }
  split.
  { intros k Nt Nu. rewrite clearAuth_lookup.
    destruct (decide (k = "user")); [contradiction|].
    destruct (decide (k = "token")); [contradiction | reflexivity]. }
  split; [|reflexivity].
  apply map_eq. intros k. rewrite !clearAuth_lookup.
  destruct (decide (k = "user")); [reflexivity|].
  destruct (decide (k = "token")); reflexivity.
Qed.

End SignOut.

Lemma hasPermission_true_inv (localStorage : gmap string string) (required : string) :
  Api.hasPermission localStorage required = Ok true ->
  exists user role have,
    Api.getCurrentUser localStorage = Ok user /\ truthy user = true /\
    js_get user "role" = Ok role /\
    Api.roles_lookup role = Ok have /\
    Api.slot_ge have (Api.roles_at required) = true.
Proof.
  unfold Api.hasPermission. intros E.
  apply rbind_Ok_inv in E as (user & U & E).
  destruct (truthy user) eqn:T; simpl in E; [|discriminate].
  apply rbind_Ok_inv in E as (role & R & E).
  apply rbind_Ok_inv in E as (have & L & E). injection E as E.
  exists user, role, have. auto 6.
Qed.

Lemma roles_at_ranked (role : string) (n : Z) :
  roleRank role = Some n -> Api.roles_at role = Api.Rank n.
Proof. unfold roleRank, Api.roles_at. intros ->. reflexivity. Qed.

(** X21.  Permissions are monotone in the role that is asked for: whoever
    passes the check for a role of the table passes it for every role of the
    table that ranks no higher. *)
Theorem hasPermission_monotone (localStorage : gmap string string)
    (required lower : string) (n m : Z) :
  roleRank required = Some n -> roleRank lower = Some m -> m <= n ->
  Api.hasPermission localStorage required = Ok true ->
  Api.hasPermission localStorage lower = Ok true.
Proof.
  intros Rn Rm L E.
  destruct (hasPermission_true_inv _ _ E) as (user & role & have & U & T & G & K & S).
  unfold Api.hasPermission. rewrite U. simpl. rewrite T. simpl. rewrite G. simpl.
  rewrite K. simpl.
  rewrite (roles_at_ranked _ _ Rn) in S. rewrite (roles_at_ranked _ _ Rm).
  destruct have as [x| |]; simpl in *; try discriminate.
  f_equal. apply Z.leb_le. apply Z.leb_le in S. lia.
Qed.

Lemma jsval_array_ind (P : jsval -> Prop) :
  P JUndefined -> P JNull -> (forall b, P (JBool b)) -> (forall m e, P (JNum m e)) ->
  (forall s, P (JStr s)) ->
  (forall items, List.Forall P items -> P (JArr items)) ->
  (forall props, P (JObj props)) ->
  forall v, P v.
Proof.
  intros Hu Hn Hb Hm Hs Ha Ho. fix IH 1.
  intros [| |b|m e|s|items|props];
    [exact Hu | exact Hn | apply Hb | apply Hm | apply Hs | | apply Ho].
  apply Ha. induction items as [|x items IHl]; constructor; [apply IH | exact IHl].
Qed.

(** The conversion of a value to a property key throws exactly when the
    value has no text, and then it throws a TypeError. *)
Lemma to_key_no_string_form (v : jsval) :
  if no_string_form v then Api.to_key v = Throw TypeError
  else exists key, Api.to_key v = Ok key.
Proof.
  induction v as [| |b|m e|s|items IH|props] using jsval_array_ind;
    try (simpl; eauto; fail).
  - destruct b; simpl; eauto.
  - assert ((fix elements (l : list jsval) : result unit :=
               match l with
               | [] => Ok tt
               | x :: rest => do _ <-- Api.to_key x; elements rest
               end) items
            = if existsb no_string_form items then Throw TypeError else Ok tt) as El.
    { induction IH as [|x l Hx _ IHl]; [reflexivity|].
      cbn [existsb]. destruct (no_string_form x).
      - rewrite Hx. reflexivity.
      - destruct Hx as [key ->]. simpl. exact IHl. }
    destruct items as [|x [|y rest]].
    + simpl. eauto.
    + inversion IH as [|? ? Hx _]; subst. cbn [no_string_form existsb].
      rewrite orb_false_r.
      destruct x; simpl in *; eauto.
    + change (no_string_form (JArr (x :: y :: rest)))
        with (existsb no_string_form (x :: y :: rest)).
      cbn [Api.to_key]. rewrite El.
      destruct (existsb no_string_form (x :: y :: rest)); simpl; eauto.
  - simpl. destruct (assoc "toString" props); eauto.
Qed.

Lemma js_get_truthy (user : jsval) (k : string) :
  truthy user = true -> exists x, js_get user k = Ok x.
Proof. destruct user; try discriminate; simpl; eauto. Qed.

(** X22.  [hasPermission] looks at the cached user and at nothing else.
    It raises in two cases only: when [getCurrentUser] raises, with the
    same error, and when the role of the cached user has no text (an
    object with a member toString, or an array holding one), with a
    TypeError; a role that is a string, as the type of a user has it,
    never makes it raise.  Two caches with the same user entry get the
    same verdict, and so a cache whose token is gone, for which
    [isAuthenticated] is false, is granted what it was granted with the
    token. *)
Theorem hasPermission_reads_user_only (localStorage : gmap string string)
    (required : string) :
  (forall e, Api.hasPermission localStorage required = Throw e <->
             Api.getCurrentUser localStorage = Throw e \/
             (e = TypeError /\
              exists user role,
                Api.getCurrentUser localStorage = Ok user /\ truthy user = true /\
                js_get user "role" = Ok role /\ no_string_form role = true)) /\
  (forall user role,
     Api.getCurrentUser localStorage = Ok user -> js_get user "role" = Ok (JStr role) ->
     exists verdict, Api.hasPermission localStorage required = Ok verdict) /\
  (forall other, other !! "user" = localStorage !! "user" ->
     Api.hasPermission other required = Api.hasPermission localStorage required) /\
  Api.hasPermission (delete "token" localStorage) required
  = Api.hasPermission localStorage required /\
  Api.isAuthenticated (delete "token" localStorage) = false.
Proof.
  assert (forall other, other !! "user" = localStorage !! "user" ->
            Api.hasPermission other required = Api.hasPermission localStorage required)
    as Same.
  { intros other E. unfold Api.hasPermission, Api.getCurrentUser. rewrite E. reflexivity. }
  split; [|split; [|split; [exact Same|split]]].
  - intros e. unfold Api.hasPermission.
    destruct (Api.getCurrentUser localStorage) as [user|e'] eqn:U; simpl.
    + destruct (truthy user) eqn:T; simpl.
      * destruct (js_get_truthy user "role" T) as [role G]. rewrite G. simpl.
        unfold Api.roles_lookup. pose proof (to_key_no_string_form role) as K.
        destruct (no_string_form role) eqn:N.
        -- rewrite K. simpl. split.
           ++ intros E. injection E as <-. right. split; [reflexivity|].
              exists user, role. auto.
           ++ intros [E|[-> _]]; [discriminate | reflexivity].
        -- destruct K as [key ->]. simpl. split; [discriminate|].
           intros [E|(_ & user' & role' & E & _ & G' & N')]; [discriminate|].
           injection E as <-. rewrite G in G'. injection G' as <-. congruence.
      * split; [discriminate|].
        intros [E|(_ & user' & role' & E & T' & _)]; [discriminate|].
        injection E as <-. congruence.
    + split.
      * intros E. injection E as ->. left. reflexivity.
      * intros [E|(_ & user' & role' & E & _)]; [|discriminate].
        injection E as ->. reflexivity.
  - intros user role U G. unfold Api.hasPermission. rewrite U. simpl.
    rewrite (js_get_string_truthy _ _ _ G). simpl. rewrite G. simpl. eauto.
  - apply Same. apply lookup_delete_ne. discriminate.
  - unfold Api.isAuthenticated. rewrite lookup_delete_eq. reflexivity.
Qed.

(** ** Image addresses *)

(** X23.  [getImageUrl] leaves alone whatever begins with the four letters
    http, address or not; every other path is put under the uploads folder
    of the base address, which is never empty; and with the default base two
    different paths never get the same address. *)
Theorem getImageUrl_addresses (NEXT_PUBLIC_API_URL : option string) (path : string) :
  Api.API_BASE_URL NEXT_PUBLIC_API_URL <> "" /\
  (forall rest, Api.getImageUrl NEXT_PUBLIC_API_URL ("http" +:+ rest) = "http" +:+ rest) /\
  (forall other,
     Api.API_BASE_URL NEXT_PUBLIC_API_URL = "/.netlify/functions" ->
     Api.getImageUrl NEXT_PUBLIC_API_URL path = Api.getImageUrl NEXT_PUBLIC_API_URL other ->
     path = other) /\
  (Api.API_BASE_URL NEXT_PUBLIC_API_URL = "/.netlify/functions" ->
   strip_prefix "http" path = None ->
   strip_prefix "/.netlify/functions/uploads/" (Api.getImageUrl NEXT_PUBLIC_API_URL path)
   = Some path).
Proof.
  split; [|split; [|split]].
  - unfold Api.API_BASE_URL. destruct NEXT_PUBLIC_API_URL as [s|]; [|discriminate].
    destruct (String.eqb_spec s ""); [discriminate | assumption].
  - intros rest. unfold Api.getImageUrl. reflexivity.
  - intros other B. unfold Api.getImageUrl. rewrite B.
    destruct (strip_prefix "http" path) as [r1|] eqn:P1;
      destruct (strip_prefix "http" other) as [r2|] eqn:P2.
    + auto.
    + intros E. rewrite E in P1. discriminate P1.
    + intros E. rewrite <- E in P2. discriminate P2.
    + intros E. cbv [String.append] in E. injection E as E. exact E.
  - intros B N. unfold Api.getImageUrl. rewrite B, N.
    cbv [String.append strip_prefix]. simpl. reflexivity.
Qed.

(** ** The filter of the list page *)

Lemma strip_prefix_append (q s : string) : strip_prefix q (q +:+ s) = Some s.
Proof.
  induction q as [|c q IH]; [reflexivity|].
  rewrite append_String. simpl. rewrite Ascii.eqb_refl. exact IH.
Qed.

Lemma includes_infix (a q b : string) : App.includes (a +:+ q +:+ b) q = true.
Proof.
  induction a as [|c a IH].
  - change ("" +:+ ?x) with x.
    destruct q as [|c q]; [destruct b; reflexivity|].
    rewrite append_String. cbn [App.includes]. rewrite <- append_String.
    rewrite strip_prefix_append. reflexivity.
  - rewrite append_String. cbn [App.includes]. rewrite IH.
    destruct (strip_prefix q _); reflexivity.
Qed.

Section FilterProperties.
Variable toLowerCase : string -> string.

(** X24.  The filter of the list page never invents or reorders posts; with
    a category selected it shows posts of that category only; with the empty
    query and the category all it shows every post; and under all a post is
    shown whenever its lower-cased title contains the lower-cased query. *)
Theorem filteredPosts_sound (posts : list App.Post) (searchQuery selectedCategory : string) :
  toLowerCase "" = "" ->
  (forall post, In post (App.filteredPosts toLowerCase posts searchQuery selectedCategory) ->
     In post posts /\
     (selectedCategory = "all" \/ App.post_category post = selectedCategory)) /\
  App.filteredPosts toLowerCase posts "" "all" = posts /\
  (forall post before after,
     In post posts ->
     toLowerCase (App.post_title post) = before +:+ toLowerCase searchQuery +:+ after ->
     In post (App.filteredPosts toLowerCase posts searchQuery "all")) /\
  App.filteredPosts toLowerCase
    (App.filteredPosts toLowerCase posts searchQuery selectedCategory)
    searchQuery selectedCategory
  = App.filteredPosts toLowerCase posts searchQuery selectedCategory.
Proof.
  intros Low. unfold App.filteredPosts. split; [|split; [|split]].
  - intros post I. apply filter_In in I as [I C]. split; [exact I|].
    apply andb_prop in C as [_ C]. unfold App.matchesCategory in C.
    apply orb_prop in C as [C|C].
    + left. apply String.eqb_eq, C.
    + right. apply String.eqb_eq, C.
  - induction posts as [|p ps IH]; [reflexivity|]. cbn [List.filter].
    assert (App.matchesSearch toLowerCase "" p = true) as ->.
    { unfold App.matchesSearch. rewrite Low.
      destruct (toLowerCase (App.post_title p)); reflexivity. }
    simpl. rewrite IH. reflexivity.
  - intros post before after I E. apply filter_In. split; [exact I|].
    unfold App.matchesSearch. rewrite E, includes_infix. reflexivity.
  - induction posts as [|p ps IH]; [reflexivity|]. cbn [List.filter].
    destruct (App.matchesSearch toLowerCase searchQuery p
              && App.matchesCategory selectedCategory p) eqn:C.
    + cbn [List.filter]. rewrite C, IH. reflexivity.
    + exact IH.
Qed.

End FilterProperties.

(** ** The form that publishes a post *)


Lemma split_comma_one (x : string) :
  no_comma x = true -> App.split_comma x = [x].
Proof.
  induction x as [|c x IH]; [reflexivity|]. simpl.
  destruct (Ascii.eqb c ","); [discriminate|]. simpl. intros N. rewrite (IH N). reflexivity.
Qed.

Lemma split_comma_cons (x rest : string) :
  no_comma x = true ->
  App.split_comma (x +:+ "," +:+ rest) = x :: App.split_comma rest.
Proof.
  induction x as [|c x IH].
  - intros _. reflexivity.
  - rewrite append_String. simpl.
    destruct (Ascii.eqb c ","); [discriminate|]. simpl. intros N. rewrite (IH N). reflexivity.
Qed.

Lemma split_comma_join (l : list string) :
  l <> [] -> Forall (fun x => no_comma x = true) l -> App.split_comma (join "," l) = l.
Proof.
  induction l as [|x l IH]; [contradiction|]. intros _ F.
  inversion F as [|? ? Hx Hl]; subst.
  destruct l as [|y l].
  - simpl. apply split_comma_one, Hx.
  - rewrite join_cons by discriminate. rewrite (split_comma_cons _ _ Hx).
    rewrite IH; [reflexivity | discriminate | exact Hl].
Qed.















Lemma clean_tags_pass (names : list string) :
  Forall clean_tag names ->
  List.filter (fun tag => negb (String.eqb tag "")) (map App.trim names) = names.
Proof.
  induction 1 as [|y ys (Ne & _ & T) _ IH]; [reflexivity|].
  cbn [map List.filter]. rewrite T.
  destruct (String.eqb_spec y ""); [contradiction|]. simpl. rewrite IH. reflexivity.
Qed.

(** X26.  Clean names joined by commas are read back as they were, in order
    and with repetitions; so every list of clean names can be entered. *)
Theorem form_tags_of_joined (names : list string) :
  Forall clean_tag names -> App.form_tags (join "," names) = names.
Proof.
  intros F. unfold App.form_tags.
  destruct names as [|x l]; [reflexivity|].
  rewrite split_comma_join; [apply clean_tags_pass, F | discriminate |].
  eapply List.Forall_impl; [|exact F]. intros y (_ & N & _). exact N.
Qed.

(** ** What the form sends *)

Lemma stringify_strings (names : list string) :
  stringify (JArr (map JStr names)) = Some ("[" +:+ join "," (map quote names) +:+ "]").
Proof.
  cbn [stringify]. do 4 f_equal.
  induction names as [|x names IH]; [reflexivity|].
  cbn [map]. change (stringify (JStr x)) with (Some (quote x)). cbv iota.
  f_equal. exact IH.
Qed.

Lemma parse_elements_step (f : nat) (text : string) :
  parse_elements (S f) text =
  match parse_value f text with
  | POk v r =>
      match starts "," (skip_ws r), starts "]" (skip_ws r) with
      | Some r', _ =>
          match parse_elements f r' with
          | POk l r'' => POk (v :: l) r''
          | PErr => PErr
          | PFuel => PFuel
          end
      | None, Some r' => POk [v] r'
      | None, None => PErr
      end
  | PErr => PErr
  | PFuel => PFuel
  end.
Proof. reflexivity. Qed.

Lemma parse_value_quoted (f : nat) (x tail : string) :
  parse_value (S f) (quote x +:+ tail) = POk (JStr x) tail.
Proof. rewrite quote_append, parse_value_string, parse_chars_quote_body. reflexivity. Qed.

(** The elements of a list of strings, read back one after the other. *)
Lemma parse_elements_strings (names : list string) :
  forall (f : nat) (tail : string),
    names <> [] -> (length names <= f)%nat ->
    parse_elements (S f) (join "," (map quote names) +:+ String "]" tail)
    = POk (map JStr names) tail.
Proof.
  induction names as [|x names IH]; intros f tail N L; [contradiction|].
  destruct f as [|f]; [simpl in L; lia|].
  rewrite parse_elements_step. destruct names as [|y names].
  - cbn [map join]. rewrite parse_value_quoted. reflexivity.
  - cbn [map]. rewrite join_cons by discriminate.
    rewrite (append_assoc _ _ (String "]" tail)), parse_value_quoted.
    rewrite append_assoc.
    change ("," +:+ ?z) with (String "," z).
    change (starts "," (skip_ws (String "," ?z))) with (Some z). cbv iota beta.
    change (quote y :: map quote names) with (map quote (y :: names)).
    rewrite IH; [reflexivity | discriminate | simpl in *; lia].
Qed.

Lemma parse_value_array (f : nat) (text : string) :
  parse_value (S f) (String "[" text) =
  match starts "]" (skip_ws text) with
  | Some r' => POk (JArr []) r'
  | None =>
      match parse_elements f text with
      | POk l r' => POk (JArr l) r'
      | PErr => PErr
      | PFuel => PFuel
      end
  end.
Proof. reflexivity. Qed.

Lemma parse_value_strings (names : list string) (f : nat) (t tail : string) :
  stringify (JArr (map JStr names)) = Some t -> (length names <= f)%nat ->
  parse_value (S (S f)) (t +:+ tail) = POk (JArr (map JStr names)) tail.
Proof.
  rewrite stringify_strings. intros E L. injection E as <-.
  rewrite !append_assoc. change ("[" +:+ ?z) with (String "[" z).
  rewrite parse_value_array. change ("]" +:+ tail) with (String "]" tail).
  destruct names as [|x names]; [reflexivity|].
  assert (exists z, join "," (map quote (x :: names)) +:+ String "]" tail = String "034" z)
    as [z Ez].
  { cbn [map]. destruct names; [cbn [map join]|rewrite join_cons by discriminate];
      rewrite quote_append; eauto. }
  rewrite Ez. change (starts "]" (skip_ws (String "034" z))) with (@None string).
  cbv iota beta. rewrite <- Ez.
  rewrite parse_elements_strings; [reflexivity | discriminate | exact L].
Qed.

Lemma parse_members_last (f : nat) (k : string) (v : jsval) (t rest : string)
    (acc : list (string * jsval)) :
  parse_value f (t +:+ String "}" rest) = POk v (String "}" rest) ->
  parse_members (S f) ((quote k +:+ ":" +:+ t) +:+ String "}" rest) acc
  = POk (obj_set acc k v) rest.
Proof.
  intros P. rewrite !append_assoc, quote_append.
  rewrite parse_members_quoted, parse_chars_quote_body.
  change (":" +:+ ?x) with (String ":" x).
  change (starts ":" (skip_ws (String ":" ?x))) with (Some x). cbv iota beta.
  rewrite P. reflexivity.
Qed.

Lemma length_quoted_join (names : list string) :
  (length names <= String.length (join "," (map quote names)))%nat.
Proof.
  rewrite <- (length_map quote names). apply length_join.
  apply List.Forall_forall. intros m I. apply in_map_iff in I as (x & <- & _).
  unfold quote. eauto.
Qed.

(** The JSON text of [{title, content, category, tags}] with string
    fields and a list of names is read back by the server as such. *)
Lemma create_body_stringify (title content category : string) (names : list string) :
  create_body
    (JSON_stringify
       (JObj [("title", JStr title); ("content", JStr content);
              ("category", JStr category); ("tags", JArr (map JStr names))]))
    title content category names.
Proof.
  unfold create_body, JSON_stringify. rewrite stringify_JObj.
  cbn [stringify_members]. rewrite stringify_strings.
  cbn [stringify].
  set (arr := "[" +:+ join "," (map quote names) +:+ "]").
  set (m1 := quote "title" +:+ ":" +:+ quote title).
  set (m2 := quote "content" +:+ ":" +:+ quote content).
  set (m3 := quote "category" +:+ ":" +:+ quote category).
  set (m4 := quote "tags" +:+ ":" +:+ arr).
  assert (join "," [m1; m2; m3; m4] = m1 +:+ "," +:+ m2 +:+ "," +:+ m3 +:+ "," +:+ m4) as ->.
  { reflexivity. }
  set (text := "{" +:+ (m1 +:+ "," +:+ m2 +:+ "," +:+ m3 +:+ "," +:+ m4) +:+ "}").
  assert (exists f, (2 * String.length text + 2 = S (S (S (S (S (S (S f)))))))%nat /\
                    (length names <= f)%nat) as (f & Ef & Lf).
  { exists (2 * String.length text - 5)%nat.
    assert (length names + 8 <= String.length text)%nat; [|lia].
    pose proof (length_quoted_join names).
    unfold text, m4, m3, m2, m1, arr. rewrite !length_append. simpl String.length. lia. }
  exists (JObj [("title", JStr title); ("content", JStr content);
                ("category", JStr category); ("tags", JArr (map JStr names))]).
  split; [|repeat split; reflexivity].
  unfold JSON_parse. rewrite Ef.
  assert (text = String "{" (String "034"
            (quote_body "title" +:+ String "034"
               (":" +:+ quote title +:+ "," +:+ m2 +:+ "," +:+ m3 +:+ "," +:+ m4 +:+ "}"))))
    as Et.
  { unfold text, m1. rewrite !append_assoc, quote_append. reflexivity. }
  rewrite Et, parse_value_object, <- quote_append.
  replace (quote "title" +:+ ":" +:+ quote title +:+ "," +:+ m2 +:+ "," +:+ m3 +:+ ","
           +:+ m4 +:+ "}")
    with ((quote "title" +:+ ":" +:+ quote title)
          +:+ (String "," (m2 +:+ (String "," (m3 +:+ String "," (m4 +:+ String "}" ""))))))
    by (rewrite !append_assoc; reflexivity).
  rewrite (parse_members_member _ "title" (JStr title) (quote title) _ [] eq_refl eq_refl).
  change (starts "," (skip_ws (String "," ?z))) with (Some z). cbv iota beta.
  unfold m2 at 1.
  rewrite (parse_members_member _ "content" (JStr content) (quote content) _ _
             eq_refl eq_refl).
  change (starts "," (skip_ws (String "," ?z))) with (Some z). cbv iota beta.
  unfold m3 at 1.
  rewrite (parse_members_member _ "category" (JStr category) (quote category) _ _
             eq_refl eq_refl).
  change (starts "," (skip_ws (String "," ?z))) with (Some z). cbv iota beta.
  unfold m4.
  rewrite (parse_members_last _ "tags" (JArr (map JStr names)) arr "" _).
  - reflexivity.
  - apply parse_value_strings; [apply stringify_strings | exact Lf].
Qed.

Section FormSubmit.
Context `{Collaborators}.

Lemma form_request_body (localStorage : gmap string string) (f : App.Form) :
  body_or (Api.createPost_request localStorage (App.submit_data f)) "{}"
  = JSON_stringify (App.submit_data f).
Proof. reflexivity. Qed.

Lemma create_body_unique (text t c cat t' c' cat' : string) (names names' : list string) :
  create_body text t c cat names -> create_body text t' c' cat' names' ->
  t = t' /\ c = c' /\ cat = cat'.
Proof.
  intros (p & P & Gt & Gc & Gk & _) (p' & P' & Gt' & Gc' & Gk' & _).
  rewrite P in P'. injection P' as <-.
  rewrite Gt in Gt'. rewrite Gc in Gc'. rewrite Gk in Gk'.
  injection Gt' as <-. injection Gc' as <-. injection Gk' as <-. auto.
Qed.

(** X27.  What the form sends is always a body the posts function can read:
    JSON with the title, content and category of the form as strings and the
    clean tag names of the tags field as a list. *)
Theorem form_request_well_formed (localStorage : gmap string string) (f : App.Form) :
  create_body (body_or (Api.createPost_request localStorage (App.submit_data f)) "{}")
    (App.title f) (App.content f) (App.category f) (App.form_tags (App.tags f)).
Proof. rewrite form_request_body. apply create_body_stringify. Qed.

(** X28.  A submit of the form by a caller whose cached token verifies to a
    stored user, with a category the storage layer accepts, is answered 201
    and stores one post: that user's, with the title, content and category
    of the form. *)
Theorem form_submit_is_created (db : DB) (localStorage : gmap string string)
    (f : App.Form) (uid : string) :
  verified_as (Api.createPost_request localStorage (App.submit_data f)) uid ->
  find_user_by_id db uid <> None ->
  category_ok (App.category f) = true ->
  exists r db' row,
    Posts.handler db (Api.createPost_request localStorage (App.submit_data f)) = (r, db') /\
    statusCode r = 201 /\
    users db' = users db /\
    posts db' = posts db ++ [row] /\
    p_authorId row = uid /\
    p_title row = App.title f /\ p_content row = App.content f /\
    p_category row = App.category f.
Proof.
  intros V F C.
  set (ev := Api.createPost_request localStorage (App.submit_data f)) in *.
  pose proof (create_body_stringify (App.title f) (App.content f) (App.category f)
                (App.form_tags (App.tags f))) as CB.
  fold (App.submit_data f) in CB.
  destruct (reply_create_succeeds db ev uid _ _ _ _ eq_refl (verified_userId _ _ V) F CB C)
    as (v & db' & R).
  assert (Posts.handler db ev = ({| statusCode := 201; resp_body := JSON_stringify v |}, db'))
    as E.
  { unfold Posts.handler. rewrite R. reflexivity. }
  destruct (handler_201_inv _ _ _ _ E eq_refl)
    as (parsed & t & c & cat & aid & names & w & _ & _ & P & Gt & Gc & Gk & Gg & Gu & _ & _
        & Edb & _ & _).
  rewrite (verified_userId _ _ V) in Gu. injection Gu as <-.
  destruct (create_body_unique _ _ _ _ _ _ _ _ names CB
              (ex_intro _ parsed (conj P (conj Gt (conj Gc (conj Gk Gg))))))
    as (<- & <- & <-).
  cbv zeta in Edb.
  eexists. exists db'. eexists. split; [exact E|]. split; [reflexivity|].
  rewrite Edb. simpl. auto 10.
Qed.

(** X29.  How a submit of the form ends.  It never stays in the submitting
    state and never touches the category.  When it succeeds the draft is
    cleared, no notice is shown and one post was stored; when it fails the
    draft is kept and the notice is shown.  It fails, with the storage as it
    was, for a caller without a cached token and for a category the storage
    layer refuses. *)
Theorem handleSubmit_outcome (db db' : DB) (localStorage : gmap string string)
    (f f' : App.Form) (succeeded : bool) :
  App.handleSubmit db localStorage f = (f', succeeded, db') ->
  App.isSubmitting f' = false /\
  App.category f' = App.category f /\
  (succeeded = true ->
   App.title f' = "" /\ App.content f' = "" /\ App.tags f' = "" /\ App.error f' = "" /\
   exists row, posts db' = posts db ++ [row] /\ p_title row = App.title f) /\
  (succeeded = false ->
   App.title f' = App.title f /\ App.content f' = App.content f /\
   App.tags f' = App.tags f /\ App.error f' = App.failure_notice) /\
  (Api.isAuthenticated localStorage = false \/ category_ok (App.category f) = false ->
   succeeded = false /\ db' = db).
Proof.
  unfold App.handleSubmit, Api.createPost, Api.call.
  set (ev := Api.createPost_request localStorage (App.submit_data f)).
  destruct (Posts.handler db ev) as [r d] eqn:E.
  assert (statusCode r = 201 ->
          Api.isAuthenticated localStorage = true /\
          category_ok (App.category f) = true /\
          exists row, posts d = posts db ++ [row] /\ p_title row = App.title f) as Created.
  { intros S.
    destruct (handler_201_inv _ _ _ _ E S)
      as (parsed & t & c & cat & aid & names & w & _ & T & P & Gt & Gc & Gk & Gg & _ & Cat & _
          & Edb & _ & _).
    pose proof (create_body_stringify (App.title f) (App.content f) (App.category f)
                  (App.form_tags (App.tags f))) as CB.
    destruct (create_body_unique _ _ _ _ _ _ _ _ names CB
                (ex_intro _ parsed (conj P (conj Gt (conj Gc (conj Gk Gg))))))
      as (<- & <- & <-).
    split; [|split; [exact Cat|]].
    - destruct (Api.isAuthenticated localStorage) eqn:A; [reflexivity|].
      rewrite (anonymous_decode localStorage ev eq_refl A) in T. discriminate.
    - cbv zeta in Edb. eexists. rewrite Edb. split; reflexivity. }
  assert (statusCode r <> 201 -> Api.handleResponse r = Throw RequestError /\ d = db) as Refused.
  { intros S. split; [|exact (handler_keeps_unless_201 _ _ _ _ E S)].
    destruct (Api.handleResponse r) as [v|e] eqn:Hr.
    - contradiction S. apply (post_call_201 _ _ _ _ E eq_refl). eauto.
    - unfold Api.handleResponse in Hr.
      destruct ((200 <=? statusCode r) && (statusCode r <=? 299)) eqn:Rg;
        [|congruence].
      apply andb_prop in Rg as [Lo Hi].
      destruct (Z.eq_dec (statusCode r) 500) as [S5|S5]; [rewrite S5 in Hi; discriminate|].
      destruct (handler_inv _ _ _ _ E S5) as (w & R & _).
      destruct (reply_cases _ _ _ _ _ R)
        as [(S' & G & _)|[(S' & _)|[(S' & _)|(S' & _)]]];
        try contradiction; try (rewrite S' in Hi; discriminate Hi).
      discriminate G. }
  simpl.
  destruct (Z.eq_dec (statusCode r) 201) as [S|S].
  - destruct (Created S) as (A & Cat & row & Ep & Et).
    destruct (Api.handleResponse r) as [v|e]; intros Eq; injection Eq as <- <- <-; simpl.
    + split; [reflexivity|]. split; [reflexivity|].
      split; [intros _; eauto 10|]. split; [discriminate|].
      intros [N|N]; congruence.
    + split; [reflexivity|]. split; [reflexivity|].
      split; [discriminate|]. split; [auto|].
      intros [N|N]; congruence.
  - destruct (Refused S) as [-> ->].
    intros Eq; injection Eq as <- <- <-; simpl.
    split; [reflexivity|]. split; [reflexivity|].
    split; [discriminate|]. split; auto.
Qed.

End FormSubmit.

(** * The statements at work

    Each theorem above that rests on a hypothesis is applied here to a
    concrete storage ([db0]), concrete requests and the collaborators
    [demo]; the statements that the handlers refute are evaluated on a
    concrete input. *)

Lemma demo_ids_never_repeat : ids_never_repeat.
Proof.
  assert (forall a b, strokes a = strokes b -> a = b) as Inj.
  { induction a as [|a IH]; intros [|b] E; try discriminate; [reflexivity|].
    injection E as E. f_equal. apply IH, E. }
  intros i j E. unfold new_id in E. simpl in E. unfold demo_id in E.
  cbv [String.append] in E. injection E as E.
  apply N2Nat.inj, Inj, E.
Qed.

Lemma db0_emails_unique : emails_unique db0.
Proof.
  unfold emails_unique. simpl.
  constructor; [simpl; intros [E|[]]; discriminate|].
  constructor; [simpl; tauto | constructor].
Qed.

Lemma db0_store_ok : store_ok db0.
Proof. split; [constructor | split; [constructor | intros t k []]]. Qed.

(** C1 at work: Alice's token and a body that names Bob as author; the
    article is Alice's, and the request fares as the one without the two
    extra members. *)
Lemma create_author_from_token_witness :
  (exists row,
     posts (snd (Posts.handler db0 ev_create_alice_forged)) = posts db0 ++ [row] /\
     p_authorId row = "u1") /\
  Posts.handler db0 ev_create_alice = Posts.handler db0 ev_create_alice_forged.
Proof.
  destruct (create_author_from_token db0
              (snd (Posts.handler db0 ev_create_alice_forged))
              ev_create_alice_forged "u1"
              (fst (Posts.handler db0 ev_create_alice_forged)))
    as [(row & P & A & _) Same].
  - exists "your-secret-key.u1", (JObj [("userId", JStr "u1"); ("iat", JInt 0)]).
    split; [reflexivity|]. split; [discriminate|]. split; reflexivity.
  - reflexivity.
  - reflexivity.
  - split; [exists row; split; [exact P | exact A]|].
    eapply Same.
    + reflexivity.
    + reflexivity.
    + vm_compute. reflexivity.
    + vm_compute. reflexivity.
    + intros k [<-|[<-|[<-|[<-|[]]]]]; reflexivity.
Defined.

(** C2 at work: Alice logs in with her password and the token decodes to
    her id; with another password the reply is 401. *)
Lemma issue_then_verify_witness :
  (exists token,
     Auth.handler db0 ev_login_alice =
       {| statusCode := 200;
          resp_body := JSON_stringify
            (JObj [("token", JStr token); ("user", identity_object alice)]) |} /\
     js_get (Posts.verifyToken token) "userId" = Ok (JStr "u1")) /\
  Auth.handler db0 ev_login_wrong_password = invalid_credentials_response.
Proof.
  split.
  - destruct (issue_then_verify db0 ev_login_alice "alice@lab.org" "wonderland")
      as [Match _].
    + reflexivity.
    + exact (login_body_with_action "alice@lab.org" "wonderland").
    + apply (Match alice).
      * exact db0_emails_unique.
      * left. reflexivity.
      * reflexivity.
      * reflexivity.
      * eexists. split; reflexivity.
  - destruct (issue_then_verify db0 ev_login_wrong_password "alice@lab.org" "queen")
      as [_ Mismatch].
    + reflexivity.
    + exact (login_body_with_action "alice@lab.org" "queen").
    + apply Mismatch. intros u [<-|[<-|[]]] E; [reflexivity | discriminate].
Defined.

(** C3 fails on the code: a DELETE without token is answered 405, not 401,
    and a DELETE with Alice's valid token is answered 405 as well. *)
Lemma unauthenticated_delete_is_not_401 :
  (unauthenticated ev_delete_anonymous /\
   Posts.handler db0 ev_delete_anonymous = (method_not_allowed_response, db0) /\
   statusCode (fst (Posts.handler db0 ev_delete_anonymous)) <> 401) /\
  (verified_as ev_delete_alice "u1" /\
   Posts.handler db0 ev_delete_alice = (method_not_allowed_response, db0)).
Proof.
  split.
  - split; [left; reflexivity|]. split; [reflexivity|]. discriminate.
  - split; [|reflexivity].
    exists "your-secret-key.u1", (JObj [("userId", JStr "u1"); ("iat", JInt 0)]).
    split; [reflexivity|]. split; [discriminate|]. split; reflexivity.
Qed.

(** C3 at work: a create without token, a DELETE, and Alice's create. *)
Lemma create_gate_witness :
  Posts.handler db0 ev_create_anonymous = (unauthorized_response, db0) /\
  Posts.handler db0 ev_delete_anonymous = (method_not_allowed_response, db0) /\
  exists r db', Posts.handler db0 ev_create_alice = (r, db') /\ statusCode r = 201.
Proof.
  split; [|split].
  - destruct (create_gate db0 ev_create_anonymous) as (Refused & _).
    apply Refused; [reflexivity | left; reflexivity].
  - destruct (create_gate db0 ev_delete_anonymous) as (_ & Other & _).
    apply Other; discriminate.
  - destruct (create_gate db0 ev_create_alice) as (_ & _ & Accepted).
    apply (Accepted "u1" "T" "C" "tech" ["a"; "a"; "b"]).
    + reflexivity.
    + exists "your-secret-key.u1", (JObj [("userId", JStr "u1"); ("iat", JInt 0)]).
      split; [reflexivity|]. split; [discriminate|]. split; reflexivity.
    + discriminate.
    + eexists. split; [vm_compute; reflexivity|]. repeat split; reflexivity.
    + reflexivity.
Defined.

(** C4 at work: a header carrying Alice's token, and one carrying noise. *)
Lemma bearer_processing_total_witness :
  Posts.bearer (with_authorization ev_list (Some "Bearer your-secret-key.u1"))
  = Some "your-secret-key.u1" /\
  Posts.decode (with_authorization ev_list (Some "Bearer garbage"))
  = Posts.decode (with_authorization ev_list None).
Proof.
  split.
  - destruct (bearer_processing_total ev_list "your-secret-key.u1") as (_ & Token & _).
    + reflexivity.
    + exact Token.
  - destruct (bearer_processing_total ev_list "garbage") as (_ & _ & _ & Fail & _).
    + reflexivity.
    + apply (Fail JwtError). reflexivity.
Defined.

(** C5 fails on the code: a cached entry that is not JSON makes the helper
    throw. *)
Lemma corrupt_cache_throws :
  cache_corrupt !! "user" = Some "{oops" /\
  Api.getCurrentUser cache_corrupt = Throw SyntaxError /\
  Api.getCurrentUser cache_corrupt <> Ok JNull.
Proof.
  split; [reflexivity|]. split; [reflexivity|]. discriminate.
Qed.

(** C5 at work: no entry, a JSON entry, a corrupt entry. *)
Lemma getCurrentUser_cases_witness :
  Api.getCurrentUser (store_of []) = Ok JNull /\
  Api.getCurrentUser cache_teacher = Ok (JObj [("id", JStr "u1"); ("role", JStr "teacher")]) /\
  Api.getCurrentUser cache_corrupt = Throw SyntaxError.
Proof.
  split; [|split].
  - destruct (getCurrentUser_cases (store_of [])) as (Absent & _).
    apply Absent. reflexivity.
  - destruct (getCurrentUser_cases cache_teacher) as (_ & _ & Parsed & _).
    apply (Parsed (JSON_stringify (JObj [("id", JStr "u1"); ("role", JStr "teacher")])));
      reflexivity.
  - destruct (getCurrentUser_cases cache_corrupt) as (_ & _ & _ & _ & Corrupt).
    apply (Corrupt "{oops"); [reflexivity | discriminate | reflexivity].
Defined.

(** C6 fails on the code: [toString] is no role, yet a cached user with
    that role is granted the required role [toString]. *)
Lemma inherited_role_is_granted :
  roleRank "toString" = None /\
  Api.hasPermission cache_inherited "toString" = Ok true.
Proof. split; reflexivity. Qed.

(** C6 at work: a cached teacher; a cached teacher asked for an unknown
    role; no cached user. *)
Lemma hasPermission_ranks_witness :
  Api.hasPermission cache_teacher "teacher" = Ok true /\
  Api.hasPermission cache_teacher "admin" = Ok false /\
  Api.hasPermission cache_teacher "toString" = Ok false /\
  Api.hasPermission (store_of []) "student" = Ok false.
Proof.
  assert (Api.getCurrentUser cache_teacher
          = Ok (JObj [("id", JStr "u1"); ("role", JStr "teacher")])) as U
    by reflexivity.
  split; [|split; [|split]].
  - destruct (hasPermission_ranks cache_teacher "teacher") as (_ & Ranks & _).
    apply (Ranks _ "teacher" U); reflexivity.
  - destruct (hasPermission_ranks cache_teacher "admin") as (_ & Ranks & _).
    apply (Ranks _ "teacher" U); reflexivity.
  - destruct (hasPermission_ranks cache_teacher "toString") as (_ & Ranks & _).
    apply (Ranks _ "teacher" U); reflexivity.
  - destruct (hasPermission_ranks (store_of []) "student") as (Nobody & _).
    apply Nobody. reflexivity.
Defined.

Lemma db0_rehashed_same : same_but_passwords db0 db0_rehashed.
Proof. repeat split; reflexivity. Qed.

(** C7 at work: the storage with another hash for Bob answers Alice's
    login, a create of Bob and the listing that follows it with the same
    bodies. *)
Lemma password_never_leaves_witness :
  let db1 := snd (Posts.handler db0 ev_create_bob) in
  let db1' := snd (Posts.handler db0_rehashed ev_create_bob) in
  Auth.handler db0 ev_login_alice = Auth.handler db0_rehashed ev_login_alice /\
  fst (Posts.handler db0 ev_create_bob) = fst (Posts.handler db0_rehashed ev_create_bob) /\
  fst (Posts.handler db1 ev_list) = fst (Posts.handler db1' ev_list).
Proof.
  intros db1 db1'.
  destruct (password_never_leaves db0 db0_rehashed ev_login_alice db0_rehashed_same)
    as (Login & _ & _).
  destruct (password_never_leaves db0 db0_rehashed ev_create_bob db0_rehashed_same)
    as (_ & (Create & Same) & _).
  destruct (password_never_leaves db1 db1' ev_list Same) as (_ & (Listing & _) & _).
  split; [apply Login; reflexivity|]. split; [exact Create | exact Listing].
Defined.

(** C9 at work: the names a, a, b give two associated tags; a later create
    that names a is served by the stored tag. *)
Lemma tags_get_or_create_witness :
  let db1 := snd (Posts.handler db0 ev_create_alice) in
  let db2 := snd (Posts.handler db1 ev_create_again) in
  (exists row, posts db1 = posts db0 ++ [row] /\ length (tags_of db1 row) = 2%nat) /\
  (exists row fresh,
     posts db2 = posts db1 ++ [row] /\ tags db2 = tags db1 ++ fresh /\
     (forall t, In t (tags db1) -> t_name t = "a" -> In t (tags_of db2 row)) /\
     length (tags_of db2 row) = 1%nat).
Proof.
  intros db1 db2.
  destruct (tags_get_or_create db0 db1 ev_create_alice
              (fst (Posts.handler db0 ev_create_alice)) "T" "C" "tech" ["a"; "a"; "b"])
    as (row & fresh & P & _ & Ok1 & _ & _ & _ & L & _).
  - exact demo_ids_never_repeat.
  - exact db0_store_ok.
  - eexists. split; [vm_compute; reflexivity|]. repeat split; reflexivity.
  - reflexivity.
  - reflexivity.
  - split; [exists row; split; [exact P | exact L]|].
    destruct (tags_get_or_create db1 db2 ev_create_again
                (fst (Posts.handler db1 ev_create_again)) "T" "C" "tech" ["a"])
      as (row2 & fresh2 & P2 & T2 & _ & _ & A2 & _ & L2 & _).
    + exact demo_ids_never_repeat.
    + exact Ok1.
    + eexists. split; [vm_compute; reflexivity|]. repeat split; reflexivity.
    + reflexivity.
    + reflexivity.
    + exists row2, fresh2. split; [exact P2|]. split; [exact T2|]. split; [|exact L2].
      intros t I N. apply A2. split; [rewrite T2; apply in_app_iff; auto|].
      left. symmetry. exact N.
Defined.

(** C10 at work: the article created for Alice carries her four public
    fields; the list read afterwards has one article, made for the stored
    post; and the storage in which Alice is an administrator answers the
    same. *)
Lemma author_fields_witness :
  (exists v,
     resp_body (fst (Posts.handler db0 ev_create_alice)) = JSON_stringify v /\
     author_projection v /\
     exists row, article_of (snd (Posts.handler db0 ev_create_alice)) row v /\
                 p_authorId row = "u1") /\
  (exists l,
     resp_body (fst (Posts.handler (snd (Posts.handler db0 ev_create_alice)) ev_list))
     = JSON_stringify (JArr l) /\
     length l = 1%nat /\
     Forall2 (article_of (snd (Posts.handler db0 ev_create_alice)))
       (posts (snd (Posts.handler db0 ev_create_alice))) l) /\
  fst (Posts.handler db0_promoted ev_create_alice)
  = fst (Posts.handler db0 ev_create_alice).
Proof.
  split; [|split].
  - destruct (author_fields db0 (snd (Posts.handler db0 ev_create_alice)) ev_create_alice
                (fst (Posts.handler db0 ev_create_alice))) as (_ & Created & _).
    + reflexivity.
    + destruct Created as (v & B & K & row & P & A); [reflexivity|].
      exists v. split; [exact B|]. split; [exact K|]. exists row. split; [exact A|].
      apply app_inj_tail in P as [_ <-]. reflexivity.
  - destruct (author_fields (snd (Posts.handler db0 ev_create_alice))
                (snd (Posts.handler (snd (Posts.handler db0 ev_create_alice)) ev_list))
                ev_list
                (fst (Posts.handler (snd (Posts.handler db0 ev_create_alice)) ev_list)))
      as (Listed & _).
    + reflexivity.
    + destruct Listed as (l & B & L & _ & A); [reflexivity|].
      exists l. split; [exact B|]. split; [exact L | exact A].
  - destruct (author_fields db0 (snd (Posts.handler db0 ev_create_alice)) ev_create_alice
                (fst (Posts.handler db0 ev_create_alice))) as (_ & _ & Same).
    + reflexivity.
    + apply (Same db0_promoted). split; [reflexivity|]. split; [reflexivity|].
      split; reflexivity.
Defined.

(** ** Further properties at work *)

Lemma db0_posts_ok : posts_ok db0.
Proof. split; [constructor | intros p k []]. Qed.

Lemma alice_verified (ev : Event) :
  Posts.bearer ev = Some "your-secret-key.u1" -> verified_as ev "u1".
Proof.
  intros B. exists "your-secret-key.u1", (JObj [("userId", JStr "u1"); ("iat", JInt 0)]).
  split; [exact B|]. split; [discriminate|]. split; reflexivity.
Qed.

(** X1 at work: a DELETE is answered 405 and changes nothing; Alice's create
    is a POST. *)
Lemma posts_status_discipline_witness :
  (statusCode (fst (Posts.handler db0 ev_delete_alice)) = 405 /\
   snd (Posts.handler db0 ev_delete_alice) = db0) /\
  httpMethod ev_create_alice = "POST".
Proof.
  split.
  - destruct (posts_status_discipline db0 (snd (Posts.handler db0 ev_delete_alice))
                ev_delete_alice (fst (Posts.handler db0 ev_delete_alice)))
      as (_ & Keep & _ & _ & Other).
    + reflexivity.
    + split; [apply Other; split; discriminate | apply Keep; discriminate].
  - destruct (posts_status_discipline db0 (snd (Posts.handler db0 ev_create_alice))
                ev_create_alice (fst (Posts.handler db0 ev_create_alice)))
      as (_ & _ & _ & Post & _).
    + reflexivity.
    + apply Post. left. reflexivity.
Defined.

(** X2 at work: Alice's create adds one post and leaves the users alone. *)
Lemma posts_storage_grows_witness :
  users (snd (Posts.handler db0 ev_create_alice)) = users db0 /\
  exists new fresh,
    posts (snd (Posts.handler db0 ev_create_alice)) = posts db0 ++ new /\
    tags (snd (Posts.handler db0 ev_create_alice)) = tags db0 ++ fresh /\
    length new = 1%nat.
Proof.
  destruct (posts_storage_grows db0 (snd (Posts.handler db0 ev_create_alice))
              ev_create_alice (fst (Posts.handler db0 ev_create_alice)))
    as (U & new & fresh & P & T & L & _).
  - reflexivity.
  - split; [exact U|]. exists new, fresh. split; [exact P|]. split; [exact T | exact L].
Defined.

(** X3 at work: Alice's accepted create carried a token that verifies. *)
Lemma created_only_if_witness :
  exists uid title content category names,
    verified_as ev_create_alice uid /\
    create_body (body_or ev_create_alice "{}") title content category names.
Proof.
  destruct (created_only_if db0 (snd (Posts.handler db0 ev_create_alice))
              ev_create_alice (fst (Posts.handler db0 ev_create_alice)))
    as (uid & title & content & category & names & _ & V & _ & B & _).
  - reflexivity.
  - reflexivity.
  - exists uid, title, content, category, names. split; [exact V | exact B].
Defined.

(** X4 at work: the row of Alice's create. *)
Lemma created_row_witness :
  exists row,
    posts (snd (Posts.handler db0 ev_create_alice)) = posts db0 ++ [row] /\
    p_id row = "id" /\ p_title row = "T" /\ p_category row = "tech".
Proof.
  destruct (created_row db0 (snd (Posts.handler db0 ev_create_alice))
              ev_create_alice (fst (Posts.handler db0 ev_create_alice))
              "T" "C" "tech" ["a"; "a"; "b"])
    as (row & v & P & I & T & _ & C & _).
  - eexists. split; [vm_compute; reflexivity|]. repeat split; reflexivity.
  - reflexivity.
  - reflexivity.
  - exists row. split; [exact P|]. split; [exact I|]. split; [exact T | exact C].
Defined.

(** X5 at work: Alice's token with a body that is cut short. *)
Lemma rejected_create_is_500_witness :
  Posts.handler db0 ev_create_broken = (internal_error_response, db0).
Proof.
  apply (rejected_create_is_500 db0 ev_create_broken).
  - reflexivity.
  - reflexivity.
  - intros (uid & title & content & category & names & _ & _ & (parsed & P & _) & _).
    vm_compute in P. discriminate P.
Defined.

(** X6 at work: after the session the ids are still unique. *)
Lemma serve_keeps_ids_unique_witness :
  store_ok (serve db0 session) /\ posts_ok (serve db0 session).
Proof.
  apply (serve_keeps_ids_unique session db0).
  - exact demo_ids_never_repeat.
  - exact db0_store_ok.
  - exact db0_posts_ok.
Defined.

(** X7 at work: after the session no reference dangles. *)
Lemma serve_keeps_references_witness :
  authors_exist (serve db0 session) /\ tag_links_exist (serve db0 session).
Proof.
  apply (serve_keeps_references session db0).
  - intros p [].
  - intros p id [].
Defined.

(** X8 at work: after the session the list has two articles, also for a
    GET with a useless header and a body. *)
Lemma listing_is_open_witness :
  length (posts (serve db0 session)) = 2%nat /\
  snd (Posts.handler (serve db0 session) ev_list_noisy) = serve db0 session /\
  exists l,
    fst (Posts.handler (serve db0 session) ev_list_noisy)
    = {| statusCode := 200; resp_body := JSON_stringify (JArr l) |} /\
    Forall2 (article_of (serve db0 session)) (posts (serve db0 session)) l.
Proof.
  split; [reflexivity|]. split.
  - destruct (listing_is_open (serve db0 session) ev_list_noisy) as (Keep & _).
    + reflexivity.
    + exact Keep.
  - destruct (listing_is_open db0 ev_list_noisy) as (_ & _ & Served).
    + reflexivity.
    + apply (Served (fun p (I : In p []) => match I with end) session).
Defined.

(** X11 at work: Alice's login is sound. *)
Lemma login_sound_witness :
  httpMethod ev_login_alice = "POST" /\
  exists u password,
    In u (users db0) /\ bcrypt_compare password (u_password u) = true.
Proof.
  destruct (login_sound db0 ev_login_alice) as (M & u & password & _ & I & C & _).
  - reflexivity.
  - split; [exact M|]. exists u, password. split; [exact I | exact C].
Defined.

(** X12 at work: Alice logs in, caches her token and publishes. *)
Lemma login_then_create_witness :
  statusCode (Auth.handler db0 ev_login_alice) = 200 /\
  exists r db' row,
    Posts.handler db0 (Api.createPost_request cache_teacher (create_data ["a"] []))
    = (r, db') /\
    statusCode r = 201 /\ posts db' = posts db0 ++ [row] /\ p_authorId row = "u1".
Proof.
  destruct (login_then_create db0 ev_login_alice alice "wonderland" cache_teacher
              (create_data ["a"] []) "T" "C" "tech" ["a"])
    as (L & r & db' & row & E & S & P & A & _).
  - reflexivity.
  - exact (login_body_with_action "alice@lab.org" "wonderland").
  - exact db0_emails_unique.
  - left. reflexivity.
  - reflexivity.
  - eexists. split; reflexivity.
  - reflexivity.
  - discriminate.
  - reflexivity.
  - eexists. split; [vm_compute; reflexivity|]. repeat split; reflexivity.
  - reflexivity.
  - split; [rewrite L; reflexivity|]. exists r, db', row. auto.
Defined.

(** X13 at work: the server reads Alice's token off the header her client
    builds. *)
Lemma header_round_trip_witness :
  Posts.bearer ev_create_alice = Some "your-secret-key.u1" /\
  (Posts.bearer (Api.getPosts_request cache_empty) = None /\
   Posts.decode (Api.getPosts_request cache_empty) = JNull).
Proof.
  split.
  - destruct (header_round_trip cache_teacher ev_create_alice) as (_ & _ & Token).
    + reflexivity.
    + destruct (Token "your-secret-key.u1") as (_ & _ & _ & Whole).
      * reflexivity.
      * discriminate.
      * apply Whole. reflexivity.
  - destruct (header_round_trip cache_empty (Api.getPosts_request cache_empty))
      as (_ & Anonymous & _).
    + reflexivity.
    + apply Anonymous. reflexivity.
Defined.

(** X17 at work: a create from an empty cache. *)
Lemma anonymous_create_refused_witness :
  Api.createPost db0 cache_empty (create_data ["a"] []) = (Throw RequestError, db0).
Proof.
  destruct (anonymous_create_refused db0 cache_empty (create_data ["a"] [])) as (_ & C).
  - reflexivity.
  - exact C.
Defined.

(** X18 at work: Alice's create returns, so a post was stored. *)
Lemma createPost_returns_only_if_stored_witness :
  Api.isAuthenticated cache_teacher = true /\
  exists row,
    posts (snd (Api.createPost db0 cache_teacher (create_data ["a"] [])))
    = posts db0 ++ [row].
Proof.
  destruct (createPost_returns_only_if_stored db0
              (snd (Api.createPost db0 cache_teacher (create_data ["a"] [])))
              cache_teacher (create_data ["a"] [])
              (fst (Api.createPost db0 cache_teacher (create_data ["a"] []))))
    as (A & row & P & _).
  - reflexivity.
  - left. eexists. vm_compute. reflexivity.
  - split; [exact A|]. exists row. exact P.
Defined.

(** X21 at work: a teacher passes the check for teacher, hence the one for
    student. *)
Lemma hasPermission_monotone_witness :
  Api.hasPermission cache_teacher "student" = Ok true.
Proof.
  apply (hasPermission_monotone cache_teacher "teacher" "student" 2 1).
  - reflexivity.
  - reflexivity.
  - lia.
  - vm_compute. reflexivity.
Defined.

(** X22 at work: with a cached role that is an object with a member
    toString the user is read back but the check raises; with the role
    teacher it answers. *)
Lemma hasPermission_reads_user_only_witness :
  Api.getCurrentUser cache_shadowed = Ok (JObj [("role", JObj [("toString", JInt 1)])]) /\
  Api.hasPermission cache_shadowed "student" = Throw TypeError /\
  exists verdict, Api.hasPermission cache_teacher "admin" = Ok verdict.
Proof.
  split; [vm_compute; reflexivity|]. split.
  - destruct (hasPermission_reads_user_only cache_shadowed "student") as (Raises & _).
    apply Raises. right. split; [reflexivity|].
    exists (JObj [("role", JObj [("toString", JInt 1)])]), (JObj [("toString", JInt 1)]).
    split; [vm_compute; reflexivity|]. split; [reflexivity|]. split; reflexivity.
  - destruct (hasPermission_reads_user_only cache_teacher "admin") as (_ & Typed & _).
    apply (Typed (JObj [("id", JStr "u1"); ("role", JStr "teacher")]) "teacher").
    + vm_compute. reflexivity.
    + reflexivity.
Defined.

(** X24 at work: the page under the empty query, and under the category
    tech. *)
Lemma filteredPosts_sound_witness :
  App.filteredPosts lower page "" "all" = page /\
  forall post, In post (App.filteredPosts lower page "rocq" "tech") ->
    In post page /\ ("tech" = "all" \/ App.post_category post = "tech").
Proof.
  destruct (filteredPosts_sound lower page "rocq" "tech") as (Sub & All & _).
  - reflexivity.
  - split; [exact All | exact Sub].
Defined.


(** X26 at work: two clean names, joined and read back. *)
Lemma form_tags_of_joined_witness :
  App.form_tags (join "," ["rocq"; "logic"]) = ["rocq"; "logic"].
Proof.
  apply (form_tags_of_joined ["rocq"; "logic"]).
  constructor; [split; [discriminate | split; reflexivity]|].
  constructor; [split; [discriminate | split; reflexivity]|].
  constructor.
Defined.

(** X28 at work: Alice submits her form. *)
Lemma form_submit_is_created_witness :
  exists r db' row,
    Posts.handler db0 (Api.createPost_request cache_teacher (App.submit_data form_alice))
    = (r, db') /\
    statusCode r = 201 /\ posts db' = posts db0 ++ [row] /\
    p_authorId row = "u1" /\ p_title row = "Proofs".
Proof.
  destruct (form_submit_is_created db0 cache_teacher form_alice "u1")
    as (r & db' & row & E & S & _ & P & A & T & _).
  - apply alice_verified. reflexivity.
  - discriminate.
  - reflexivity.
  - exists r, db', row. auto.
Defined.

(** X29 at work: the form submitted from an empty cache keeps its draft. *)
Lemma handleSubmit_outcome_witness :
  let out := App.handleSubmit db0 cache_empty form_alice in
  snd (fst out) = false /\ snd out = db0 /\
  App.tags (fst (fst out)) = " rocq , logic ,," /\
  App.error (fst (fst out)) = App.failure_notice /\
  App.isSubmitting (fst (fst out)) = false.
Proof.
  intros out.
  destruct (handleSubmit_outcome db0 (snd out) cache_empty form_alice
              (fst (fst out)) (snd (fst out)))
    as (Idle & _ & _ & Failed & Refused).
  - reflexivity.
  - destruct Refused as [F K]; [left; reflexivity|].
    destruct (Failed F) as (_ & _ & T & N).
    split; [exact F|]. split; [exact K|]. split; [exact T|]. split; [exact N | exact Idle].
Defined.
